(** * SYSLINUX COMBOOT API emulation (arch/i386/interface/syslinux/comboot_call.c)

    A shallow embedding of the three COMBOOT interrupt handlers (INT 20h,
    INT 21h, INT 22h), of the shuffle engine and of the kernel/initrd fetch,
    followed by the properties of the specification that concern them.

    Conventions of the embedding:
    - machine integers are [Z]; narrowing stores and unsigned wrap-around are
      written out ([lo8], [lo16], [u32]);
    - physical memory is a total map from addresses to bytes; regions are
      taken not to wrap around the end of the address space;
    - the register context behind the handlers' [ix86] pointer, the file's
      two globals and the functions' local arrays are kept beside that map,
      not inside it: the model describes the runs in which writes through
      user pointers do not land on the program's own objects, and says
      nothing about the others;
    - the handlers run in a state-and-outcome monad: besides returning, a
      handler can [longjmp] to the loader, transfer control to the relocated
      kernel, or stop on a contract violation;
    - every call to an external collaborator is recorded in a trace, and the
      collaborator's answer is taken from an oracle on an abstract world;
    - loops whose termination depends on the contents of memory take fuel;
    - [DBG] statements produce no output in a normal build and are omitted. *)

From Stdlib Require Import ZArith String Ascii List Bool Lia.
Import ListNotations.
Open Scope Z_scope.

(** ** Machine integers and sub-registers *)

Definition u32 (x : Z) : Z := x mod 2 ^ 32.
Definition lo8 (x : Z) : Z := Z.land x 0xFF.
Definition hi8 (x : Z) : Z := Z.land (Z.shiftr x 8) 0xFF.
Definition lo16 (x : Z) : Z := Z.land x 0xFFFF.

(** The value of a byte held in a [char]: the type is signed on i386, so
    the byte is sign-extended wherever the [char] is used as an [int]. *)
Definition as_char (b : Z) : Z :=
  if lo8 b <? 0x80 then lo8 b else lo8 b - 0x100.

(** Stores into the low byte, the second byte and the low word of a 32-bit
    register (the anonymous unions of [struct i386_regs]). *)
Definition set_lo8 (x v : Z) : Z := Z.lor (Z.ldiff x 0xFF) (Z.land v 0xFF).
Definition set_hi8 (x v : Z) : Z :=
  Z.lor (Z.ldiff x 0xFF00) (Z.shiftl (Z.land v 0xFF) 8).
Definition set_lo16 (x v : Z) : Z := Z.lor (Z.ldiff x 0xFFFF) (Z.land v 0xFFFF).

(** ** Register context: [struct i386_all_regs] *)

(** Modelled from the spec: [struct i386_all_regs] is declared in
    registers.h, which is not part of this file: the segment registers, the
    general-purpose registers with their 8- and 16-bit views, and the flags
    word. *)
Record i386_seg_regs := mkSegs {
  cs : Z; ss : Z; ds : Z; es : Z; fs : Z; gs : Z }.

Record i386_regs := mkRegs {
  edi : Z; esi : Z; ebp : Z; esp : Z; ebx : Z; edx : Z; ecx : Z; eax : Z }.

Record i386_all_regs := mkAllRegs {
  segs : i386_seg_regs; regs : i386_regs; flags : Z }.

Definition set_flags (f : Z) (r : i386_all_regs) : i386_all_regs :=
  mkAllRegs (segs r) (regs r) f.
Definition set_regs (g : i386_regs) (r : i386_all_regs) : i386_all_regs :=
  mkAllRegs (segs r) g (flags r).
Definition set_segs (s : i386_seg_regs) (r : i386_all_regs) : i386_all_regs :=
  mkAllRegs s (regs r) (flags r).

Definition with_eax (v : Z) (g : i386_regs) : i386_regs :=
  mkRegs (edi g) (esi g) (ebp g) (esp g) (ebx g) (edx g) (ecx g) v.
Definition with_ecx (v : Z) (g : i386_regs) : i386_regs :=
  mkRegs (edi g) (esi g) (ebp g) (esp g) (ebx g) (edx g) v (eax g).
Definition with_edx (v : Z) (g : i386_regs) : i386_regs :=
  mkRegs (edi g) (esi g) (ebp g) (esp g) (ebx g) v (ecx g) (eax g).
Definition with_ebx (v : Z) (g : i386_regs) : i386_regs :=
  mkRegs (edi g) (esi g) (ebp g) (esp g) v (edx g) (ecx g) (eax g).
Definition with_esi (v : Z) (g : i386_regs) : i386_regs :=
  mkRegs (edi g) v (ebp g) (esp g) (ebx g) (edx g) (ecx g) (eax g).
Definition with_edi (v : Z) (g : i386_regs) : i386_regs :=
  mkRegs v (esi g) (ebp g) (esp g) (ebx g) (edx g) (ecx g) (eax g).
Definition with_es (v : Z) (s : i386_seg_regs) : i386_seg_regs :=
  mkSegs (cs s) (ss s) (ds s) v (fs s) (gs s).

(** Reads of the narrow views. *)
Definition al (r : i386_all_regs) : Z := lo8 (eax (regs r)).
Definition ah (r : i386_all_regs) : Z := hi8 (eax (regs r)).
Definition ax (r : i386_all_regs) : Z := lo16 (eax (regs r)).
Definition bx (r : i386_all_regs) : Z := lo16 (ebx (regs r)).
Definition cx (r : i386_all_regs) : Z := lo16 (ecx (regs r)).
Definition dx (r : i386_all_regs) : Z := lo16 (edx (regs r)).
Definition dl (r : i386_all_regs) : Z := lo8 (edx (regs r)).
Definition si (r : i386_all_regs) : Z := lo16 (esi (regs r)).
Definition di (r : i386_all_regs) : Z := lo16 (edi (regs r)).

(** Writes through the narrow views. *)
Definition set_al (v : Z) (r : i386_all_regs) :=
  set_regs (with_eax (set_lo8 (eax (regs r)) v) (regs r)) r.
Definition set_ax (v : Z) (r : i386_all_regs) :=
  set_regs (with_eax (set_lo16 (eax (regs r)) v) (regs r)) r.
Definition set_eax (v : Z) (r : i386_all_regs) :=
  set_regs (with_eax (u32 v) (regs r)) r.
Definition set_bx (v : Z) (r : i386_all_regs) :=
  set_regs (with_ebx (set_lo16 (ebx (regs r)) v) (regs r)) r.
Definition set_ebx (v : Z) (r : i386_all_regs) :=
  set_regs (with_ebx (u32 v) (regs r)) r.
Definition set_cl (v : Z) (r : i386_all_regs) :=
  set_regs (with_ecx (set_lo8 (ecx (regs r)) v) (regs r)) r.
Definition set_ch (v : Z) (r : i386_all_regs) :=
  set_regs (with_ecx (set_hi8 (ecx (regs r)) v) (regs r)) r.
Definition set_cx (v : Z) (r : i386_all_regs) :=
  set_regs (with_ecx (set_lo16 (ecx (regs r)) v) (regs r)) r.
Definition set_ecx (v : Z) (r : i386_all_regs) :=
  set_regs (with_ecx (u32 v) (regs r)) r.
Definition set_dl (v : Z) (r : i386_all_regs) :=
  set_regs (with_edx (set_lo8 (edx (regs r)) v) (regs r)) r.
Definition set_dx (v : Z) (r : i386_all_regs) :=
  set_regs (with_edx (set_lo16 (edx (regs r)) v) (regs r)) r.
Definition set_edx (v : Z) (r : i386_all_regs) :=
  set_regs (with_edx (u32 v) (regs r)) r.
Definition set_si (v : Z) (r : i386_all_regs) :=
  set_regs (with_esi (set_lo16 (esi (regs r)) v) (regs r)) r.
Definition set_di (v : Z) (r : i386_all_regs) :=
  set_regs (with_edi (set_lo16 (edi (regs r)) v) (regs r)) r.
Definition set_seg_es (v : Z) (r : i386_all_regs) :=
  set_segs (with_es (lo16 v) (segs r)) r.

(** What the asm block of Cleanup, Shuffle and Boot hands to the real-mode
    entry point it jumps to: its [pushw %0; popw %%ds] loads DS, its
    [pushl %1; lret] takes the far pointer to jump to from the second
    operand, and the operands constrained to "d" and "S" are in EDX and
    ESI at the jump. *)
Record real_mode_entry := mkEntry {
  entry_ds : Z;
  entry_target : Z;
  entry_edx : Z;
  entry_esi : Z }.

(** ** Memory and C strings *)

(** Physical memory: one byte per address. *)
Definition mem := Z -> Z.

(** Modelled from the spec: the user-memory primitives ([real_to_user],
    [phys_to_user], [copy_from_user], [memset_user], [memmove_user],
    [strlen_user]) are declared in realmode.h and gpxe/uaccess.h, which are
    not part of this file.  A user pointer is represented by the physical
    address it designates; the primitives copy, fill and move bytes, the
    move being safe for overlapping regions. *)
Definition real_to_user (segment offset : Z) : Z := segment * 16 + offset.

(** [phys_to_user ( addr )]: physical addresses index [mem] directly. *)
Definition phys_to_user (addr : Z) : Z := addr.

(** [copy_from_user ( buf, src, off, len )]: the [len] bytes read. *)
Definition copy_from_user (m : mem) (src off len : Z) : list Z :=
  map (fun k => m (src + off + Z.of_nat k)) (seq 0 (Z.to_nat len)).

(** [memset_user ( dest, off, c, len )]. *)
Definition memset_user (m : mem) (dest off c len : Z) : mem :=
  fun a => if (dest + off <=? a) && (a <? dest + off + len) then c else m a.

(** [memmove_user ( dest, dest_off, src, src_off, len )]: every byte of the
    destination receives the byte the source held before the call, so
    overlapping regions are handled. *)
Definition memmove_user (m : mem) (dest dest_off src src_off len : Z) : mem :=
  fun a =>
    if (dest + dest_off <=? a) && (a <? dest + dest_off + len)
    then m (a - (dest + dest_off) + (src + src_off))
    else m a.

(** Storing a run of bytes (the data a file read delivers). *)
Fixpoint store_bytes (m : mem) (dest : Z) (bs : list Z) : mem :=
  match bs with
  | [] => m
  | b :: bs' =>
      store_bytes (fun a => if a =? dest then b else m a) (dest + 1) bs'
  end.

(** [strlen_user ( str, off )]: bytes before the first NUL; the scan is
    bounded by [fuel]. *)
Fixpoint strlen_user (fuel : nat) (m : mem) (str off : Z) : option Z :=
  match fuel with
  | O => None
  | S fuel' =>
      if m (str + off) =? 0 then Some 0
      else option_map Z.succ (strlen_user fuel' m str (off + 1))
  end.

(** Character arrays local to a function are lists of bytes; a C string held
    in one extends from an offset to the first NUL. *)
Definition bytes_of_string (s : string) : list Z :=
  map (fun c => Z.of_nat (nat_of_ascii c)) (list_ascii_of_string s).

Fixpoint c_str (buf : list Z) : list Z :=
  match buf with
  | [] => []
  | b :: buf' => if b =? 0 then [] else b :: c_str buf'
  end.

Definition c_str_at (buf : list Z) (p : nat) : list Z := c_str (skipn p buf).

Fixpoint is_prefix (needle hay : list Z) : bool :=
  match needle, hay with
  | [], _ => true
  | _ :: _, [] => false
  | a :: needle', b :: hay' => (a =? b) && is_prefix needle' hay'
  end.

(** [strstr ( haystack, needle )] on the C string at the head of [buf]:
    offset of the first occurrence. *)
Fixpoint strstr_from (hay needle : list Z) (p : nat) : option nat :=
  if is_prefix needle hay then Some p
  else match hay with
       | [] => None
       | _ :: hay' => strstr_from hay' needle (S p)
       end.

Definition strstr (buf : list Z) (needle : list Z) : option nat :=
  strstr_from (c_str buf) needle 0.

(** [strchr ( s, c )] for the C string at offset [p] of [buf] and [c] other
    than NUL: offset of the first occurrence, counted from the start of
    [buf]. *)
Fixpoint strchr_from (s : list Z) (c : Z) (p : nat) : option nat :=
  match s with
  | [] => None
  | b :: s' => if b =? c then Some p else strchr_from s' c (S p)
  end.

Definition strchr (buf : list Z) (p : nat) (c : Z) : option nat :=
  strchr_from (c_str_at buf p) c p.

(** [*q = c] for a pointer [q] at offset [p] of [buf]. *)
Fixpoint poke (buf : list Z) (p : nat) (c : Z) : list Z :=
  match buf, p with
  | [], _ => []
  | _ :: buf', O => c :: buf'
  | b :: buf', S p' => b :: poke buf' p' c
  end.

(** ** Declarations taken from headers *)

(** [struct image *]: a handle; [None] is the null pointer. *)
Definition image := Z.

(** A shuffle descriptor: the fields of [comboot_shuffle_descriptor] that
    [shuffle] reads.  The type is declared in comboot.h; its size and the
    way it is laid out in memory are parameters ([sizeof_descriptor],
    [decode_descriptor] below). *)
Record comboot_shuffle_descriptor := mkDescriptor {
  dest : Z; src : Z; len : Z }.

(** Constants, macros and the descriptor layout that comboot_call.c takes
    from its headers (comboot.h, registers.h, bzimage.h, realmode.h,
    gpxe/init.h, errno.h), kept abstract.  Of their values only this is
    used: a descriptor has a positive size, and the maximum number of
    descriptors is an [unsigned int]. *)
Class Headers := {
  CF : Z;
  COMBOOT_MAX_SHUFFLE_DESCRIPTORS : Z;
  sizeof_descriptor : Z;
  decode_descriptor : mem -> Z -> comboot_shuffle_descriptor;
  sizeof_descriptor_pos : 0 < sizeof_descriptor;
  max_descriptors_range : 0 <= COMBOOT_MAX_SHUFFLE_DESCRIPTORS < 2 ^ 32;
  COMBOOT_FILE_BLOCKSZ : Z;
  COMBOOT_VIDEO_GRAPHICS : Z;
  COMBOOT_VIDEO_VESA : Z;
  COMBOOT_EXIT : Z;
  COMBOOT_EXIT_RUN_KERNEL : Z;
  COMBOOT_EXIT_COMMAND : Z;
  BZI_LOADER_TYPE_GPXE : Z;
  SHUTDOWN_BOOT : Z;
  ENOMEM : Z;
  rm_ds : Z;
  syslinux_version : Z;
  syslinux_copyright : Z;
  syslinux_configuration_file : Z;
  comboot_feature_flags : Z
}.

(** ** External collaborators *)

(** One entry per call made to a service outside this file, with the
    arguments passed and, where the caller uses it, the answer. *)
Inductive event :=
| EvGetchar (c : Z)
| EvPutchar (c : Z)
| EvSerialPutc (c : Z)
| EvIskey (r : Z)
| EvSystem (cmd : list Z)
| EvOpen (file : list Z) (fd : Z)
| EvFsize (fd size : Z)
| EvSelect (fd : Z)
| EvReadUser (fd buf len rc : Z)
| EvClose (fd : Z)
| EvPxeApiCall
| EvResolv (hostname : list Z) (rc addr : Z)
| EvShutdown (how : Z)
| EvStep
| EvInt10 (ax_in bx_in : option Z)
| EvAllocImage (img : option image)
| EvImgfetch (img : image) (name : list Z) (rc : Z)
| EvImageSetCmdline (img : image) (cmdline : list Z) (rc : Z)
| EvImageGet (img : image)
| EvImagePut (img : option image)
| EvMemset (dest len : Z)
| EvMemmove (dest src len : Z).

(** The answers of the services, as functions of an abstract world [W].
    [effect] is the world's reaction to a call whose result is not used.
    The services that load or run images - [imgfetch] and [system] - and
    the PXE stack are handed memory and answer with the memory they leave:
    an image fetch overwrites part of the COMBOOT program's memory (see the
    comment in Run Kernel Image). *)
Class Services (W : Type) := {
  getchar_svc : W -> Z * W;
  iskey_svc : W -> Z * W;
  open_svc : list Z -> W -> Z * W;
  fsize_svc : Z -> W -> Z * W;
  read_user_svc : Z -> Z -> W -> (Z * list Z) * W;
  pxe_api_call_svc : i386_all_regs -> mem -> W -> (i386_all_regs * mem) * W;
  comboot_resolv_svc : list Z -> W -> (Z * Z) * W;
  alloc_image_svc : W -> option image * W;
  imgfetch_svc : image -> list Z -> mem -> W -> (Z * mem) * W;
  image_set_cmdline_svc : image -> list Z -> W -> Z * W;
  system_svc : list Z -> mem -> W -> mem * W;
  effect : event -> W -> W
}.

(** ** State and outcomes *)

Section Model.

Context {Hd : Headers} {W : Type} {Sv : Services W}.

(** What a handler can reach: the register context it was handed, the
    file's two mutable globals, memory, and the outside world.  [memory]
    is what user pointers reach; the register context and the globals are
    separate fields, so a write through a user pointer never changes them
    here (see the conventions at the head of the file). *)
Record state := mkState {
  ix86 : i386_all_regs;
  comboot_graphics_mode : Z;
  comboot_replacement_image : option image;
  memory : mem;
  world : W;
  trace : list event }.

Definition with_ix86 (r : i386_all_regs) (s : state) : state :=
  mkState r (comboot_graphics_mode s) (comboot_replacement_image s)
          (memory s) (world s) (trace s).
Definition with_graphics_mode (g : Z) (s : state) : state :=
  mkState (ix86 s) g (comboot_replacement_image s)
          (memory s) (world s) (trace s).
Definition with_replacement_image (i : option image) (s : state) : state :=
  mkState (ix86 s) (comboot_graphics_mode s) i
          (memory s) (world s) (trace s).
Definition with_memory (m : mem) (s : state) : state :=
  mkState (ix86 s) (comboot_graphics_mode s) (comboot_replacement_image s)
          m (world s) (trace s).
Definition with_world (w : W) (e : event) (s : state) : state :=
  mkState (ix86 s) (comboot_graphics_mode s) (comboot_replacement_image s)
          (memory s) w (trace s ++ [e]).

Inductive violation := AssertionFailed | BufferOverrun.

(** How a computation ends. *)
Inductive result (A : Type) :=
| Ok (a : A) (s : state)           (* ran to its end *)
| Exit (code : Z) (s : state)      (* longjmp ( comboot_return, code ) *)
| Boot (e : real_mode_entry) (s : state)  (* lret to the entry point *)
| Fatal (v : violation) (s : state)
| OutOfFuel.

Arguments Ok {A} a s.
Arguments Exit {A} code s.
Arguments Boot {A} e s.
Arguments Fatal {A} v s.
Arguments OutOfFuel {A}.

Definition M (A : Type) := state -> result A.

Definition ret {A} (a : A) : M A := fun s => Ok a s.

Definition bind {A B} (m : M A) (k : A -> M B) : M B :=
  fun s =>
    match m s with
    | Ok a s' => k a s'
    | Exit c s' => Exit c s'
    | Boot e s' => Boot e s'
    | Fatal v s' => Fatal v s'
    | OutOfFuel => OutOfFuel
    end.

Notation "x <- m ;; k" := (bind m (fun x => k))
  (at level 61, m at next level, right associativity).
Notation "m ;; k" := (bind m (fun _ => k))
  (at level 61, right associativity).

Definition get : M state := fun s => Ok s s.
Definition regs_now : M i386_all_regs := fun s => Ok (ix86 s) s.
Definition update (f : i386_all_regs -> i386_all_regs) : M unit :=
  fun s => Ok tt (with_ix86 (f (ix86 s)) s).
Definition modify (f : state -> state) : M unit := fun s => Ok tt (f s).
Definition longjmp (code : Z) : M unit := fun s => Exit code s.
Definition lret (e : real_mode_entry) : M unit := fun s => Boot e s.
Definition fatal {A} (v : violation) : M A := fun s => Fatal v s.
Definition out_of_fuel {A} : M A := fun _ => OutOfFuel.
Definition when (b : bool) (m : M unit) : M unit := if b then m else ret tt.

(** Modelled from the spec: the [assert] macro (assert.h is not part of this
    file); a failed assertion is a contract violation and is fatal. *)
Definition assert (b : bool) : M unit :=
  if b then ret tt else fatal AssertionFailed.

(** A call whose answer the caller uses. *)
Definition ask {A} (f : W -> A * W) (ev : A -> event) : M A :=
  fun s => let (a, w) := f (world s) in Ok a (with_world w (ev a) s).

(** A call made for its effect only. *)
Definition tell (e : event) : M unit :=
  fun s => Ok tt (with_world (effect e (world s)) e s).

Definition getchar : M Z := ask getchar_svc EvGetchar.
Definition iskey : M Z := ask iskey_svc EvIskey.
Definition putchar (c : Z) : M unit := tell (EvPutchar c).
Definition serial_putc (c : Z) : M unit := tell (EvSerialPutc c).
Definition open (file : list Z) : M Z := ask (open_svc file) (EvOpen file).
Definition fsize (fd : Z) : M Z := ask (fsize_svc fd) (EvFsize fd).
Definition select (fd : Z) : M unit := tell (EvSelect fd).
Definition close (fd : Z) : M unit := tell (EvClose fd).
Definition shutdown (how : Z) : M unit := tell (EvShutdown how).
Definition step : M unit := tell EvStep.
Definition int10 (ax_in bx_in : option Z) : M unit := tell (EvInt10 ax_in bx_in).
Definition alloc_image : M (option image) := ask alloc_image_svc EvAllocImage.
Definition image_set_cmdline (img : image) (cmdline : list Z) : M Z :=
  ask (image_set_cmdline_svc img cmdline) (EvImageSetCmdline img cmdline).
Definition image_get (img : image) : M image :=
  tell (EvImageGet img) ;; ret img.
Definition image_put (img : option image) : M unit := tell (EvImagePut img).

Definition comboot_resolv (hostname : list Z) : M (Z * Z) :=
  ask (comboot_resolv_svc hostname)
      (fun r => EvResolv hostname (fst r) (snd r)).

(** [imgfetch ( image, name, register_image )] answers with a return code
    and may have rewritten memory. *)
Definition imgfetch (img : image) (name : list Z) : M Z :=
  fun s =>
    let '(rc, m, w) := imgfetch_svc img name (memory s) (world s) in
    Ok rc (with_world w (EvImgfetch img name rc) (with_memory m s)).

(** [system ( cmd )] runs a command of the loader and may have rewritten
    memory. *)
Definition system (cmd : list Z) : M unit :=
  fun s =>
    let (m, w) := system_svc cmd (memory s) (world s) in
    Ok tt (with_world w (EvSystem cmd) (with_memory m s)).

(** [read_user ( fd, buf, off, len )]: the service delivers a return code
    and the bytes it stored at [buf + off]. *)
Definition read_user (fd buf off len : Z) : M Z :=
  r <- ask (read_user_svc fd len) (fun r => EvReadUser fd buf len (fst r)) ;;
  modify (fun s => with_memory (store_bytes (memory s) (buf + off) (snd r)) s) ;;
  ret (fst r).

(** [pxe_api_call ( ix86 )] may rewrite the register context and memory. *)
Definition pxe_api_call : M unit :=
  fun s =>
    let '(r, m, w) := pxe_api_call_svc (ix86 s) (memory s) (world s) in
    Ok tt (with_world w EvPxeApiCall (with_memory m (with_ix86 r s))).

(** Memory writes of the shuffle engine; each is recorded. *)
Definition do_memset_user (d off c n : Z) : M unit :=
  fun s => Ok tt (with_world (world s) (EvMemset (d + off) n)
                    (with_memory (memset_user (memory s) d off c n) s)).
Definition do_memmove_user (d d_off sr s_off n : Z) : M unit :=
  fun s => Ok tt (with_world (world s) (EvMemmove (d + d_off) (sr + s_off) n)
                    (with_memory (memmove_user (memory s) d d_off sr s_off n) s)).

(** Reading user memory into a local array of [capacity] bytes; a longer
    copy runs past the end of the array. *)
Definition copy_to_local (capacity src off n : Z) : M (list Z) :=
  fun s => if n <=? capacity
           then Ok (copy_from_user (memory s) src off n) s
           else Fatal BufferOverrun s.

Definition do_strlen_user (fuel : nat) (str off : Z) : M Z :=
  fun s => match strlen_user fuel (memory s) str off with
           | Some n => Ok n s
           | None => OutOfFuel
           end.

(** ** The functions of comboot_call.c *)

(** [print_user_string]: the [for ( ; ; )] loop, from index [i].  The byte
    is read into [char c], a signed type on i386: [c] is compared with
    [terminator], itself a [char], and passed to [putchar] as an [int], so
    the bytes 80h to FFh count as -128 to -1 in both places. *)
Fixpoint print_user_string_loop (fuel : nat) (str : Z) (terminator : Z)
    (i : Z) : M unit :=
  match fuel with
  | O => out_of_fuel
  | S fuel' =>
      c <- copy_to_local 1 str i 1 ;;
      let c := as_char (nth 0 c 0) in
      if c =? terminator then ret tt
      else putchar c ;; print_user_string_loop fuel' str terminator (i + 1)
  end.

Definition print_user_string (fuel : nat) (segment offset terminator : Z)
    : M unit :=
  print_user_string_loop fuel (real_to_user segment offset) terminator 0.

(** The [count] descriptors stored from address [from] on. *)
Definition load_descriptors (m : mem) (from : Z) (count : Z)
    : list comboot_shuffle_descriptor :=
  map (fun k => decode_descriptor m (from + Z.of_nat k * sizeof_descriptor))
      (seq 0 (Z.to_nat count)).

(** [copy_from_user ( shuf, from, 0, nbytes )] into the local array [shuf],
    which has room for [COMBOOT_MAX_SHUFFLE_DESCRIPTORS] descriptors; the
    loop then uses the first [count] of them. *)
Definition copy_descriptors (from nbytes count : Z)
    : M (list comboot_shuffle_descriptor) :=
  fun s =>
    if nbytes <=? COMBOOT_MAX_SHUFFLE_DESCRIPTORS * sizeof_descriptor
    then Ok (load_descriptors (memory s) from count) s
    else Fatal BufferOverrun s.

(** [shuf[ i ]]: the array has [COMBOOT_MAX_SHUFFLE_DESCRIPTORS] elements. *)
Definition shuf_at (shuf : list comboot_shuffle_descriptor) (i : Z)
    : option comboot_shuffle_descriptor :=
  if i <? COMBOOT_MAX_SHUFFLE_DESCRIPTORS then nth_error shuf (Z.to_nat i)
  else None.

(** [shuffle]: the [for ( i = 0; i < count; i++ )] loop, entered at the test
    [i < count]. *)
Fixpoint shuffle_loop (fuel : nat) (shuf : list comboot_shuffle_descriptor)
    (count i : Z) : M unit :=
  match fuel with
  | O => out_of_fuel
  | S fuel' =>
      if i <? count then
        match shuf_at shuf i with
        | None => fatal BufferOverrun
        | Some d =>
            let src_u := phys_to_user (src d) in
            let dest_u := phys_to_user (dest d) in
            if src d =? 0xFFFFFFFF then
              (* Fill with 0 instead of copying *)
              do_memset_user dest_u 0 0 (len d) ;;
              shuffle_loop fuel' shuf count (u32 (i + 1))
            else if dest d =? 0xFFFFFFFF then
              (* Copy new list of descriptors *)
              let count' := len d / sizeof_descriptor in
              assert (count' <=? COMBOOT_MAX_SHUFFLE_DESCRIPTORS) ;;
              shuf' <- copy_descriptors src_u (len d) count' ;;
              let i' := u32 (-1) in
              shuffle_loop fuel' shuf' count' (u32 (i' + 1))
            else
              (* Regular copy *)
              do_memmove_user dest_u 0 src_u 0 (len d) ;;
              shuffle_loop fuel' shuf count (u32 (i + 1))
        end
      else ret tt
  end.

Definition shuffle (fuel : nat) (list_segment list_offset count : Z)
    : M unit :=
  shuf <- copy_descriptors (real_to_user list_segment list_offset)
            (u32 (count * sizeof_descriptor)) count ;;
  shuffle_loop fuel shuf count 0.

(** [comboot_force_text_mode]. *)
Definition comboot_force_text_mode : M unit :=
  s <- get ;;
  (if negb (Z.land (comboot_graphics_mode s) COMBOOT_VIDEO_VESA =? 0) then
     (* Set VGA mode 3 via VESA VBE mode set *)
     int10 (Some 0x4F02) (Some 0x03)
   else if negb (Z.land (comboot_graphics_mode s) COMBOOT_VIDEO_GRAPHICS =? 0)
   then
     (* Set VGA mode 3 via standard VGA mode set *)
     int10 (Some 0x03) None
   else ret tt) ;;
  modify (with_graphics_mode 0).

(** [comboot_fetch_kernel], lines 166-196: the [initrd=] parameter.  The
    result is [inl] when the code leaves through [goto out] and [inr] when
    it falls through to the kernel; both carry [initrd] and the contents of
    the caller's [cmdline] array. *)
Definition fetch_initrd (cmdline : list Z)
    : M ((Z * option image * list Z) + (option image * list Z)) :=
  match strstr cmdline (bytes_of_string "initrd=") with
  | Some p =>
      (* skip "initrd=" *)
      let initrd_file := (p + 7)%nat in
      (* Find terminating space, if any, and replace with NUL *)
      let initrd_end := strchr cmdline initrd_file 32 in
      let cmdline1 := match initrd_end with
                      | Some e => poke cmdline e 0
                      | None => cmdline
                      end in
      (* Allocate and fetch initrd *)
      initrd <- alloc_image ;;
      match initrd with
      | None => ret (inl (- ENOMEM, initrd, cmdline1))
      | Some img =>
          rc <- imgfetch img (c_str_at cmdline1 initrd_file) ;;
          if negb (rc =? 0) then ret (inl (rc, initrd, cmdline1))
          else
            (* Restore space after initrd name, if applicable *)
            let cmdline2 := match initrd_end with
                            | Some e => poke cmdline1 e 32
                            | None => cmdline1
                            end in
            ret (inr (initrd, cmdline2))
      end
  | None => ret (inr (None, cmdline))
  end.

(** Lines 198-221: the kernel.  The result is [rc] and [kernel] as they are
    on arrival at the label [out], whether by [goto] or by falling
    through. *)
Definition fetch_kernel (kernel_file cmdline : list Z)
    : M (Z * option image) :=
  (* Allocate and fetch kernel *)
  kernel <- alloc_image ;;
  match kernel with
  | None => ret (- ENOMEM, kernel)
  | Some img =>
      rc <- imgfetch img (c_str kernel_file) ;;
      if negb (rc =? 0) then ret (rc, kernel)
      else
        rc <- image_set_cmdline img (c_str cmdline) ;;
        if negb (rc =? 0) then ret (rc, kernel)
        else
          (* Store kernel as replacement image *)
          s <- get ;;
          assert (match comboot_replacement_image s with
                  | None => true
                  | Some _ => false
                  end) ;;
          k <- image_get img ;;
          modify (with_replacement_image (Some k)) ;;
          ret (rc, kernel)
  end.

(** The label [out]: drop image references unconditionally. *)
Definition fetch_out (kernel initrd : option image) (rc : Z)
    (cmdline : list Z) : M (Z * list Z) :=
  image_put kernel ;;
  image_put initrd ;;
  ret (rc, cmdline).

(** [comboot_fetch_kernel ( kernel_file, cmdline )]: the return code, and
    the contents in which it leaves the caller's [cmdline] array. *)
Definition comboot_fetch_kernel (kernel_file cmdline : list Z)
    : M (Z * list Z) :=
  r <- fetch_initrd cmdline ;;
  match r with
  | inl (rc, initrd, cmdline') => fetch_out None initrd rc cmdline'
  | inr (initrd, cmdline') =>
      k <- fetch_kernel kernel_file cmdline' ;;
      fetch_out (snd k) initrd (fst k) cmdline'
  end.

(** [int20]: terminate program. *)
Definition int20 : M unit := longjmp COMBOOT_EXIT.

Definition set_carry : M unit :=
  update (fun r => set_flags (Z.lor (flags r) CF) r).
Definition clear_carry : M unit :=
  update (fun r => set_flags (Z.ldiff (flags r) CF) r).

(** [int21]: DOS-compatible API.  The [switch] on [ah] is a chain of
    comparisons in the order of its [case] labels. *)
Definition int21 (fuel : nat) : M unit :=
  set_carry ;;
  r <- regs_now ;;
  if (ah r =? 0x00) || (ah r =? 0x4C) then
    (* Terminate program *)
    longjmp COMBOOT_EXIT
  else if (ah r =? 0x01) || (ah r =? 0x08) then
    (* Get Key with Echo / Get Key without Echo *)
    c <- getchar ;;
    update (set_al c) ;;
    (* Enter *)
    r <- regs_now ;;
    when (al r =? 0x0A) (update (set_al 0x0D)) ;;
    r <- regs_now ;;
    when (ah r =? 0x01) (putchar (al r)) ;;
    clear_carry
  else if ah r =? 0x02 then
    (* Write Character *)
    putchar (dl r) ;;
    clear_carry
  else if ah r =? 0x04 then
    (* Write Character to Serial Port *)
    serial_putc (dl r) ;;
    clear_carry
  else if ah r =? 0x09 then
    (* Write DOS String to Console *)
    print_user_string fuel (ds (segs r)) (dx r) 36 ;;
    clear_carry
  else if ah r =? 0x0B then
    (* Check Keyboard *)
    k <- iskey ;;
    (if negb (k =? 0) then update (set_al 0xFF) else update (set_al 0x00)) ;;
    clear_carry
  else if ah r =? 0x30 then
    (* Check DOS Version *)
    update (set_eax 0x59530000) ;;
    update (set_ebx 0x4C530000) ;;
    update (set_ecx 0x4E490000) ;;
    update (set_edx 0x58550000) ;;
    clear_carry
  else
    ret tt.

(** [int22]: SYSLINUX API.  The [switch] on [ax] is a chain of comparisons
    in the order of its [case] labels. *)
Definition int22 (fuel : nat) : M unit :=
  set_carry ;;
  r <- regs_now ;;
  if ax r =? 0x0001 then
    (* Get Version *)
    update (set_ax 0x0018) ;;
    update (set_ch 0) ;;
    update (set_cl 0) ;;
    update (set_dl BZI_LOADER_TYPE_GPXE) ;;
    update (set_seg_es rm_ds) ;;
    update (set_si syslinux_version) ;;
    update (set_di syslinux_copyright) ;;
    clear_carry
  else if ax r =? 0x0002 then
    (* Write String *)
    print_user_string fuel (es (segs r)) (bx r) 0 ;;
    clear_carry
  else if ax r =? 0x0003 then
    (* Run command *)
    let cmd_u := real_to_user (es (segs r)) (bx r) in
    len <- do_strlen_user fuel cmd_u 0 ;;
    cmd <- copy_to_local (len + 1) cmd_u 0 (len + 1) ;;
    system (c_str cmd) ;;
    longjmp COMBOOT_EXIT_COMMAND
  else if ax r =? 0x0004 then
    (* Run default command *)
    longjmp COMBOOT_EXIT_COMMAND
  else if ax r =? 0x0005 then
    (* Force text mode *)
    comboot_force_text_mode ;;
    clear_carry
  else if ax r =? 0x0006 then
    (* Open file *)
    let file_u := real_to_user (es (segs r)) (si r) in
    len <- do_strlen_user fuel file_u 0 ;;
    file <- copy_to_local (len + 1) file_u 0 (len + 1) ;;
    if nth 0 file 0 =? 0 then ret tt
    else
      fd <- open (c_str file) ;;
      if fd <? 0 then ret tt
      else
        update (set_si fd) ;;
        update (set_cx COMBOOT_FILE_BLOCKSZ) ;;
        sz <- fsize fd ;;
        update (set_eax sz) ;;
        clear_carry
  else if ax r =? 0x0007 then
    (* Read file *)
    let fd := si r in
    let len := cx r * COMBOOT_FILE_BLOCKSZ in
    let buf := real_to_user (es (segs r)) (bx r) in
    (* Wait for data ready to read *)
    select fd ;;
    rc <- read_user fd buf 0 len ;;
    if rc <? 0 then update (set_si 0)
    else
      update (set_ecx rc) ;;
      clear_carry
  else if ax r =? 0x0008 then
    (* Close file *)
    close (si r) ;;
    clear_carry
  else if ax r =? 0x0009 then
    (* Call PXE Stack *)
    pxe_api_call ;;
    clear_carry
  else if ax r =? 0x000A then
    (* Get Derivative-Specific Information *)
    update (set_al BZI_LOADER_TYPE_GPXE) ;;
    clear_carry
  else if ax r =? 0x000B then
    (* Get Serial Console Configuration *)
    update (set_dx 0) ;;
    clear_carry
  else if ax r =? 0x000E then
    (* Get configuration file name *)
    update (set_seg_es rm_ds) ;;
    update (set_bx syslinux_configuration_file) ;;
    clear_carry
  else if ax r =? 0x000F then
    (* Get IPAPPEND strings *)
    update (set_cx 0) ;;
    update (set_seg_es 0) ;;
    update (set_bx 0) ;;
    clear_carry
  else if ax r =? 0x0010 then
    (* Resolve hostname *)
    let hostname_u := real_to_user (es (segs r)) (bx r) in
    len <- do_strlen_user fuel hostname_u 0 ;;
    hostname <- copy_to_local len hostname_u 0 (len + 1) ;;
    a <- comboot_resolv (c_str hostname) ;;
    update (set_eax (snd a)) ;;
    clear_carry
  else if ax r =? 0x0011 then
    (* Maximum number of shuffle descriptors *)
    update (set_cx COMBOOT_MAX_SHUFFLE_DESCRIPTORS) ;;
    clear_carry
  else if ax r =? 0x0012 then
    (* Cleanup, shuffle and boot *)
    if cx r >? COMBOOT_MAX_SHUFFLE_DESCRIPTORS then ret tt
    else
      (* Perform final cleanup *)
      shutdown SHUTDOWN_BOOT ;;
      (* Perform sequence of copies *)
      shuffle fuel (es (segs r)) (di r) (cx r) ;;
      (* Jump to real-mode entry point *)
      r <- regs_now ;;
      lret (mkEntry (ds (segs r)) (ebp (regs r)) (ebx (regs r))
              (esi (regs r))) ;;
      (* Execution should never reach this point *)
      assert false
  else if ax r =? 0x0013 then
    (* Idle loop call *)
    step ;;
    clear_carry
  else if ax r =? 0x0015 then
    (* Get feature flags *)
    update (set_seg_es rm_ds) ;;
    update (set_bx comboot_feature_flags) ;;
    update (set_cx 1) ;;
    clear_carry
  else if ax r =? 0x0016 then
    (* Run kernel image *)
    let file_u := real_to_user (ds (segs r)) (si r) in
    let cmd_u := real_to_user (es (segs r)) (bx r) in
    file_len <- do_strlen_user fuel file_u 0 ;;
    cmd_len <- do_strlen_user fuel cmd_u 0 ;;
    file <- copy_to_local (file_len + 1) file_u 0 (file_len + 1) ;;
    cmd <- copy_to_local (cmd_len + 1) cmd_u 0 (cmd_len + 1) ;;
    comboot_fetch_kernel file cmd ;;
    longjmp COMBOOT_EXIT_RUN_KERNEL
  else if ax r =? 0x0017 then
    (* Report video mode change *)
    modify (with_graphics_mode (bx r)) ;;
    clear_carry
  else if ax r =? 0x0018 then
    (* Query custom font *)
    update (set_al 0) ;;
    update (set_seg_es 0) ;;
    update (set_bx 0) ;;
    clear_carry
  else
    ret tt.

End Model.

Arguments Ok {W A} a s.
Arguments Exit {W A} code s.
Arguments Boot {W A} e s.
Arguments Fatal {W A} v s.
Arguments OutOfFuel {W A}.

(** ** Reading the shuffle engine's effect *)

(** What one copy or zero-fill descriptor does to the state: the memory
    write and its record in the trace. *)
Definition apply_descriptor {W : Type} (d : comboot_shuffle_descriptor)
    (s : state (W := W)) : state :=
  if src d =? 0xFFFFFFFF then
    with_world (world s) (EvMemset (dest d) (len d))
      (with_memory (memset_user (memory s) (dest d) 0 0 (len d)) s)
  else
    with_world (world s) (EvMemmove (dest d) (src d) (len d))
      (with_memory (memmove_user (memory s) (dest d) 0 (src d) 0 (len d)) s).

(** Processing a list of copy and zero-fill descriptors in order. *)
Definition apply_in_order {W : Type} (ds : list comboot_shuffle_descriptor)
    (s : state (W := W)) : state :=
  fold_left (fun s d => apply_descriptor d s) ds s.

(** A descriptor that the loop of [shuffle] takes as a new list. *)
Definition is_chain (d : comboot_shuffle_descriptor) : bool :=
  negb (src d =? 0xFFFFFFFF) && (dest d =? 0xFFFFFFFF).

(** The state in which a computation ended, when it ended in one. *)
Definition final_state {W A : Type} (r : result (W := W) A)
    : option state :=
  match r with
  | Ok _ s | Exit _ s | Boot _ s | Fatal _ s => Some s
  | OutOfFuel => None
  end.

(** The state a handler leaves when all it did was to set the carry flag. *)
Definition carry_set {Hd : Headers} {W : Type} (s : state (W := W)) : state :=
  with_ix86 (set_flags (Z.lor (flags (ix86 s)) CF) (ix86 s)) s.

(** The [case] labels of the [switch] in [int21] (on [ah]) and in [int22]
    (on [ax]). *)
Definition int21_functions : list Z :=
  [0x00; 0x4C; 0x01; 0x08; 0x02; 0x04; 0x09; 0x0B; 0x30].

Definition int22_functions : list Z :=
  [0x0001; 0x0002; 0x0003; 0x0004; 0x0005; 0x0006; 0x0007; 0x0008; 0x0009;
   0x000A; 0x000B; 0x000E; 0x000F; 0x0010; 0x0011; 0x0012; 0x0013; 0x0015;
   0x0016; 0x0017; 0x0018].

(** The state in which a computation ended, or [s] if it ran out of
    fuel. *)
Definition end_state {W A : Type} (s : state (W := W))
    (r : result (W := W) A) : state :=
  match final_state r with
  | Some s' => s'
  | None => s
  end.

(** The events a computation added to the trace of the state it started
    in. *)
Definition new_events {W A : Type} (s : state (W := W))
    (r : result (W := W) A) : option (list event) :=
  option_map (fun s' => skipn (length (trace s)) (trace s')) (final_state r).

(** An event that is not a failed step of an image fetch: a failed
    allocation, a failed [imgfetch] or a failed [image_set_cmdline]. *)
Definition event_ok (e : event) : bool :=
  match e with
  | EvAllocImage None => false
  | EvImgfetch _ _ rc => rc =? 0
  | EvImageSetCmdline _ _ rc => rc =? 0
  | _ => true
  end.

(** The three ways in which the kernel fetch can end, read off the state
    [s] it started in and its result [r]: a step failed and the replacement
    image is as before; every step succeeded, the replacement image was
    empty and now holds the kernel; every step succeeded but the replacement
    image was already set, which the assertion rejects. *)
Inductive fetch_outcome {W A : Type} (s : state (W := W))
    (r : result (W := W) A) : Prop :=
| fetch_failed (a : A) (s' : state) (evs : list event) :
    r = Ok a s' ->
    trace s' = trace s ++ evs ->
    comboot_replacement_image s' = comboot_replacement_image s ->
    forallb event_ok evs = false ->
    fetch_outcome s r
| fetch_stored (a : A) (s' : state) (evs : list event) (img : image) :
    r = Ok a s' ->
    trace s' = trace s ++ evs ->
    comboot_replacement_image s = None ->
    comboot_replacement_image s' = Some img ->
    forallb event_ok evs = true ->
    In (EvImageGet img) evs ->
    fetch_outcome s r
| fetch_refused (s' : state) (evs : list event) :
    r = Fatal AssertionFailed s' ->
    trace s' = trace s ++ evs ->
    comboot_replacement_image s <> None ->
    comboot_replacement_image s' = comboot_replacement_image s ->
    forallb event_ok evs = true ->
    fetch_outcome s r.

(** A computation that leaves the replacement image as it found it. *)
Definition frames {W A : Type} (m : M (W := W) A) : Prop :=
  forall s,
    match final_state (m s) with
    | Some s' => comboot_replacement_image s' = comboot_replacement_image s
    | None => True
    end.

(** ** Sessions *)

Inductive handler := Int20 | Int21 | Int22.

Definition run_handler {Hd : Headers} {W : Type} {Sv : Services W}
    (h : handler) (fuel : nat) : M (W := W) unit :=
  match h with
  | Int20 => int20
  | Int21 => int21 fuel
  | Int22 => int22 fuel
  end.

(** One step of a session: a handler runs from [s] and ends in [s'], or the
    code between two interrupts (the COMBOOT program, the loader starting
    another one) changes registers, memory and the world, none of which
    is the replacement image. *)
Definition session_step {Hd : Headers} {W : Type} {Sv : Services W}
    (s s' : state (W := W)) : Prop :=
  (exists h fuel, final_state (run_handler h fuel s) = Some s')
  \/ (comboot_replacement_image s' = comboot_replacement_image s
      /\ comboot_graphics_mode s' = comboot_graphics_mode s).

(** A session, as the list of the states it went through. *)
Fixpoint is_session {Hd : Headers} {W : Type} {Sv : Services W}
    (history : list (state (W := W))) : Prop :=
  match history with
  | s :: (s' :: _) as rest => session_step s s' /\ is_session rest
  | _ => True
  end.

(** How often a field went from empty to set along a history. *)
Fixpoint empty_to_set (field : list (option image)) : nat :=
  match field with
  | None :: (Some _ :: _) as rest => S (empty_to_set rest)
  | _ :: rest => empty_to_set rest
  | [] => 0
  end.

(** ** The command line of the Run Kernel Image example *)

(** A character array holding a string and its terminating NUL. *)
Definition c_array (s : string) : list Z := bytes_of_string s ++ [0].

Definition example_cmdline : string :=
  "console=ttyS0 initrd=boot/initrd.img root=/dev/ram".

(** The same array with the space after the initrd path replaced by NUL. *)
Definition example_cmdline_cut : list Z :=
  bytes_of_string "console=ttyS0 initrd=boot/initrd.img"
  ++ [0] ++ bytes_of_string "root=/dev/ram" ++ [0].

(** ** A sample configuration *)

(** The model is run on concrete inputs with the following header values,
    descriptor layout (destination, source, length; little-endian) and
    scripted services. *)
Module Sample.

Definition load32 (m : mem) (a : Z) : Z :=
  Z.lor (lo8 (m a))
    (Z.lor (Z.shiftl (lo8 (m (a + 1))) 8)
       (Z.lor (Z.shiftl (lo8 (m (a + 2))) 16)
          (Z.shiftl (lo8 (m (a + 3))) 24))).

Definition headers : Headers := {|
  CF := 1;
  COMBOOT_MAX_SHUFFLE_DESCRIPTORS := 682;
  sizeof_descriptor := 12;
  decode_descriptor := fun m a =>
    mkDescriptor (load32 m a) (load32 m (a + 4)) (load32 m (a + 8));
  sizeof_descriptor_pos := ltac:(reflexivity);
  max_descriptors_range := ltac:(split; [discriminate | reflexivity]);
  COMBOOT_FILE_BLOCKSZ := 512;
  COMBOOT_VIDEO_GRAPHICS := 0x01;
  COMBOOT_VIDEO_VESA := 0x04;
  COMBOOT_EXIT := 1;
  COMBOOT_EXIT_RUN_KERNEL := 2;
  COMBOOT_EXIT_COMMAND := 3;
  BZI_LOADER_TYPE_GPXE := 0xEB;
  SHUTDOWN_BOOT := 1;
  ENOMEM := 12;
  rm_ds := 0x9000;
  syslinux_version := 0x100;
  syslinux_copyright := 0x110;
  syslinux_configuration_file := 0x130;
  comboot_feature_flags := 0x131
|}.

(** The scripted world: pending console input, and whether image fetches
    succeed. *)
Record script := mkScript { keys : list Z; fetch_ok : bool }.

Definition services : Services script := {|
  getchar_svc := fun w =>
    match keys w with
    | [] => (0, w)
    | k :: ks => (k, mkScript ks (fetch_ok w))
    end;
  iskey_svc := fun w => (match keys w with [] => 0 | _ => 1 end, w);
  open_svc := fun _ w => (3, w);
  fsize_svc := fun _ w => (0, w);
  read_user_svc := fun _ _ w => ((0, []), w);
  pxe_api_call_svc := fun r m w => ((r, m), w);
  comboot_resolv_svc := fun _ w => ((0, 0x0100007F), w);
  alloc_image_svc := fun w => (Some 1, w);
  imgfetch_svc := fun _ _ m w => ((if fetch_ok w then 0 else -1, m), w);
  image_set_cmdline_svc := fun _ _ w => (0, w);
  system_svc := fun _ m w => (m, w);
  effect := fun _ w => w
|}.

Definition zero_regs : i386_all_regs :=
  mkAllRegs (mkSegs 0 0 0 0 0 0) (mkRegs 0 0 0 0 0 0 0 0) 0.

(** Memory that is zero everywhere. *)
Definition blank : mem := fun _ => 0.

(** A state with [eax], [ebx] and [ecx] given, the other registers zero, no
    graphics mode, no replacement image and an empty trace. *)
Definition start (eax_v ebx_v ecx_v : Z) (m : mem) (w : script) : state :=
  mkState (set_regs
             (with_ecx ecx_v (with_ebx ebx_v (with_eax eax_v (regs zero_regs))))
             zero_regs)
          0 None m w [].

Definition quiet : script := mkScript [] true.

(** A descriptor in memory: destination, source, length. *)
Definition le32 (x : Z) : list Z :=
  [lo8 x; lo8 (Z.shiftr x 8); lo8 (Z.shiftr x 16); lo8 (Z.shiftr x 24)].

Definition descriptor_bytes (d : comboot_shuffle_descriptor) : list Z :=
  le32 (dest d) ++ le32 (src d) ++ le32 (len d).

(** A one-entry list at 0050:0000 whose entry carries both sentinels; at
    the address its [src] names lies a copy descriptor. *)
Definition both_sentinels : comboot_shuffle_descriptor :=
  mkDescriptor 0xFFFFFFFF 0xFFFFFFFF 12.

Definition both_sentinels_memory : mem :=
  store_bytes
    (store_bytes blank 0x500 (descriptor_bytes both_sentinels))
    0xFFFFFFFF (descriptor_bytes (mkDescriptor 0x2000 0x1000 4)).

(** A two-entry list at 0050:0000, a copy and a chain to a two-entry list
    at 0x600, a zero-fill and a copy. *)
Definition chain_entry : comboot_shuffle_descriptor :=
  mkDescriptor 0xFFFFFFFF 0x600 24.

Definition chained_memory : mem :=
  store_bytes
    (store_bytes blank 0x500
       (descriptor_bytes (mkDescriptor 0x3000 0x1000 4)
        ++ descriptor_bytes chain_entry))
    0x600
    (descriptor_bytes (mkDescriptor 0x4000 0xFFFFFFFF 8)
     ++ descriptor_bytes (mkDescriptor 0x5000 0x3000 4)).

(** The kernel file name at 0000:0000 and the example command line at
    0000:0100. *)
Definition run_kernel_memory : mem :=
  store_bytes (store_bytes blank 0 (c_array "vmlinuz"))
    0x100 (c_array example_cmdline).

End Sample.

(** ** Further readings of a run *)

(** The state after a run of calls made for their effect only. *)
Definition tell_all {W : Type} {Sv : Services W} (evs : list event)
    (s : state (W := W)) : state :=
  fold_left (fun s e => with_world (effect e (world s)) e s) evs s.

(** The memory operation a copy or zero-fill descriptor stands for. *)
Definition descriptor_event (d : comboot_shuffle_descriptor) : event :=
  if src d =? 0xFFFFFFFF then EvMemset (dest d) (len d)
  else EvMemmove (dest d) (src d) (len d).

(** Memory holds, from address [a] on, the bytes [bs] followed by the byte
    [terminator], which does not occur in [bs]. *)
Definition string_at (m : mem) (a : Z) (bs : list Z) (terminator : Z)
    : Prop :=
  copy_from_user m a 0 (Z.of_nat (length bs)) = bs
  /\ forallb (fun b => negb (b =? terminator)) bs = true
  /\ m (a + Z.of_nat (length bs)) = terminator.

(** Memory holds, from address [a] on, the bytes [bs], none of which is
    the terminator when read into a [char], followed by a byte that is. *)
Definition chars_at (m : mem) (a : Z) (bs : list Z) (terminator : Z)
    : Prop :=
  copy_from_user m a 0 (Z.of_nat (length bs)) = bs
  /\ forallb (fun b => negb (as_char b =? terminator)) bs = true
  /\ as_char (m (a + Z.of_nat (length bs))) = terminator.

(** A memory operation of the shuffle engine. *)
Definition is_memory_op (e : event) : bool :=
  match e with
  | EvMemset _ _ | EvMemmove _ _ _ => true
  | _ => false
  end.

(** The images allocated, released and acquired in a run of events, in
    order. *)
Definition allocated (evs : list event) : list image :=
  flat_map (fun e => match e with
                     | EvAllocImage (Some i) => [i]
                     | _ => []
                     end) evs.

Definition released (evs : list event) : list image :=
  flat_map (fun e => match e with
                     | EvImagePut (Some i) => [i]
                     | _ => []
                     end) evs.

Definition acquired (evs : list event) : list image :=
  flat_map (fun e => match e with
                     | EvImageGet i => [i]
                     | _ => []
                     end) evs.

(** The names passed to [imgfetch] in a run of events, in order. *)
Definition fetched (evs : list event) : list (list Z) :=
  flat_map (fun e => match e with
                     | EvImgfetch _ name _ => [name]
                     | _ => []
                     end) evs.

(** The text of the [initrd=] parameter in a command line array: from just
    after "initrd=" at offset [p] to the next space, or to the end of the
    string when no space follows. *)
Definition initrd_token (cmdline : list Z) (p : nat) : list Z :=
  match strchr cmdline (p + 7) 32 with
  | Some e => firstn (e - (p + 7)) (skipn (p + 7) cmdline)
  | None => c_str_at cmdline (p + 7)
  end.

(** A computation that leaves a part [proj] of the state as it found
    it. *)
Definition keeps {W A B : Type} (proj : state (W := W) -> B)
    (m : M (W := W) A) : Prop :=
  forall s,
    match final_state (m s) with
    | Some s' => proj s' = proj s
    | None => True
    end.

(** What [int21] never touches: memory, the two globals, the segment
    registers and the index, base and stack registers. *)
Definition int21_frame {W : Type} (s : state (W := W)) :=
  (memory s, comboot_graphics_mode s, comboot_replacement_image s,
   segs (ix86 s),
   (edi (regs (ix86 s)), esi (regs (ix86 s)),
    ebp (regs (ix86 s)), esp (regs (ix86 s)))).

(** The selectors of [int22] under which memory is written, by the handler
    (Read File, Cleanup Shuffle and Boot) or by what it calls (Run Command,
    Call PXE Stack, Run Kernel Image), and those under which the graphics
    mode is assigned. *)
Definition int22_memory_writers : list Z :=
  [0x0003; 0x0007; 0x0009; 0x0012; 0x0016].
Definition int22_mode_writers : list Z := [0x0005; 0x0017].

(** What [int22] leaves alone under the other selectors. *)
Definition int22_frame {W : Type} (s : state (W := W)) :=
  (memory s, comboot_replacement_image s).

(** Further sample data. *)
Module More.

Import Sample.

(** A one-entry descriptor list at 0050:0000 that chains to itself. *)
Definition self_chain : comboot_shuffle_descriptor :=
  mkDescriptor 0xFFFFFFFF 0x500 12.

Definition self_chain_memory : mem :=
  store_bytes blank 0x500 (descriptor_bytes self_chain).

(** A two-entry list of a copy and a zero-fill at 0050:0000. *)
Definition plain_memory : mem :=
  store_bytes blank 0x500
    (descriptor_bytes (mkDescriptor 0x3000 0x1000 4)
     ++ descriptor_bytes (mkDescriptor 0x4000 0xFFFFFFFF 8)).

(** A command line without an [initrd=] parameter. *)
Definition plain_cmdline : string := "root=/dev/sda1 quiet".

(** Registers with [eax], [ebx], [ecx], [esi] and [es] given. *)
Definition regs_of (eax_v ebx_v ecx_v esi_v es_v : Z) : i386_all_regs :=
  mkAllRegs (mkSegs 0 0 0 es_v 0 0)
            (mkRegs 0 esi_v 0 0 ebx_v 0 ecx_v eax_v) 0.

(** A world in which [open] fails. *)
Definition no_files : Services script := {|
  getchar_svc := getchar_svc (Services := services);
  iskey_svc := iskey_svc (Services := services);
  open_svc := fun _ w => (-1, w);
  fsize_svc := fsize_svc (Services := services);
  read_user_svc := fun _ _ w => ((-1, []), w);
  pxe_api_call_svc := fun r m w => ((set_flags 0xFFFF r, m), w);
  comboot_resolv_svc := comboot_resolv_svc (Services := services);
  alloc_image_svc := alloc_image_svc (Services := services);
  imgfetch_svc := imgfetch_svc (Services := services);
  image_set_cmdline_svc := image_set_cmdline_svc (Services := services);
  system_svc := system_svc (Services := services);
  effect := effect (Services := services)
|}.

(** A world in which every image fetch succeeds and fills the whole of
    memory with the byte 58h. *)
Definition overwriting : Services script := {|
  getchar_svc := getchar_svc (Services := services);
  iskey_svc := iskey_svc (Services := services);
  open_svc := open_svc (Services := services);
  fsize_svc := fsize_svc (Services := services);
  read_user_svc := read_user_svc (Services := services);
  pxe_api_call_svc := pxe_api_call_svc (Services := services);
  comboot_resolv_svc := comboot_resolv_svc (Services := services);
  alloc_image_svc := alloc_image_svc (Services := services);
  imgfetch_svc := fun _ _ _ w => ((0, fun _ => 0x58), w);
  image_set_cmdline_svc := image_set_cmdline_svc (Services := services);
  system_svc := system_svc (Services := services);
  effect := effect (Services := services)
|}.

End More.

(** * Properties *)

(** ** Bytes and words of a register *)

Lemma testbit_0xFF (n : Z) : 0 <= n -> Z.testbit 0xFF n = (n <? 8).
Proof.
  intros Hn. change 0xFF with (Z.ones 8).
  apply Z.testbit_ones_nonneg; lia.
Qed.

Lemma lo8_set_lo8 (x v : Z) : lo8 (set_lo8 x v) = lo8 v.
Proof.
  unfold lo8, set_lo8. apply Z.bits_inj'. intros n Hn.
  rewrite !Z.land_spec, Z.lor_spec, Z.ldiff_spec, Z.land_spec.
  rewrite testbit_0xFF by assumption.
  destruct (n <? 8), (Z.testbit x n), (Z.testbit v n); reflexivity.
Qed.

Lemma hi8_set_lo8 (x v : Z) : hi8 (set_lo8 x v) = hi8 x.
Proof.
  unfold hi8, set_lo8. apply Z.bits_inj'. intros n Hn.
  rewrite !Z.land_spec, !Z.shiftr_spec by assumption.
  rewrite Z.lor_spec, Z.ldiff_spec, Z.land_spec.
  rewrite (testbit_0xFF (n + 8)) by lia.
  replace (n + 8 <? 8) with false by (symmetry; apply Z.ltb_ge; lia).
  rewrite andb_false_r, orb_false_r. cbn [negb]. now rewrite andb_true_r.
Qed.

Lemma carry_stays_set (f c : Z) : Z.land (Z.lor f c) c = c.
Proof.
  apply Z.bits_inj'. intros n _.
  rewrite Z.land_spec, Z.lor_spec.
  destruct (Z.testbit f n), (Z.testbit c n); reflexivity.
Qed.

Lemma al_set_al (v : Z) (r : i386_all_regs) : al (set_al v r) = lo8 v.
Proof. unfold al, set_al. cbn. apply lo8_set_lo8. Qed.

Lemma ah_set_al (v : Z) (r : i386_all_regs) : ah (set_al v r) = ah r.
Proof. unfold ah, set_al. cbn. apply hi8_set_lo8. Qed.

Lemma u32_small (x : Z) : 0 <= x < 2 ^ 32 -> u32 x = x.
Proof. intros Hx. unfold u32. now apply Z.mod_small. Qed.

Lemma u32_le (x : Z) : 0 <= x -> u32 x <= x.
Proof. intros Hx. unfold u32. apply Z.mod_le; [assumption | reflexivity]. Qed.

Section Properties.

Context {Hd : Headers} {W : Type} {Sv : Services W}.

Implicit Types (st : state (W := W)) (d : comboot_shuffle_descriptor).

(** ** The shuffle engine *)

Lemma shuffle_loop_unfold (fuel : nat) shuf count i st :
  shuffle_loop (S fuel) shuf count i st =
  if i <? count then
    match shuf_at shuf i with
    | None => Fatal BufferOverrun st
    | Some d =>
        if src d =? 0xFFFFFFFF then
          shuffle_loop fuel shuf count (u32 (i + 1))
            (with_world (world st) (EvMemset (dest d + 0) (len d))
               (with_memory (memset_user (memory st) (dest d) 0 0 (len d)) st))
        else if dest d =? 0xFFFFFFFF then
          bind (assert (len d / sizeof_descriptor
                        <=? COMBOOT_MAX_SHUFFLE_DESCRIPTORS))
            (fun _ =>
               bind (copy_descriptors (src d) (len d)
                       (len d / sizeof_descriptor))
                 (fun shuf' =>
                    shuffle_loop fuel shuf' (len d / sizeof_descriptor)
                      (u32 (u32 (-1) + 1)))) st
        else
          shuffle_loop fuel shuf count (u32 (i + 1))
            (with_world (world st) (EvMemmove (dest d + 0) (src d + 0) (len d))
               (with_memory
                  (memmove_user (memory st) (dest d) 0 (src d) 0 (len d)) st))
    end
  else Ok tt st.
Proof.
  cbn [shuffle_loop]. destruct (i <? count); [|reflexivity].
  destruct (shuf_at shuf i) as [d|]; [|reflexivity].
  destruct (src d =? 0xFFFFFFFF); [reflexivity|].
  destruct (dest d =? 0xFFFFFFFF); reflexivity.
Qed.

Lemma shuf_at_app (pre : list comboot_shuffle_descriptor) d tail :
  Z.of_nat (length pre) < COMBOOT_MAX_SHUFFLE_DESCRIPTORS ->
  shuf_at (pre ++ d :: tail) (Z.of_nat (length pre)) = Some d.
Proof.
  intros Hlt. unfold shuf_at.
  apply Z.ltb_lt in Hlt. rewrite Hlt, Nat2Z.id.
  rewrite nth_error_app2 by lia. now rewrite Nat.sub_diag.
Qed.

(** A descriptor that is not a chain is applied, and the loop moves on. *)
Lemma shuffle_loop_plain_step (fuel : nat) shuf count i d st :
  0 <= i < count -> count < 2 ^ 32 ->
  shuf_at shuf i = Some d -> is_chain d = false ->
  shuffle_loop (S fuel) shuf count i st =
  shuffle_loop fuel shuf count (i + 1) (apply_descriptor d st).
Proof.
  intros Hi Hc Hd' Hplain. rewrite shuffle_loop_unfold.
  replace (i <? count) with true by (symmetry; apply Z.ltb_lt; lia).
  rewrite Hd', u32_small by lia.
  unfold is_chain in Hplain. unfold apply_descriptor.
  rewrite !Z.add_0_r.
  destruct (src d =? 0xFFFFFFFF); [reflexivity|].
  cbn [negb andb] in Hplain. now rewrite Hplain.
Qed.

(** A run of copy and zero-fill descriptors is processed in list order. *)
Lemma shuffle_loop_plain_run (mid : list comboot_shuffle_descriptor) :
  forall pre tail (fuel : nat) count st,
    Z.of_nat (length pre + length mid) <= count ->
    count <= COMBOOT_MAX_SHUFFLE_DESCRIPTORS ->
    (forall d, In d mid -> is_chain d = false) ->
    shuffle_loop (length mid + fuel) (pre ++ mid ++ tail) count
      (Z.of_nat (length pre)) st =
    shuffle_loop fuel (pre ++ mid ++ tail) count
      (Z.of_nat (length pre + length mid)) (apply_in_order mid st).
Proof.
  pose proof max_descriptors_range as Hmax.
  induction mid as [|d mid IH]; intros pre tail fuel count st Hlen Hcount Hplain.
  - cbn. now rewrite Nat.add_0_r.
  - cbn [length] in *. cbn [Nat.add app].
    rewrite (shuffle_loop_plain_step _ _ _ _ d); try lia.
    + replace (pre ++ d :: mid ++ tail) with ((pre ++ [d]) ++ mid ++ tail)
        by (now rewrite <- app_assoc).
      replace (Z.of_nat (length pre) + 1) with (Z.of_nat (length (pre ++ [d])))
        by (rewrite length_app; cbn; lia).
      rewrite IH.
      * rewrite length_app. cbn [length apply_in_order fold_left].
        do 2 f_equal. lia.
      * rewrite length_app. cbn [length]. lia.
      * assumption.
      * intros d' Hin. apply Hplain. now right.
    + apply shuf_at_app. lia.
    + apply Hplain. now left.
Qed.

(** Past the last descriptor the loop ends. *)
Lemma shuffle_loop_done (fuel : nat) shuf count i st :
  count <= i -> shuffle_loop (S fuel) shuf count i st = Ok tt st.
Proof.
  intros Hge. rewrite shuffle_loop_unfold.
  now replace (i <? count) with false by (symmetry; apply Z.ltb_ge; lia).
Qed.

(** A chain descriptor whose list fits the array replaces the list and
    restarts the loop; the state is untouched. *)
Lemma shuffle_loop_chain_step (fuel : nat) shuf count i d st :
  i < count -> shuf_at shuf i = Some d -> is_chain d = true ->
  len d <= COMBOOT_MAX_SHUFFLE_DESCRIPTORS * sizeof_descriptor ->
  shuffle_loop (S fuel) shuf count i st =
  shuffle_loop fuel
    (load_descriptors (memory st) (src d) (len d / sizeof_descriptor))
    (len d / sizeof_descriptor) 0 st.
Proof.
  intros Hi Hd' Hchain Hfit. rewrite shuffle_loop_unfold.
  replace (i <? count) with true by (symmetry; apply Z.ltb_lt; lia).
  rewrite Hd'. unfold is_chain in Hchain.
  apply andb_true_iff in Hchain as [Hs Hdst].
  apply negb_true_iff in Hs. rewrite Hs, Hdst.
  pose proof sizeof_descriptor_pos as Hpos.
  assert (Hn : len d / sizeof_descriptor <= COMBOOT_MAX_SHUFFLE_DESCRIPTORS).
  { apply Z.div_le_upper_bound; lia. }
  unfold bind, assert, copy_descriptors.
  apply Z.leb_le in Hn. rewrite Hn. cbn [ret].
  apply Z.leb_le in Hfit. rewrite Hfit.
  reflexivity.
Qed.

(** A chain descriptor whose list does not fit the array stops the loop: on
    the assertion when it holds more than the maximum number of
    descriptors, on the copy when only its last, partial descriptor runs
    past the end. *)
Lemma shuffle_loop_chain_rejected (fuel : nat) shuf count i d st :
  i < count -> shuf_at shuf i = Some d -> is_chain d = true ->
  COMBOOT_MAX_SHUFFLE_DESCRIPTORS * sizeof_descriptor < len d ->
  exists v, shuffle_loop (S fuel) shuf count i st = Fatal v st.
Proof.
  intros Hi Hd' Hchain Hlong. rewrite shuffle_loop_unfold.
  replace (i <? count) with true by (symmetry; apply Z.ltb_lt; lia).
  rewrite Hd'. unfold is_chain in Hchain.
  apply andb_true_iff in Hchain as [Hs Hdst].
  apply negb_true_iff in Hs. rewrite Hs, Hdst.
  unfold bind, assert, copy_descriptors.
  destruct (len d / sizeof_descriptor <=? COMBOOT_MAX_SHUFFLE_DESCRIPTORS).
  - cbn [ret].
    replace (len d <=? COMBOOT_MAX_SHUFFLE_DESCRIPTORS * sizeof_descriptor)
      with false by (symmetry; apply Z.leb_gt; lia).
    now exists BufferOverrun.
  - now exists AssertionFailed.
Qed.

Lemma length_load_descriptors (m : mem) (from count : Z) :
  length (load_descriptors m from count) = Z.to_nat count.
Proof. unfold load_descriptors. now rewrite length_map, length_seq. Qed.


(** A list of copy and zero-fill descriptors, run from its start with
    enough fuel, is processed in order and the loop returns. *)
Lemma shuffle_loop_plain_list (fuel : nat) (m : mem) (from n : Z) st :
  n <= COMBOOT_MAX_SHUFFLE_DESCRIPTORS ->
  (forall d, In d (load_descriptors m from n) -> is_chain d = false) ->
  shuffle_loop (length (load_descriptors m from n) + S fuel)
    (load_descriptors m from n) n 0 st =
  Ok tt (apply_in_order (load_descriptors m from n) st).
Proof.
  intros Hn Hplain.
  pose proof (length_load_descriptors m from n) as Hlen.
  pose proof (shuffle_loop_plain_run (load_descriptors m from n) [] []
                (S fuel) n st) as Hrun.
  cbn [app length Nat.add Z.of_nat] in Hrun. rewrite app_nil_r in Hrun.
  destruct (Z.le_gt_cases 0 n) as [Hnn|Hneg].
  - rewrite Hrun; try assumption; [|lia].
    apply shuffle_loop_done. lia.
  - destruct (load_descriptors m from n); [|cbn in Hlen; lia].
    cbn [length Nat.add]. apply shuffle_loop_done. lia.
Qed.

(** C1 (amended): a descriptor whose [src] is the zero-fill sentinel and
    whose [dest] is the chain sentinel is taken as a zero-fill descriptor,
    because [src] is tested first: [len] bytes are zeroed at [dest], the
    descriptor list and its count are kept, and the loop goes on to the next
    index. *)
Theorem both_sentinels_zero_fill (fuel : nat) shuf count i d st :
  i < count ->
  shuf_at shuf i = Some d ->
  src d = 0xFFFFFFFF ->
  dest d = 0xFFFFFFFF ->
  shuffle_loop (S fuel) shuf count i st =
  shuffle_loop fuel shuf count (u32 (i + 1))
    (with_world (world st) (EvMemset 0xFFFFFFFF (len d))
       (with_memory (memset_user (memory st) 0xFFFFFFFF 0 0 (len d)) st)).
Proof.
  intros Hi Hd' Hsrc Hdest. rewrite shuffle_loop_unfold.
  apply Z.ltb_lt in Hi. rewrite Hi, Hd', Hsrc, Hdest. reflexivity.
Qed.


(** ** The interrupt handlers *)

Lemma copy_to_local_fits (capacity src off n : Z) st :
  n <= capacity ->
  copy_to_local capacity src off n st =
  Ok (copy_from_user (memory st) src off n) st.
Proof.
  intros Hle. unfold copy_to_local. apply Z.leb_le in Hle. now rewrite Hle.
Qed.

Lemma copy_to_local_overrun (capacity src off n : Z) st :
  capacity < n ->
  copy_to_local capacity src off n st = Fatal BufferOverrun st.
Proof.
  intros Hlt. unfold copy_to_local.
  now replace (n <=? capacity) with false by (symmetry; apply Z.leb_gt; lia).
Qed.

Lemma copy_from_user_one (m : mem) (src : Z) :
  copy_from_user m src 0 1 = [m src].
Proof.
  unfold copy_from_user. change (Z.to_nat 1) with 1%nat.
  cbn [seq map Z.of_nat]. now rewrite !Z.add_0_r.
Qed.

Lemma strlen_user_nul (fuel : nat) (m : mem) (str : Z) :
  m str = 0 -> strlen_user (S fuel) m str 0 = Some 0.
Proof. intros Hnul. cbn. now rewrite Z.add_0_r, Hnul. Qed.

Lemma bind_ok {A B : Type} (m : M A) (k : A -> M B) st a st' :
  m st = Ok a st' -> bind m k st = k a st'.
Proof. intros Hm. unfold bind. now rewrite Hm. Qed.

Lemma new_events_none {A : Type} (a : A) st st' :
  trace st' = trace st -> new_events st (Ok a st') = Some [].
Proof.
  intros Htr. unfold new_events, final_state, option_map.
  now rewrite Htr, skipn_all.
Qed.

Lemma new_events_app {A : Type} (a : A) st st' (evs : list event) :
  trace st' = trace st ++ evs -> new_events st (Ok a st') = Some evs.
Proof.
  intros Htr. unfold new_events, final_state, option_map.
  rewrite Htr, skipn_app, skipn_all, Nat.sub_diag. reflexivity.
Qed.

Lemma carry_set_flag st : Z.land (flags (ix86 (carry_set st))) CF = CF.
Proof. apply carry_stays_set. Qed.

(** The first two steps of a handler: set the carry flag, read the
    selector. *)
Ltac enter_handler st :=
  unfold int21, int22;
  unfold bind at 1; unfold set_carry at 1, update at 1; cbv beta iota;
  unfold bind at 1; unfold regs_now at 1; cbv beta iota;
  fold (carry_set st);
  change (ax (ix86 (carry_set st))) with (ax (ix86 st));
  change (ah (ix86 (carry_set st))) with (ah (ix86 st)).

(** A [case] label that the selector [sel] does not match. *)
Ltac skip_case sel Hnot :=
  match goal with
  | |- context [sel =? ?k] =>
      let E := fresh "E" in
      destruct (Z.eqb_spec sel k) as [E|_];
      [exfalso; apply Hnot; rewrite E; cbn; tauto|]
  end.

(** C3: a Cleanup, Shuffle and Boot request whose descriptor count [cx]
    exceeds [COMBOOT_MAX_SHUFFLE_DESCRIPTORS] returns to the caller with the
    carry flag set; nothing is added to the trace (no shutdown, no memory
    operation of the shuffle engine), control is not transferred to the
    entry point, and apart from the carry flag the registers, memory and
    session state are as on entry. *)
Theorem int22_too_many_descriptors (fuel : nat) st :
  ax (ix86 st) = 0x0012 ->
  cx (ix86 st) > COMBOOT_MAX_SHUFFLE_DESCRIPTORS ->
  int22 fuel st = Ok tt (carry_set st)
  /\ Z.land (flags (ix86 (carry_set st))) CF = CF
  /\ new_events st (int22 fuel st) = Some [].
Proof.
  intros Hax Hcx.
  assert (Hrun : int22 fuel st = Ok tt (carry_set st)).
  { enter_handler st. rewrite Hax. cbn [Z.eqb Pos.eqb].
    change (cx (ix86 (carry_set st))) with (cx (ix86 st)).
    now replace (cx (ix86 st) >? COMBOOT_MAX_SHUFFLE_DESCRIPTORS) with true
      by (symmetry; apply Z.gtb_lt; lia). }
  rewrite Hrun. split; [reflexivity|]. split; [apply carry_set_flag|].
  now apply new_events_none.
Qed.

(** C7: a selector outside the [case] labels of [int21], or of [int22],
    makes the handler return with the carry flag set and nothing else
    changed: registers, segment registers, memory, session state, world and
    trace are as on entry. *)
Theorem unknown_function_sets_carry_only (fuel : nat) st :
  (~ In (ah (ix86 st)) int21_functions ->
   int21 fuel st = Ok tt (carry_set st))
  /\ (~ In (ax (ix86 st)) int22_functions ->
      int22 fuel st = Ok tt (carry_set st))
  /\ Z.land (flags (ix86 (carry_set st))) CF = CF.
Proof.
  split; [|split; [|apply carry_set_flag]]; intros Hnot.
  - enter_handler st. repeat skip_case (ah (ix86 st)) Hnot. reflexivity.
  - enter_handler st. repeat skip_case (ax (ix86 st)) Hnot. reflexivity.
Qed.

(** C10: an Open File call whose path string is empty (its first byte is
    NUL) returns with the carry flag set; [open] is not called (nothing is
    added to the trace), so no file descriptor is allocated, and [si], [cx]
    and [eax] keep their values, as does everything else but the carry
    flag. *)
Theorem int22_open_empty_name (fuel : nat) st :
  ax (ix86 st) = 0x0006 ->
  memory st (real_to_user (es (segs (ix86 st))) (si (ix86 st))) = 0 ->
  int22 (S fuel) st = Ok tt (carry_set st)
  /\ Z.land (flags (ix86 (carry_set st))) CF = CF
  /\ new_events st (int22 (S fuel) st) = Some [].
Proof.
  intros Hax Hnul.
  assert (Hrun : int22 (S fuel) st = Ok tt (carry_set st)).
  { enter_handler st. rewrite Hax. cbn [Z.eqb Pos.eqb].
    change (si (ix86 (carry_set st))) with (si (ix86 st)).
    change (segs (ix86 (carry_set st))) with (segs (ix86 st)).
    erewrite bind_ok.
    2:{ unfold do_strlen_user. change (memory (carry_set st)) with (memory st).
        now rewrite (strlen_user_nul _ _ _ Hnul). }
    erewrite bind_ok by (apply copy_to_local_fits; lia).
    change (memory (carry_set st)) with (memory st).
    change (0 + 1) with 1. rewrite copy_from_user_one.
    cbn [nth]. now rewrite Hnul. }
  rewrite Hrun. split; [reflexivity|]. split; [apply carry_set_flag|].
  now apply new_events_none.
Qed.

Lemma carry_cleared (f c : Z) : Z.land (Z.ldiff f c) c = 0.
Proof.
  apply Z.bits_inj'. intros n _.
  rewrite Z.land_spec, Z.ldiff_spec, Z.bits_0.
  destruct (Z.testbit f n), (Z.testbit c n); reflexivity.
Qed.

(** C8: when [getchar] yields the line-feed byte, Get Key (with or without
    echo) returns, with the carry flag clear and [al] equal to the
    carriage-return byte; with echo ([ah] = 01h) the one character written
    to the console is that carriage return, without echo nothing is
    written. *)
Theorem get_key_line_feed (fuel : nat) st (c : Z) (w' : W) :
  ah (ix86 st) = 0x01 \/ ah (ix86 st) = 0x08 ->
  getchar_svc (world st) = (c, w') ->
  lo8 c = 0x0A ->
  exists st',
    int21 fuel st = Ok tt st'
    /\ al (ix86 st') = 0x0D
    /\ Z.land (flags (ix86 st')) CF = 0
    /\ new_events st (int21 fuel st) =
       Some (EvGetchar c ::
             if ah (ix86 st) =? 0x01 then [EvPutchar 0x0D] else []).
Proof.
  intros Hah Hget Hlf.
  assert (Hrun : exists st',
    int21 fuel st = Ok tt st'
    /\ al (ix86 st') = 0x0D
    /\ Z.land (flags (ix86 st')) CF = 0
    /\ trace st' = trace st ++ EvGetchar c ::
         if ah (ix86 st) =? 0x01 then [EvPutchar 0x0D] else []).
  { enter_handler st.
    assert (Hsel : ((ah (ix86 st) =? 0) || (ah (ix86 st) =? 76) = false)
                   /\ ((ah (ix86 st) =? 1) || (ah (ix86 st) =? 8) = true)).
    { destruct Hah as [-> | ->]; split; reflexivity. }
    destruct Hsel as [-> ->].
    unfold bind at 1. unfold getchar at 1, ask.
    change (world (carry_set st)) with (world st). rewrite Hget.
    unfold bind at 1. unfold update at 1.
    unfold bind at 1. unfold regs_now at 1.
    cbn [ix86 with_ix86 with_world].
    rewrite al_set_al, Hlf. cbn [Z.eqb Pos.eqb when].
    unfold bind at 1. unfold update at 1.
    unfold bind at 1. unfold regs_now at 1.
    cbn [ix86 with_ix86 with_world].
    rewrite al_set_al, !ah_set_al.
    change (ah (ix86 (carry_set st))) with (ah (ix86 st)).
    change (lo8 13) with 13.
    destruct Hah as [-> | ->]; cbn [Z.eqb Pos.eqb when].
    - unfold bind at 1. unfold putchar, tell, clear_carry, update.
      eexists. split; [reflexivity|].
      cbn [ix86 with_ix86 with_world flags set_flags trace carry_set].
      split; [apply al_set_al|]. split; [apply carry_cleared|].
      now rewrite <- app_assoc.
    - unfold bind at 1. unfold ret, clear_carry, update.
      eexists. split; [reflexivity|].
      cbn [ix86 with_ix86 with_world flags set_flags trace carry_set].
      split; [apply al_set_al|]. split; [apply carry_cleared|].
      reflexivity. }
  destruct Hrun as (st' & Hrun & Hal & Hcf & Htr).
  exists st'. rewrite Hrun. repeat split; try assumption.
  now apply new_events_app.
Qed.

(** C9 (defect of the code): in Resolve Hostname the local array
    [hostname] has [len] elements and the copy into it has [len + 1]: for
    every hostname the copy writes index [len], one past the end of the
    array, and the handler ends in a buffer overrun. *)
Theorem int22_resolve_overrun (fuel : nat) st (n : Z) :
  ax (ix86 st) = 0x0010 ->
  strlen_user fuel (memory st)
    (real_to_user (es (segs (ix86 st))) (bx (ix86 st))) 0 = Some n ->
  int22 fuel st = Fatal BufferOverrun (carry_set st).
Proof.
  intros Hax Hlen. enter_handler st. rewrite Hax. cbn [Z.eqb Pos.eqb].
  change (bx (ix86 (carry_set st))) with (bx (ix86 st)).
  change (segs (ix86 (carry_set st))) with (segs (ix86 st)).
  erewrite bind_ok.
  2:{ unfold do_strlen_user. change (memory (carry_set st)) with (memory st).
      now rewrite Hlen. }
  unfold bind. now rewrite copy_to_local_overrun by lia.
Qed.

(** *** The kernel and initrd fetch *)

(** The [initrd=] block always returns; it leaves the replacement image
    alone, and leaves through [goto out] exactly when a step failed. *)
Lemma fetch_initrd_spec (cmdline : list Z) st :
  exists r st' evs,
    fetch_initrd cmdline st = Ok r st'
    /\ trace st' = trace st ++ evs
    /\ comboot_replacement_image st' = comboot_replacement_image st
    /\ forallb event_ok evs = match r with inl _ => false | inr _ => true end.
Proof.
  unfold fetch_initrd.
  destruct (strstr cmdline (bytes_of_string "initrd=")) as [p|].
  - unfold bind, alloc_image, ask.
    destruct (alloc_image_svc (world st)) as [[img|] w1].
    + unfold imgfetch. cbn [world memory with_world].
      match goal with
      | |- context [imgfetch_svc ?i ?n ?m ?w] =>
          set (name := n); destruct (imgfetch_svc i name m w) as [[rc m2] w2]
      end.
      destruct (rc =? 0) eqn:Hrc; cbn [negb ret].
      * do 2 eexists. exists [EvAllocImage (Some img); EvImgfetch img name rc].
        split; [reflexivity|]. cbn [trace with_world with_memory].
        rewrite <- app_assoc. repeat split. cbn. now rewrite Hrc.
      * do 2 eexists. exists [EvAllocImage (Some img); EvImgfetch img name rc].
        split; [reflexivity|]. cbn [trace with_world with_memory].
        rewrite <- app_assoc. repeat split. cbn. now rewrite Hrc.
    + do 2 eexists. exists [EvAllocImage None].
      split; [reflexivity|]. repeat split.
  - do 2 eexists. exists []. split; [reflexivity|].
    rewrite app_nil_r. repeat split.
Qed.

Lemma fetch_kernel_spec (kernel_file cmdline : list Z) st :
  fetch_outcome st (fetch_kernel kernel_file cmdline st).
Proof.
  unfold fetch_kernel. unfold bind at 1. unfold alloc_image, ask.
  destruct (alloc_image_svc (world st)) as [[img|] w1].
  2:{ eapply fetch_failed with (evs := [EvAllocImage None]);
        reflexivity. }
  unfold bind at 1. unfold imgfetch. cbn [world memory with_world].
  destruct (imgfetch_svc img (c_str kernel_file) _ w1) as [[rc m2] w2].
  destruct (rc =? 0) eqn:Hrc; cbn [negb].
  2:{ eapply fetch_failed
        with (evs := [EvAllocImage (Some img);
                      EvImgfetch img (c_str kernel_file) rc]);
        try reflexivity.
      - cbn [trace with_world with_memory]. now rewrite <- app_assoc.
      - cbn. now rewrite Hrc. }
  unfold bind at 1. unfold image_set_cmdline, ask. cbn [world with_world].
  destruct (image_set_cmdline_svc img (c_str cmdline) w2) as [rc' w3].
  destruct (rc' =? 0) eqn:Hrc'; cbn [negb].
  2:{ eapply fetch_failed
        with (evs := [EvAllocImage (Some img);
                      EvImgfetch img (c_str kernel_file) rc;
                      EvImageSetCmdline img (c_str cmdline) rc']);
        try reflexivity.
      - cbn [trace with_world with_memory]. now rewrite <- !app_assoc.
      - cbn. now rewrite Hrc, Hrc'. }
  unfold bind at 1. unfold get. cbv beta iota.
  cbn [comboot_replacement_image with_world with_memory].
  destruct (comboot_replacement_image st) as [k|] eqn:Himg;
    unfold bind, assert, fatal, ret, image_get, tell, modify.
  - eapply fetch_refused
      with (evs := [EvAllocImage (Some img);
                    EvImgfetch img (c_str kernel_file) rc;
                    EvImageSetCmdline img (c_str cmdline) rc']).
    + reflexivity.
    + cbn [trace with_world with_memory]. now rewrite <- !app_assoc.
    + congruence.
    + cbn [comboot_replacement_image with_world with_memory]. reflexivity.
    + cbn. now rewrite Hrc, Hrc'.
  - eapply fetch_stored
      with (img := img)
           (evs := [EvAllocImage (Some img);
                    EvImgfetch img (c_str kernel_file) rc;
                    EvImageSetCmdline img (c_str cmdline) rc';
                    EvImageGet img]).
    + reflexivity.
    + cbn [trace with_world with_memory with_replacement_image].
      now rewrite <- !app_assoc.
    + assumption.
    + reflexivity.
    + cbn. now rewrite Hrc, Hrc'.
    + cbn. tauto.
Qed.

Lemma fetch_out_spec (kernel initrd : option image) (rc : Z)
    (cmdline : list Z) st :
  exists st',
    fetch_out kernel initrd rc cmdline st = Ok (rc, cmdline) st'
    /\ trace st' = trace st ++ [EvImagePut kernel; EvImagePut initrd]
    /\ comboot_replacement_image st' = comboot_replacement_image st.
Proof.
  unfold fetch_out, bind, image_put, tell, ret. eexists.
  split; [reflexivity|]. cbn [trace with_world with_memory comboot_replacement_image].
  rewrite <- app_assoc. split; reflexivity.
Qed.

(** [comboot_fetch_kernel] ends in one of the three ways. *)
Lemma comboot_fetch_kernel_spec (kernel_file cmdline : list Z) st :
  fetch_outcome st (comboot_fetch_kernel kernel_file cmdline st).
Proof.
  unfold comboot_fetch_kernel.
  destruct (fetch_initrd_spec cmdline st)
    as (r & s1 & evs1 & Hr & Htr1 & Himg1 & Hok1).
  rewrite (bind_ok _ _ _ _ _ Hr).
  destruct r as [[[rc initrd] buf] | [initrd buf]].
  - destruct (fetch_out_spec None initrd rc buf s1) as (s2 & Hout & Htr2 & Himg2).
    eapply fetch_failed with (evs := evs1 ++ [EvImagePut None; EvImagePut initrd]).
    + exact Hout.
    + now rewrite Htr2, Htr1, <- app_assoc.
    + congruence.
    + now rewrite forallb_app, Hok1.
  - destruct (fetch_kernel_spec kernel_file buf s1)
      as [a s2 evs2 Hk Htr2 Himg2 Hok2
         | a s2 evs2 img Hk Htr2 Hnone Himg2 Hok2 Hin
         | s2 evs2 Hk Htr2 Hsome Himg2 Hok2].
    + rewrite (bind_ok _ _ _ _ _ Hk).
      destruct (fetch_out_spec (snd a) initrd (fst a) buf s2)
        as (s3 & Hout & Htr3 & Himg3).
      eapply fetch_failed
        with (evs := evs1 ++ evs2 ++ [EvImagePut (snd a); EvImagePut initrd]).
      * exact Hout.
      * now rewrite Htr3, Htr2, Htr1, <- !app_assoc.
      * congruence.
      * rewrite !forallb_app, Hok2. now rewrite andb_false_r.
    + rewrite (bind_ok _ _ _ _ _ Hk).
      destruct (fetch_out_spec (snd a) initrd (fst a) buf s2)
        as (s3 & Hout & Htr3 & Himg3).
      eapply fetch_stored
        with (img := img)
             (evs := evs1 ++ evs2 ++ [EvImagePut (snd a); EvImagePut initrd]).
      * exact Hout.
      * now rewrite Htr3, Htr2, Htr1, <- !app_assoc.
      * congruence.
      * congruence.
      * rewrite !forallb_app, Hok1, Hok2. reflexivity.
      * apply in_or_app. right. apply in_or_app. now left.
    + eapply fetch_refused with (evs := evs1 ++ evs2).
      * unfold bind. now rewrite Hk.
      * now rewrite Htr2, Htr1, <- app_assoc.
      * congruence.
      * congruence.
      * now rewrite forallb_app, Hok1, Hok2.
Qed.

(** With no replacement image set, [comboot_fetch_kernel] returns. *)
Lemma comboot_fetch_kernel_returns (kernel_file cmdline : list Z) st :
  comboot_replacement_image st = None ->
  exists a st', comboot_fetch_kernel kernel_file cmdline st = Ok a st'.
Proof.
  intros Hnone.
  destruct (comboot_fetch_kernel_spec kernel_file cmdline st)
    as [a s' ? Hk | a s' ? ? Hk | s' ? Hk ? Hsome]; eauto.
  contradiction.
Qed.

(** A computation whose continuation does not return does not return. *)
Lemma bind_not_ok {A B : Type} (m : M A) (k : A -> M B) st (b : B) st' :
  (forall a s, k a s <> Ok b st') -> bind m k st <> Ok b st'.
Proof.
  intros Hk. unfold bind. destruct (m st); try discriminate. apply Hk.
Qed.

(** C4 (amended): Run Kernel Image never returns to its caller.  Whenever
    [comboot_fetch_kernel] returns - with a zero or a non-zero code - the
    handler leaves through [longjmp ( comboot_return,
    COMBOOT_EXIT_RUN_KERNEL )] in the state the fetch left, so the caller
    cannot tell a failed load from a successful one.  Once the two strings
    are measured there is one other end only: with a replacement image
    already set and no step of the fetch failing, the assertion in
    [comboot_fetch_kernel] fails and the handler stops there, the
    replacement image as it was, without reaching the [longjmp].  With no
    replacement image set beforehand the handler always leaves through the
    [longjmp], whatever the image services answer. *)
Theorem run_kernel_exits_unless_refused (fuel : nat) st :
  ax (ix86 st) = 0x0016 ->
  (forall st', int22 fuel st <> Ok tt st')
  /\ (forall file_len cmd_len rc buf st',
        let file_u := real_to_user (ds (segs (ix86 st))) (si (ix86 st)) in
        let cmd_u := real_to_user (es (segs (ix86 st))) (bx (ix86 st)) in
        strlen_user fuel (memory st) file_u 0 = Some file_len ->
        strlen_user fuel (memory st) cmd_u 0 = Some cmd_len ->
        comboot_fetch_kernel
          (copy_from_user (memory st) file_u 0 (file_len + 1))
          (copy_from_user (memory st) cmd_u 0 (cmd_len + 1))
          (carry_set st) = Ok (rc, buf) st' ->
        int22 fuel st = Exit COMBOOT_EXIT_RUN_KERNEL st')
  /\ (forall file_len cmd_len,
        strlen_user fuel (memory st)
          (real_to_user (ds (segs (ix86 st))) (si (ix86 st))) 0
        = Some file_len ->
        strlen_user fuel (memory st)
          (real_to_user (es (segs (ix86 st))) (bx (ix86 st))) 0
        = Some cmd_len ->
        (exists st', int22 fuel st = Exit COMBOOT_EXIT_RUN_KERNEL st')
        \/ (exists st' evs,
              int22 fuel st = Fatal AssertionFailed st'
              /\ comboot_replacement_image st <> None
              /\ comboot_replacement_image st' = comboot_replacement_image st
              /\ trace st' = trace st ++ evs
              /\ forallb event_ok evs = true))
  /\ (forall file_len cmd_len,
        strlen_user fuel (memory st)
          (real_to_user (ds (segs (ix86 st))) (si (ix86 st))) 0
        = Some file_len ->
        strlen_user fuel (memory st)
          (real_to_user (es (segs (ix86 st))) (bx (ix86 st))) 0
        = Some cmd_len ->
        comboot_replacement_image st = None ->
        exists st', int22 fuel st = Exit COMBOOT_EXIT_RUN_KERNEL st').
Proof.
  intros Hax.
  assert (Hrun : forall file_len cmd_len,
    let file_u := real_to_user (ds (segs (ix86 st))) (si (ix86 st)) in
    let cmd_u := real_to_user (es (segs (ix86 st))) (bx (ix86 st)) in
    strlen_user fuel (memory st) file_u 0 = Some file_len ->
    strlen_user fuel (memory st) cmd_u 0 = Some cmd_len ->
    int22 fuel st =
    bind (comboot_fetch_kernel
            (copy_from_user (memory st) file_u 0 (file_len + 1))
            (copy_from_user (memory st) cmd_u 0 (cmd_len + 1)))
      (fun _ => longjmp COMBOOT_EXIT_RUN_KERNEL) (carry_set st)).
  { intros file_len cmd_len file_u cmd_u Hfile Hcmd.
    enter_handler st. rewrite Hax. cbn [Z.eqb Pos.eqb].
    change (bx (ix86 (carry_set st))) with (bx (ix86 st)).
    change (si (ix86 (carry_set st))) with (si (ix86 st)).
    change (segs (ix86 (carry_set st))) with (segs (ix86 st)).
    fold file_u cmd_u.
    erewrite bind_ok.
    2:{ unfold do_strlen_user. change (memory (carry_set st)) with (memory st).
        now rewrite Hfile. }
    erewrite bind_ok.
    2:{ unfold do_strlen_user. change (memory (carry_set st)) with (memory st).
        now rewrite Hcmd. }
    erewrite bind_ok by (apply copy_to_local_fits; lia).
    erewrite bind_ok by (apply copy_to_local_fits; lia).
    reflexivity. }
  assert (Hexit : forall file_len cmd_len rc buf st',
    let file_u := real_to_user (ds (segs (ix86 st))) (si (ix86 st)) in
    let cmd_u := real_to_user (es (segs (ix86 st))) (bx (ix86 st)) in
    strlen_user fuel (memory st) file_u 0 = Some file_len ->
    strlen_user fuel (memory st) cmd_u 0 = Some cmd_len ->
    comboot_fetch_kernel
      (copy_from_user (memory st) file_u 0 (file_len + 1))
      (copy_from_user (memory st) cmd_u 0 (cmd_len + 1))
      (carry_set st) = Ok (rc, buf) st' ->
    int22 fuel st = Exit COMBOOT_EXIT_RUN_KERNEL st').
  { intros file_len cmd_len rc buf st' file_u cmd_u Hfile Hcmd Hfetch.
    rewrite (Hrun file_len cmd_len Hfile Hcmd).
    fold file_u cmd_u. now rewrite (bind_ok _ _ _ _ _ Hfetch). }
  split; [|split; [exact Hexit|split]].
  - intros st'. enter_handler st. rewrite Hax. cbn [Z.eqb Pos.eqb].
    repeat (apply bind_not_ok; intros). unfold longjmp. discriminate.
  - intros file_len cmd_len Hfile Hcmd.
    match type of (Hrun file_len cmd_len Hfile Hcmd) with
    | _ = bind (comboot_fetch_kernel ?f ?c) _ _ =>
        destruct (comboot_fetch_kernel_spec f c (carry_set st))
          as [[rc buf] s' evs Hk _ _ _
             | [rc buf] s' evs img Hk _ _ _ _ _
             | s' evs Hk Htr Hsome Himg Hok]
    end.
    + left. exists s'. eapply Hexit; eassumption.
    + left. exists s'. eapply Hexit; eassumption.
    + right. exists s', evs.
      rewrite (Hrun file_len cmd_len Hfile Hcmd). unfold bind. rewrite Hk.
      repeat split; assumption.
  - intros file_len cmd_len Hfile Hcmd Hnone.
    edestruct comboot_fetch_kernel_returns as ([rc buf] & st' & Hk);
      [|exists st'; eapply Hexit; eassumption].
    exact Hnone.
Qed.

(** *** What leaves the replacement image alone *)

Lemma frames_bind {A B : Type} (m : M (W := W) A) (k : A -> M (W := W) B) :
  frames m -> (forall a, frames (k a)) -> frames (bind m k).
Proof.
  intros Hm Hk s. specialize (Hm s). unfold bind.
  destruct (m s) as [a s'| | | |]; cbn in *; try assumption.
  specialize (Hk a s'). destruct (k a s'); cbn in *; congruence.
Qed.

Lemma frames_ret {A : Type} (a : A) : frames (W := W) (ret a).
Proof. intros s. reflexivity. Qed.

Lemma frames_get : frames (W := W) get.
Proof. intros s. reflexivity. Qed.

Lemma frames_regs_now : frames (W := W) regs_now.
Proof. intros s. reflexivity. Qed.

Lemma frames_update (f : i386_all_regs -> i386_all_regs) : frames (W := W) (update f).
Proof. intros s. reflexivity. Qed.

Lemma frames_graphics_mode (g : Z) : frames (W := W) (modify (with_graphics_mode g)).
Proof. intros s. reflexivity. Qed.

Lemma frames_longjmp (code : Z) : frames (W := W) (longjmp code).
Proof. intros s. reflexivity. Qed.

Lemma frames_lret (e : real_mode_entry) : frames (W := W) (lret e).
Proof. intros s. reflexivity. Qed.

Lemma frames_fatal {A : Type} (v : violation) : frames (W := W) (fatal (A := A) v).
Proof. intros s. reflexivity. Qed.

Lemma frames_out_of_fuel {A : Type} : frames (W := W) (out_of_fuel (A := A)).
Proof. intros s. exact I. Qed.

Lemma frames_assert (b : bool) : frames (W := W) (assert b).
Proof. destruct b; intros s; reflexivity. Qed.

Lemma frames_when (b : bool) (m : M (W := W) unit) : frames m -> frames (when b m).
Proof. destruct b; [trivial | intros _; apply frames_ret]. Qed.

Lemma frames_ask {A : Type} (f : W -> A * W) (ev : A -> event) :
  frames (ask f ev).
Proof. intros s. unfold ask. destruct (f (world s)). reflexivity. Qed.

Lemma frames_tell (e : event) : frames (tell e).
Proof. intros s. reflexivity. Qed.

Lemma frames_system (cmd : list Z) : frames (system cmd).
Proof.
  intros s. unfold system.
  destruct (system_svc cmd (memory s) (world s)) as [m w]. reflexivity.
Qed.

Lemma frames_read_user (fd buf off n : Z) : frames (read_user fd buf off n).
Proof.
  unfold read_user. apply frames_bind; [apply frames_ask|]. intros r.
  apply frames_bind; [|intros _; apply frames_ret]. intros s. reflexivity.
Qed.

Lemma frames_pxe_api_call : frames pxe_api_call.
Proof.
  intros s. unfold pxe_api_call.
  destruct (pxe_api_call_svc (ix86 s) (memory s) (world s)) as [[r m] w].
  reflexivity.
Qed.

Lemma frames_do_memset_user (d off c n : Z) : frames (W := W) (do_memset_user d off c n).
Proof. intros s. reflexivity. Qed.

Lemma frames_do_memmove_user (d d_off sr s_off n : Z) :
  frames (W := W) (do_memmove_user d d_off sr s_off n).
Proof. intros s. reflexivity. Qed.

Lemma frames_copy_to_local (capacity from off n : Z) :
  frames (W := W) (copy_to_local capacity from off n).
Proof.
  intros s. unfold copy_to_local. destruct (n <=? capacity); reflexivity.
Qed.

Lemma frames_do_strlen_user (fuel : nat) (str off : Z) :
  frames (W := W) (do_strlen_user fuel str off).
Proof.
  intros s. unfold do_strlen_user.
  destruct (strlen_user fuel (memory s) str off); [reflexivity | exact I].
Qed.

Lemma frames_copy_descriptors (from nbytes count : Z) :
  frames (W := W) (copy_descriptors from nbytes count).
Proof.
  intros s. unfold copy_descriptors.
  destruct (nbytes <=? _); reflexivity.
Qed.

Create HintDb frames.

#[local] Hint Resolve frames_ret frames_get frames_regs_now frames_update
  frames_graphics_mode frames_longjmp frames_lret frames_fatal
  frames_out_of_fuel frames_assert frames_ask frames_tell frames_system
  frames_read_user
  frames_pxe_api_call frames_do_memset_user frames_do_memmove_user
  frames_copy_to_local frames_do_strlen_user frames_copy_descriptors
  : frames.

(** Splitting a computation along its binds and branches. *)
Ltac frames_step :=
  first
    [ apply frames_bind; [|intro]
    | apply frames_when
    | match goal with
      | |- frames (if ?b then _ else _) => destruct b
      | |- frames (match ?x with _ => _ end) => destruct x
      end
    | solve [auto with frames] ].

Lemma frames_print_user_string_loop (fuel : nat) :
  forall str terminator i,
    frames (print_user_string_loop fuel str terminator i).
Proof.
  induction fuel as [|fuel IH]; intros str terminator i; cbn [print_user_string_loop].
  - auto with frames.
  - unfold putchar. repeat frames_step.
Qed.

Lemma frames_shuffle_loop (fuel : nat) :
  forall shuf count i, frames (W := W) (shuffle_loop fuel shuf count i).
Proof.
  induction fuel as [|fuel IH]; intros shuf count i; cbn [shuffle_loop].
  - auto with frames.
  - repeat frames_step.
Qed.

#[local] Hint Resolve frames_print_user_string_loop frames_shuffle_loop
  : frames.

Lemma frames_int20 : frames (W := W) int20.
Proof. unfold int20. auto with frames. Qed.

Lemma frames_int21 (fuel : nat) : frames (int21 fuel).
Proof.
  unfold int21, set_carry, clear_carry, getchar, putchar, serial_putc, iskey,
    print_user_string.
  repeat frames_step.
Qed.

(** [int22] leaves the replacement image alone for every selector but Run
    Kernel Image. *)
Lemma frames_int22 (fuel : nat) st :
  ax (ix86 st) <> 0x0016 ->
  match final_state (int22 fuel st) with
  | Some st' => comboot_replacement_image st' = comboot_replacement_image st
  | None => True
  end.
Proof.
  intros Hax. enter_handler st.
  destruct (Z.eqb_spec (ax (ix86 st)) 0x0016) as [|_]; [contradiction|].
  change (comboot_replacement_image st)
    with (comboot_replacement_image (carry_set st)).
  remember (ix86 (carry_set st)) as r eqn:Hr. clear Hr.
  generalize (carry_set st) as s. intros s.
  match goal with
  | |- match final_state (?m s) with _ => _ end =>
      revert s; change (frames m)
  end.
  unfold set_carry, clear_carry, print_user_string, open, fsize,
    select, close, shutdown, step, comboot_resolv, shuffle,
    comboot_force_text_mode, int10.
  repeat frames_step.
Qed.

(** *** Run Kernel Image and the replacement image *)

(** The ways in which Run Kernel Image can end, beside running out of
    fuel while measuring its two strings. *)
Lemma int22_run_kernel_spec (fuel : nat) st :
  ax (ix86 st) = 0x0016 ->
  int22 fuel st = OutOfFuel
  \/ (exists st' evs,
        int22 fuel st = Exit COMBOOT_EXIT_RUN_KERNEL st'
        /\ trace st' = trace st ++ evs
        /\ comboot_replacement_image st' = comboot_replacement_image st
        /\ forallb event_ok evs = false)
  \/ (exists st' evs img,
        int22 fuel st = Exit COMBOOT_EXIT_RUN_KERNEL st'
        /\ trace st' = trace st ++ evs
        /\ comboot_replacement_image st = None
        /\ comboot_replacement_image st' = Some img
        /\ forallb event_ok evs = true
        /\ In (EvImageGet img) evs)
  \/ (exists st' evs,
        int22 fuel st = Fatal AssertionFailed st'
        /\ trace st' = trace st ++ evs
        /\ comboot_replacement_image st <> None
        /\ comboot_replacement_image st' = comboot_replacement_image st
        /\ forallb event_ok evs = true).
Proof.
  intros Hax. generalize (eq_refl (int22 fuel st)).
  generalize (int22 fuel st) at 2 3 4 5 6 as r. intros r.
  enter_handler st. rewrite Hax. cbn [Z.eqb Pos.eqb].
  unfold bind at 1. unfold do_strlen_user at 1.
  destruct (strlen_user fuel (memory (carry_set st)) _ 0) as [file_len|];
    [|intros <-; now left].
  unfold bind at 1. unfold do_strlen_user at 1.
  destruct (strlen_user fuel (memory (carry_set st)) _ 0) as [cmd_len|];
    [|intros <-; now left].
  erewrite bind_ok by (apply copy_to_local_fits; lia).
  erewrite bind_ok by (apply copy_to_local_fits; lia).
  match goal with
  | |- context [comboot_fetch_kernel ?f ?c] =>
      destruct (comboot_fetch_kernel_spec f c (carry_set st))
        as [a s' evs Hk Htr Himg Hok
           | a s' evs img Hk Htr Hnone Himg Hok Hin
           | s' evs Hk Htr Hsome Himg Hok]
  end.
  - rewrite (bind_ok _ _ _ _ _ Hk). intros <-.
    right. left. exists s', evs. repeat split; assumption.
  - rewrite (bind_ok _ _ _ _ _ Hk). intros <-.
    right. right. left. exists s', evs, img. repeat split; assumption.
  - unfold bind. rewrite Hk. intros <-.
    right. right. right. exists s', evs. repeat split; assumption.
Qed.

Lemma skipn_trace_app (t evs : list event) : skipn (length t) (t ++ evs) = evs.
Proof. now rewrite skipn_app, skipn_all, Nat.sub_diag. Qed.

(** Once set, the replacement image is kept by every handler. *)
Lemma handler_keeps_replacement_image (h : handler) (fuel : nat) st st'
    (k : image) :
  comboot_replacement_image st = Some k ->
  final_state (run_handler h fuel st) = Some st' ->
  comboot_replacement_image st' = Some k.
Proof.
  intros Hset Hrun. destruct h; cbn [run_handler] in Hrun.
  - pose proof (frames_int20 st) as Hf. rewrite Hrun in Hf. congruence.
  - pose proof (frames_int21 fuel st) as Hf. rewrite Hrun in Hf. congruence.
  - destruct (Z.eq_dec (ax (ix86 st)) 0x0016) as [Hax|Hax].
    + destruct (int22_run_kernel_spec fuel st Hax)
        as [Hr | [(s' & evs & Hr & _ & Himg & _)
           | [(s' & evs & img & Hr & _ & Hnone & _)
           | (s' & evs & Hr & _ & _ & Himg & _)]]];
        rewrite Hr in Hrun; cbn in Hrun; congruence.
    + pose proof (frames_int22 fuel st Hax) as Hf. rewrite Hrun in Hf.
      congruence.
Qed.

Lemma session_step_keeps (s s' : state) (k : image) :
  session_step s s' ->
  comboot_replacement_image s = Some k ->
  comboot_replacement_image s' = Some k.
Proof.
  intros [(h & fuel & Hrun) | [Hsame _]] Hset.
  - eapply handler_keeps_replacement_image; eassumption.
  - congruence.
Qed.

Lemma session_set_stays (history : list state) :
  forall s k,
    is_session (s :: history) ->
    comboot_replacement_image s = Some k ->
    empty_to_set (map comboot_replacement_image (s :: history)) = 0%nat.
Proof.
  induction history as [|s' history IH]; intros s k Hsess Hset.
  - cbn. now rewrite Hset.
  - destruct Hsess as [Hstep Hrest].
    pose proof (session_step_keeps _ _ _ Hstep Hset) as Hset'.
    specialize (IH s' k Hrest Hset').
    cbn [map] in *. rewrite Hset. cbn [empty_to_set]. exact IH.
Qed.

Lemma session_once (history : list state) :
  is_session history ->
  (empty_to_set (map comboot_replacement_image history) <= 1)%nat.
Proof.
  induction history as [|s history IH]; intros Hsess; [cbn; lia|].
  destruct (comboot_replacement_image s) as [k|] eqn:Hs.
  - rewrite (session_set_stays history s k Hsess Hs). lia.
  - destruct history as [|s' history]; [cbn; rewrite Hs; cbn; lia|].
    destruct Hsess as [Hstep Hrest].
    cbn [map]. rewrite Hs.
    destruct (comboot_replacement_image s') as [k'|] eqn:Hs'.
    + pose proof (session_set_stays history s' k' Hrest Hs') as H0.
      cbn [map] in H0. rewrite Hs' in H0.
      cbn [empty_to_set] in H0 |- *. lia.
    + specialize (IH Hrest). cbn [map] in IH. rewrite Hs' in IH.
      cbn [empty_to_set] in IH |- *. exact IH.
Qed.

Lemma new_events_of_trace {A : Type} (r : result A) st st' (evs : list event) :
  final_state r = Some st' ->
  trace st' = trace st ++ evs ->
  new_events st r = Some evs.
Proof.
  intros Hfin Htr. unfold new_events. rewrite Hfin. cbn [option_map].
  now rewrite Htr, skipn_trace_app.
Qed.

(** C6: along a session the replacement image goes from empty to set at
    most once.  A handler changes it only when it is Run Kernel Image, the
    field was empty and no step of the fetch failed; and when the field is
    already set and no step of the fetch fails, Run Kernel Image stops on
    the failed assertion with the field as it was, instead of overwriting
    it. *)
Theorem replacement_image_set_once :
  (forall history : list (state (W := W)),
     is_session history ->
     (empty_to_set (map comboot_replacement_image history) <= 1)%nat)
  /\ (forall (h : handler) (fuel : nat) st st',
        final_state (run_handler h fuel st) = Some st' ->
        comboot_replacement_image st' <> comboot_replacement_image st ->
        h = Int22
        /\ ax (ix86 st) = 0x0016
        /\ comboot_replacement_image st = None
        /\ exists evs,
             new_events st (run_handler h fuel st) = Some evs
             /\ forallb event_ok evs = true)
  /\ (forall (fuel : nat) st st' (evs : list event),
        comboot_replacement_image st <> None ->
        ax (ix86 st) = 0x0016 ->
        final_state (int22 fuel st) = Some st' ->
        new_events st (int22 fuel st) = Some evs ->
        forallb event_ok evs = true ->
        int22 fuel st = Fatal AssertionFailed st'
        /\ comboot_replacement_image st' = comboot_replacement_image st).
Proof.
  split; [exact session_once|]. split.
  - intros h fuel st st' Hrun Hchanged.
    destruct h; cbn [run_handler] in *.
    + pose proof (frames_int20 st) as Hf. rewrite Hrun in Hf. contradiction.
    + pose proof (frames_int21 fuel st) as Hf. rewrite Hrun in Hf.
      contradiction.
    + destruct (Z.eq_dec (ax (ix86 st)) 0x0016) as [Hax|Hax].
      2:{ pose proof (frames_int22 fuel st Hax) as Hf. rewrite Hrun in Hf.
          contradiction. }
      destruct (int22_run_kernel_spec fuel st Hax)
        as [Hr | [(s' & evs & Hr & Htr & Himg & Hok)
           | [(s' & evs & img & Hr & Htr & Hnone & Himg & Hok & Hin)
           | (s' & evs & Hr & Htr & Hsome & Himg & Hok)]]];
        rewrite Hr in Hrun; cbn [final_state] in Hrun;
        try discriminate; injection Hrun as <-; try contradiction.
      repeat split; try assumption. exists evs. split; [|assumption].
      rewrite Hr. now apply (new_events_of_trace _ st s').
  - intros fuel st st' evs Hset Hax Hrun Hnew Hok.
    destruct (int22_run_kernel_spec fuel st Hax)
      as [Hr | [(s' & evs' & Hr & Htr & Himg & Hok')
         | [(s' & evs' & img & Hr & Htr & Hnone & Himg & Hok' & Hin)
         | (s' & evs' & Hr & Htr & Hsome & Himg & Hok')]]];
      rewrite Hr in Hrun, Hnew |- *; cbn [final_state] in Hrun;
      try discriminate; injection Hrun as <-; try contradiction.
    + rewrite (new_events_of_trace
                 (Exit (A := unit) COMBOOT_EXIT_RUN_KERNEL s') st s' evs'
                 eq_refl Htr) in Hnew.
      congruence.
    + split; [reflexivity | assumption].
Qed.

(** *** The command line of Run Kernel Image *)

Lemma example_strstr :
  strstr (c_array example_cmdline) (bytes_of_string "initrd=") = Some 14%nat.
Proof. vm_compute. reflexivity. Qed.

Lemma example_strchr : strchr (c_array example_cmdline) 21 32 = Some 36%nat.
Proof. vm_compute. reflexivity. Qed.

Lemma example_cut :
  poke (c_array example_cmdline) 36 0 = example_cmdline_cut.
Proof. vm_compute. reflexivity. Qed.

Lemma example_initrd_file :
  c_str_at example_cmdline_cut 21 = bytes_of_string "boot/initrd.img".
Proof. vm_compute. reflexivity. Qed.

Lemma example_restored :
  poke example_cmdline_cut 36 32 = c_array example_cmdline.
Proof. vm_compute. reflexivity. Qed.

Lemma example_c_str :
  c_str (c_array example_cmdline) = bytes_of_string example_cmdline.
Proof. vm_compute. reflexivity. Qed.

(** The [initrd=] block on the example command line. *)
Lemma fetch_initrd_example st :
  fetch_initrd (c_array example_cmdline) st =
  let (initrd, w1) := alloc_image_svc (world st) in
  let s1 := with_world w1 (EvAllocImage initrd) st in
  match initrd with
  | None => Ok (inl (- ENOMEM, None, example_cmdline_cut)) s1
  | Some img =>
      let '(rc, m2, w2) :=
        imgfetch_svc img (bytes_of_string "boot/initrd.img") (memory st) w1 in
      let s2 :=
        with_world w2
          (EvImgfetch img (bytes_of_string "boot/initrd.img") rc)
          (with_memory m2 s1) in
      if rc =? 0 then Ok (inr (Some img, c_array example_cmdline)) s2
      else Ok (inl (rc, Some img, example_cmdline_cut)) s2
  end.
Proof.
  unfold fetch_initrd. rewrite example_strstr. cbv zeta.
  change (14 + 7)%nat with 21%nat.
  rewrite example_strchr, example_cut, example_initrd_file, example_restored.
  unfold bind, alloc_image, ask.
  destruct (alloc_image_svc (world st)) as [[img|] w1]; [|reflexivity].
  unfold imgfetch. cbn [world memory with_world].
  destruct (imgfetch_svc img (bytes_of_string "boot/initrd.img") _ w1)
    as [[rc m2] w2].
  destruct (rc =? 0); reflexivity.
Qed.

(** Writing NUL over a character and then the character again gives the
    array back. *)
Lemma poke_restore (buf : list Z) :
  forall (e : nat) (c : Z),
    nth_error buf e = Some c -> poke (poke buf e 0) e c = buf.
Proof.
  induction buf as [|b buf IH]; intros [|e] c Hnth; cbn in *;
    try discriminate.
  - now injection Hnth as ->.
  - f_equal. now apply IH.
Qed.

Lemma c_str_nth (l : list Z) :
  forall (k : nat) (c : Z),
    nth_error (c_str l) k = Some c -> nth_error l k = Some c.
Proof.
  induction l as [|b l IH]; intros k c Hnth; cbn in Hnth.
  - destruct k; discriminate.
  - destruct (b =? 0); [destruct k; discriminate|].
    destruct k as [|k]; cbn in *; [assumption | now apply IH].
Qed.

Lemma strchr_from_nth (s : list Z) (c : Z) :
  forall p e : nat,
    strchr_from s c p = Some e ->
    exists k : nat, e = (p + k)%nat /\ nth_error s k = Some c.
Proof.
  induction s as [|b s IH]; intros p e Hfind; cbn in Hfind; [discriminate|].
  destruct (Z.eqb_spec b c) as [->|_].
  - injection Hfind as <-. exists 0%nat. split; [lia | reflexivity].
  - destruct (IH _ _ Hfind) as (k & -> & Hk).
    exists (S k). split; [lia | exact Hk].
Qed.

(** [strchr] finds the character it was asked for. *)
Lemma strchr_nth (buf : list Z) (p : nat) (c : Z) (e : nat) :
  strchr buf p c = Some e -> nth_error buf e = Some c.
Proof.
  unfold strchr, c_str_at. intros Hfind.
  destruct (strchr_from_nth _ _ _ _ Hfind) as (k & -> & Hk).
  apply c_str_nth in Hk. now rewrite nth_error_skipn in Hk.
Qed.

(** Whatever the command line, when the [initrd=] block falls through to
    the kernel the array holds the command line it was given. *)
Lemma fetch_initrd_restores (cmdline : list Z) st initrd buf st' :
  fetch_initrd cmdline st = Ok (inr (initrd, buf)) st' -> buf = cmdline.
Proof.
  unfold fetch_initrd.
  destruct (strstr cmdline (bytes_of_string "initrd=")) as [p|];
    [|unfold ret; congruence].
  unfold bind, alloc_image, ask.
  destruct (alloc_image_svc (world st)) as [[img|] w1];
    [|unfold ret; discriminate].
  unfold imgfetch. cbn [world memory with_world].
  match goal with
  | |- context [imgfetch_svc ?i ?n ?m ?w] =>
      destruct (imgfetch_svc i n m w) as [[rc m2] w2]
  end.
  destruct (rc =? 0); cbn [negb]; unfold ret; [|discriminate].
  intros [= _ <- _].
  destruct (strchr cmdline (p + 7) 32) as [e|] eqn:Hend; [|reflexivity].
  apply poke_restore. eapply strchr_nth. exact Hend.
Qed.

(** What the kernel block passes to [imgfetch] and [image_set_cmdline]. *)
Lemma fetch_kernel_events (kernel_file cmdline : list Z) st st' :
  final_state (fetch_kernel kernel_file cmdline st) = Some st' ->
  exists evs,
    trace st' = trace st ++ evs
    /\ (forall img c rc,
          In (EvImageSetCmdline img c rc) evs -> c = c_str cmdline)
    /\ (forall img n rc,
          In (EvImgfetch img n rc) evs -> n = c_str kernel_file).
Proof.
  unfold fetch_kernel. unfold bind at 1. unfold alloc_image, ask.
  destruct (alloc_image_svc (world st)) as [[img|] w1].
  2:{ intros [= <-]. exists [EvAllocImage None].
      split; [reflexivity|]. split; intros ? ? ? [Hin|[]]; discriminate. }
  unfold bind at 1. unfold imgfetch. cbn [world memory with_world].
  destruct (imgfetch_svc img (c_str kernel_file) _ w1) as [[rc m2] w2].
  destruct (rc =? 0); cbn [negb].
  2:{ intros [= <-].
      exists [EvAllocImage (Some img); EvImgfetch img (c_str kernel_file) rc].
      split; [cbn [trace with_world with_memory]; now rewrite <- app_assoc|].
      split; intros ? ? ? Hin; cbn in Hin; intuition congruence. }
  unfold bind at 1. unfold image_set_cmdline, ask. cbn [world with_world].
  destruct (image_set_cmdline_svc img (c_str cmdline) w2) as [rc' w3].
  destruct (rc' =? 0); cbn [negb].
  2:{ intros [= <-].
      exists [EvAllocImage (Some img); EvImgfetch img (c_str kernel_file) rc;
              EvImageSetCmdline img (c_str cmdline) rc'].
      split; [cbn [trace with_world with_memory]; now rewrite <- !app_assoc|].
      split; intros ? ? ? Hin; cbn in Hin; intuition congruence. }
  unfold bind at 1. unfold get. cbv beta iota.
  cbn [comboot_replacement_image with_world with_memory].
  destruct (comboot_replacement_image st) as [k|];
    unfold bind, assert, fatal, ret, image_get, tell, modify;
    intros [= <-].
  - exists [EvAllocImage (Some img); EvImgfetch img (c_str kernel_file) rc;
            EvImageSetCmdline img (c_str cmdline) rc'].
    split; [cbn [trace with_world with_memory]; now rewrite <- !app_assoc|].
    split; intros ? ? ? Hin; cbn in Hin; intuition congruence.
  - exists [EvAllocImage (Some img); EvImgfetch img (c_str kernel_file) rc;
            EvImageSetCmdline img (c_str cmdline) rc'; EvImageGet img].
    split; [cbn [trace with_world with_memory with_replacement_image];
            now rewrite <- !app_assoc|].
    split; intros ? ? ? Hin; cbn in Hin; intuition congruence.
Qed.

(** C5: on the command line
    "console=ttyS0 initrd=boot/initrd.img root=/dev/ram" the initrd block
    allocates an image and fetches exactly "boot/initrd.img"; when that
    succeeds the array again holds the original command line, space
    included, and it is this array that the kernel block works on; whatever
    the services answer, every [image_set_cmdline] is passed the original
    command line, and every [imgfetch] the initrd path or the kernel file
    name. *)
Theorem run_kernel_example_cmdline (kernel_file : list Z) st :
  let cmd := c_array example_cmdline in
  fetch_initrd cmd st =
    (let (initrd, w1) := alloc_image_svc (world st) in
     let s1 := with_world w1 (EvAllocImage initrd) st in
     match initrd with
     | None => Ok (inl (- ENOMEM, None, example_cmdline_cut)) s1
     | Some img =>
         let '(rc, m2, w2) :=
           imgfetch_svc img (bytes_of_string "boot/initrd.img")
             (memory st) w1 in
         let s2 :=
           with_world w2
             (EvImgfetch img (bytes_of_string "boot/initrd.img") rc)
             (with_memory m2 s1) in
         if rc =? 0 then Ok (inr (Some img, cmd)) s2
         else Ok (inl (rc, Some img, example_cmdline_cut)) s2
     end)
  /\ (forall initrd buf s1,
        fetch_initrd cmd st = Ok (inr (initrd, buf)) s1 ->
        buf = cmd
        /\ comboot_fetch_kernel kernel_file cmd st =
           bind (fetch_kernel kernel_file cmd)
             (fun k => fetch_out (snd k) initrd (fst k) cmd) s1)
  /\ (forall st',
        final_state (comboot_fetch_kernel kernel_file cmd st) = Some st' ->
        exists evs,
          trace st' = trace st ++ evs
          /\ (forall img c rc,
                In (EvImageSetCmdline img c rc) evs ->
                c = bytes_of_string example_cmdline)
          /\ (forall img n rc,
                In (EvImgfetch img n rc) evs ->
                n = bytes_of_string "boot/initrd.img"
                \/ n = c_str kernel_file)).
Proof.
  cbv zeta. set (cmd := c_array example_cmdline). split; [apply fetch_initrd_example|]. split.
  - intros initrd buf s1 Hinit.
    assert (Hbuf : buf = cmd).
    { unfold cmd in Hinit. rewrite fetch_initrd_example in Hinit. fold cmd in Hinit.
      destruct (alloc_image_svc (world st)) as [[img|] w1];
        [|discriminate].
      destruct (imgfetch_svc img _ _ w1) as [[rc m2] w2].
      destruct (rc =? 0); [|discriminate]. now injection Hinit as _ <- _. }
    split; [assumption|]. subst buf.
    unfold comboot_fetch_kernel. now rewrite (bind_ok _ _ _ _ _ Hinit).
  - intros st'. unfold comboot_fetch_kernel. unfold bind at 1.
    unfold cmd at 1. rewrite fetch_initrd_example. fold cmd.
    destruct (alloc_image_svc (world st)) as [[img|] w1].
    2:{ unfold fetch_out, bind, image_put, tell, ret. intros [= <-].
        exists [EvAllocImage None; EvImagePut None; EvImagePut None].
        split; [cbn [trace with_world with_memory]; now rewrite <- !app_assoc|].
        split; intros ? ? ? Hin; cbn [In] in Hin; intuition congruence. }
    destruct (imgfetch_svc img _ _ w1) as [[rc m2] w2].
    destruct (rc =? 0).
    2:{ unfold fetch_out, bind, image_put, tell, ret. intros [= <-].
        exists [EvAllocImage (Some img);
                EvImgfetch img (bytes_of_string "boot/initrd.img") rc;
                EvImagePut None; EvImagePut (Some img)].
        split; [cbn [trace with_world with_memory]; now rewrite <- !app_assoc|].
        split; intros ? ? ? Hin; cbn [In] in Hin; [intuition congruence|].
        left. intuition congruence. }
    cbv zeta.
    set (s2 := with_world w2 _ (with_memory m2 (with_world w1 _ st))).
    assert (Hs2 : trace s2 = trace st ++
                  [EvAllocImage (Some img);
                   EvImgfetch img (bytes_of_string "boot/initrd.img") rc]).
    { unfold s2. cbn [trace with_world with_memory]. now rewrite <- app_assoc. }
    pose proof (fetch_kernel_events kernel_file cmd s2) as Hk.
    unfold bind at 1.
    destruct (fetch_kernel kernel_file cmd s2) as [k s3|c s3|e3 s3|v s3|];
      cbn [final_state] in Hk; [| | | |discriminate].
    2-4: (intros [= <-];
          destruct (Hk s3 eq_refl) as (evs & Htr & Hcmd & Hfetch);
          exists ([EvAllocImage (Some img);
                   EvImgfetch img (bytes_of_string "boot/initrd.img") rc]
                  ++ evs);
          (split; [now rewrite Htr, Hs2, <- !app_assoc|]);
          split; intros i x r Hin;
            apply in_app_or in Hin; destruct Hin as [Hin|Hin];
            cbn [In] in Hin;
            [ intuition congruence
            | rewrite (Hcmd _ _ _ Hin); apply example_c_str
            | left; intuition congruence
            | right; eapply Hfetch; eassumption ]).
    destruct (Hk s3 eq_refl) as (evs & Htr & Hcmd & Hfetch).
    destruct (fetch_out_spec (snd k) (Some img) (fst k) cmd s3)
      as (s4 & Hout & Htr4 & _).
    rewrite Hout. intros [= <-].
    exists ([EvAllocImage (Some img);
             EvImgfetch img (bytes_of_string "boot/initrd.img") rc]
            ++ evs ++ [EvImagePut (snd k); EvImagePut (Some img)]).
    split; [now rewrite Htr4, Htr, Hs2, <- !app_assoc|].
    split; intros i x r Hin;
      repeat (apply in_app_or in Hin; destruct Hin as [Hin|Hin]);
      cbn [In] in Hin.
    + intuition congruence.
    + rewrite (Hcmd _ _ _ Hin). apply example_c_str.
    + intuition congruence.
    + left. intuition congruence.
    + right. eapply Hfetch; eassumption.
    + intuition congruence.
Qed.

End Properties.

(** * The properties on the sample configuration *)

Section Runs.

#[local] Existing Instance Sample.headers.
#[local] Existing Instance Sample.services.

Import Sample.

(** C1, as stated, fails: run on a one-entry list whose entry carries both
    sentinels, [shuffle] zeroes [len] bytes at [dest] and returns; taking
    the entry as a chain would have loaded the descriptor at [src] and
    performed its copy. *)
Lemma both_sentinels_not_chained :
  let st := start 0 0 0 both_sentinels_memory quiet in
  new_events st (shuffle 3 0x50 0 1 st) = Some [EvMemset 0xFFFFFFFF 12]
  /\ new_events st
       (shuffle_loop 2
          (load_descriptors (memory st) (src both_sentinels)
             (len both_sentinels / sizeof_descriptor))
          (len both_sentinels / sizeof_descriptor) 0 st)
     = Some [EvMemmove 0x2000 0x1000 4]
  /\ ~ (forall (fuel : nat) shuf count i d (s : state (W := script)),
          i < count ->
          shuf_at shuf i = Some d ->
          src d = 0xFFFFFFFF ->
          dest d = 0xFFFFFFFF ->
          shuffle_loop (S fuel) shuf count i s =
          shuffle_loop fuel
            (load_descriptors (memory s) (src d) (len d / sizeof_descriptor))
            (len d / sizeof_descriptor) 0 s).
Proof.
  cbv zeta. split; [vm_compute; reflexivity|].
  split; [vm_compute; reflexivity|].
  intros Hchain.
  specialize (Hchain 2%nat [both_sentinels] 1 0 both_sentinels
                (start 0 0 0 both_sentinels_memory quiet)
                eq_refl eq_refl eq_refl eq_refl).
  apply (f_equal (new_events (start 0 0 0 both_sentinels_memory quiet)))
    in Hchain.
  vm_compute in Hchain. discriminate.
Qed.

Lemma both_sentinels_zero_fill_witness :
  let st := start 0 0 0 both_sentinels_memory quiet in
  shuffle_loop 1 [both_sentinels] 1 0 st =
  shuffle_loop 0 [both_sentinels] 1 (u32 (0 + 1))
    (with_world (world st) (EvMemset 0xFFFFFFFF (len both_sentinels))
       (with_memory
          (memset_user (memory st) 0xFFFFFFFF 0 0 (len both_sentinels)) st)).
Proof.
  exact (both_sentinels_zero_fill 0 [both_sentinels] 1 0 both_sentinels
           (start 0 0 0 both_sentinels_memory quiet)
           eq_refl eq_refl eq_refl eq_refl).
Defined.


Lemma int22_too_many_descriptors_witness :
  let st := start 0x0012 0 1000 blank quiet in
  int22 0 st = Ok tt (carry_set st)
  /\ Z.land (flags (ix86 (carry_set st))) CF = CF
  /\ new_events st (int22 0 st) = Some [].
Proof.
  exact (int22_too_many_descriptors 0 (start 0x0012 0 1000 blank quiet)
           eq_refl eq_refl).
Defined.

(** A failed load and a successful one both leave through
    [longjmp ( comboot_return, COMBOOT_EXIT_RUN_KERNEL )]. *)
(** C4, as stated, fails: a first Run Kernel Image call stores the kernel
    and leaves through the [longjmp]; the same call issued again, with
    every step of the fetch succeeding, stops on the assertion instead of
    invoking the exit. *)
Lemma run_kernel_second_call_stops :
  let st := start 0x0016 0x100 0 run_kernel_memory quiet in
  let st1 := end_state st (int22 60 st) in
  let st2 := end_state st1 (int22 60 st1) in
  int22 60 st = Exit COMBOOT_EXIT_RUN_KERNEL st1
  /\ int22 60 st1 = Fatal AssertionFailed st2
  /\ new_events st1 (int22 60 st1)
     = Some [EvAllocImage (Some 1);
             EvImgfetch 1 (bytes_of_string "boot/initrd.img") 0;
             EvAllocImage (Some 1);
             EvImgfetch 1 (bytes_of_string "vmlinuz") 0;
             EvImageSetCmdline 1 (bytes_of_string example_cmdline) 0]
  /\ ~ (forall (fuel : nat) (s : state (W := script)) file_len cmd_len,
          ax (ix86 s) = 0x0016 ->
          strlen_user fuel (memory s)
            (real_to_user (ds (segs (ix86 s))) (si (ix86 s))) 0
          = Some file_len ->
          strlen_user fuel (memory s)
            (real_to_user (es (segs (ix86 s))) (bx (ix86 s))) 0
          = Some cmd_len ->
          exists s', int22 fuel s = Exit COMBOOT_EXIT_RUN_KERNEL s').
Proof.
  cbv zeta. split; [vm_compute; reflexivity|].
  split; [vm_compute; reflexivity|].
  split; [vm_compute; reflexivity|].
  intros Hexit.
  specialize (Hexit 60%nat
                (end_state (start 0x0016 0x100 0 run_kernel_memory quiet)
                   (int22 60 (start 0x0016 0x100 0 run_kernel_memory quiet)))
                7 50).
  destruct Hexit as [s' Hs']; try (vm_compute; reflexivity).
  apply (f_equal (fun r => match r with
                           | Exit _ _ => true
                           | _ => false
                           end)) in Hs'.
  vm_compute in Hs'. discriminate.
Qed.

Lemma run_kernel_exits_unless_refused_witness :
  (exists st',
     int22 60 (start 0x0016 0x100 0 run_kernel_memory (mkScript [] false))
     = Exit COMBOOT_EXIT_RUN_KERNEL st')
  /\ (exists st',
        int22 60 (start 0x0016 0x100 0 run_kernel_memory (mkScript [] true))
        = Exit COMBOOT_EXIT_RUN_KERNEL st').
Proof.
  split.
  - exact (proj2 (proj2 (proj2 (run_kernel_exits_unless_refused 60
             (start 0x0016 0x100 0 run_kernel_memory (mkScript [] false))
             eq_refl))) 7 50 eq_refl eq_refl eq_refl).
  - exact (proj2 (proj2 (proj2 (run_kernel_exits_unless_refused 60
             (start 0x0016 0x100 0 run_kernel_memory (mkScript [] true))
             eq_refl))) 7 50 eq_refl eq_refl eq_refl).
Defined.

(** Run Kernel Image on the example command line, every step succeeding:
    the calls made, in order. *)
Example run_kernel_example_trace :
  let st := start 0x0016 0x100 0 run_kernel_memory quiet in
  new_events st (int22 60 st) =
  Some [EvAllocImage (Some 1);
        EvImgfetch 1 (bytes_of_string "boot/initrd.img") 0;
        EvAllocImage (Some 1);
        EvImgfetch 1 (bytes_of_string "vmlinuz") 0;
        EvImageSetCmdline 1 (bytes_of_string example_cmdline) 0;
        EvImageGet 1;
        EvImagePut (Some 1);
        EvImagePut (Some 1)].
Proof. vm_compute. reflexivity. Qed.

Lemma run_kernel_example_cmdline_witness :
  let st := start 0x0016 0x100 0 run_kernel_memory quiet in
  let r := comboot_fetch_kernel (c_array "vmlinuz")
             (c_array example_cmdline) st in
  exists evs,
    trace (end_state st r) = trace st ++ evs
    /\ (forall img c rc,
          In (EvImageSetCmdline img c rc) evs ->
          c = bytes_of_string example_cmdline)
    /\ (forall img n rc,
          In (EvImgfetch img n rc) evs ->
          n = bytes_of_string "boot/initrd.img"
          \/ n = c_str (c_array "vmlinuz")).
Proof.
  cbv zeta.
  apply (proj2 (proj2 (run_kernel_example_cmdline (c_array "vmlinuz")
           (start 0x0016 0x100 0 run_kernel_memory quiet)))).
  vm_compute. reflexivity.
Defined.

(** Two Run Kernel Image calls in one session, every step succeeding: the
    first sets the replacement image and exits, the second stops on the
    assertion and leaves the image as the first call set it. *)
Lemma replacement_image_set_once_witness :
  let st := start 0x0016 0x100 0 run_kernel_memory quiet in
  let st1 := end_state st (int22 60 st) in
  let st2 := end_state st1 (int22 60 st1) in
  (comboot_replacement_image st = None
   /\ comboot_replacement_image st1 = Some 1)
  /\ int22 60 st1 = Fatal AssertionFailed st2
     /\ comboot_replacement_image st2 = comboot_replacement_image st1.
Proof.
  cbv zeta. split; [split; reflexivity|].
  eapply (proj2 (proj2 replacement_image_set_once) 60%nat).
  - vm_compute. discriminate.
  - vm_compute. reflexivity.
  - vm_compute. reflexivity.
  - vm_compute. reflexivity.
  - reflexivity.
Defined.

Lemma unknown_function_sets_carry_only_witness :
  let st := start 0x7777 0 0 blank quiet in
  int21 0 st = Ok tt (carry_set st) /\ int22 0 st = Ok tt (carry_set st).
Proof.
  cbv zeta. split.
  - apply (proj1 (unknown_function_sets_carry_only 0
                    (start 0x7777 0 0 blank quiet))).
    vm_compute. intuition discriminate.
  - apply (proj1 (proj2 (unknown_function_sets_carry_only 0
                    (start 0x7777 0 0 blank quiet)))).
    vm_compute. intuition discriminate.
Defined.

Lemma get_key_line_feed_witness :
  let st := start 0x0100 0 0 blank (mkScript [0x0A] true) in
  exists st',
    int21 0 st = Ok tt st'
    /\ al (ix86 st') = 0x0D
    /\ Z.land (flags (ix86 st')) CF = 0
    /\ new_events st (int21 0 st) = Some [EvGetchar 0x0A; EvPutchar 0x0D].
Proof.
  exact (get_key_line_feed 0
           (start 0x0100 0 0 blank (mkScript [0x0A] true))
           0x0A (mkScript [] true) (or_introl eq_refl) eq_refl eq_refl).
Defined.

(** Resolving the one-letter hostname "a" at 0000:0200. *)
Lemma int22_resolve_overrun_witness :
  let st := start 0x0010 0x200 0
              (store_bytes blank 0x200 (c_array "a")) quiet in
  int22 5 st = Fatal BufferOverrun (carry_set st).
Proof.
  exact (int22_resolve_overrun 5
           (start 0x0010 0x200 0 (store_bytes blank 0x200 (c_array "a")) quiet)
           1 eq_refl eq_refl).
Defined.

Lemma int22_open_empty_name_witness :
  let st := start 0x0006 0 0 blank quiet in
  int22 1 st = Ok tt (carry_set st)
  /\ Z.land (flags (ix86 (carry_set st))) CF = CF
  /\ new_events st (int22 1 st) = Some [].
Proof.
  exact (int22_open_empty_name 0 (start 0x0006 0 0 blank quiet)
           eq_refl eq_refl).
Defined.

(** Write DOS String on "HI$THERE" at 0000:0000 writes H and I and stops
    at the dollar sign. *)
Example write_dos_string_stops_at_dollar :
  let st := start 0x0900 0 0
              (store_bytes blank 0 (bytes_of_string "HI$THERE")) quiet in
  new_events st (int21 10 st) = Some [EvPutchar 72; EvPutchar 73]
  /\ option_map (fun s => Z.land (flags (ix86 s)) CF)
       (final_state (int21 10 st)) = Some 0.
Proof. vm_compute. split; reflexivity. Qed.

(** Get Key without echo passes other characters through and writes
    nothing. *)
Example get_key_without_echo_passes_letters :
  let st := start 0x0800 0 0 blank (mkScript [0x41] true) in
  new_events st (int21 0 st) = Some [EvGetchar 0x41]
  /\ option_map (fun s => al (ix86 s)) (final_state (int21 0 st))
     = Some 0x41.
Proof. vm_compute. split; reflexivity. Qed.

(** The chained shuffle of [chained_memory] leaves eight zero bytes at
    0x4000 and at 0x5000 the bytes copied from 0x3000. *)
Example chained_shuffle_memory :
  let st := start 0 0 0
              (store_bytes chained_memory 0x1000 [1; 2; 3; 4]) quiet in
  option_map (fun s => (copy_from_user (memory s) 0x4000 0 8,
                        copy_from_user (memory s) 0x5000 0 4))
    (final_state (shuffle 5 0x50 0 2 st))
  = Some ([0; 0; 0; 0; 0; 0; 0; 0], [1; 2; 3; 4]).
Proof. vm_compute. reflexivity. Qed.

(** Cleanup, Shuffle and Boot with a count within the limit shuts down,
    shuffles and transfers control: DS from [ds], the far pointer from
    [ebp], EDX from [ebx] and ESI from [esi]. *)
Example cleanup_shuffle_boot_runs :
  let st := mkState
              (mkAllRegs (mkSegs 0 0 0x1000 0x50 0 0)
                 (mkRegs 0 9 0x10000100 0 7 5 2 0x0012) 0)
              0 None chained_memory quiet [] in
  match int22 5 st with
  | Boot e s =>
      e = mkEntry 0x1000 0x10000100 7 9
      /\ trace s = [EvShutdown SHUTDOWN_BOOT;
                    EvMemmove 0x3000 0x1000 4; EvMemset 0x4000 8;
                    EvMemmove 0x5000 0x3000 4]
  | _ => False
  end.
Proof. vm_compute. split; reflexivity. Qed.

End Runs.

(** * Further properties of the code *)

Section Further.

Context {Hd : Headers} {W : Type} {Sv : Services W}.

Implicit Types (st : state (W := W)) (d : comboot_shuffle_descriptor).

(** The first two steps of a handler: set the carry flag, read the
    selector. *)
Ltac enter_handler st :=
  unfold int21, int22;
  unfold bind at 1; unfold set_carry at 1, update at 1; cbv beta iota;
  unfold bind at 1; unfold regs_now at 1; cbv beta iota;
  fold (carry_set st);
  change (ax (ix86 (carry_set st))) with (ax (ix86 st));
  change (ah (ix86 (carry_set st))) with (ah (ix86 st)).

(** ** Strings in user memory *)

Lemma copy_from_user_succ (m : mem) (a off : Z) (n : nat) :
  copy_from_user m a off (Z.of_nat (S n)) =
  m (a + off) :: copy_from_user m a (off + 1) (Z.of_nat n).
Proof.
  unfold copy_from_user. rewrite !Nat2Z.id. cbn [seq map].
  rewrite Z.add_0_r. f_equal.
  rewrite <- seq_shift, map_map. apply map_ext. intros k. f_equal. lia.
Qed.

Lemma trace_tell_all (evs : list event) :
  forall st, trace (tell_all evs st) = trace st ++ evs.
Proof.
  induction evs as [|e evs IH]; intros st; cbn [tell_all fold_left].
  - now rewrite app_nil_r.
  - fold (tell_all evs (with_world (effect e (world st)) e st)).
    rewrite IH. cbn [trace with_world]. now rewrite <- app_assoc.
Qed.

Lemma memory_tell_all (evs : list event) :
  forall st, memory (tell_all evs st) = memory st.
Proof.
  induction evs as [|e evs IH]; intros st; cbn [tell_all fold_left];
    [reflexivity|].
  fold (tell_all evs (with_world (effect e (world st)) e st)).
  now rewrite IH.
Qed.

Lemma ix86_tell_all (evs : list event) :
  forall st, ix86 (tell_all evs st) = ix86 st.
Proof.
  induction evs as [|e evs IH]; intros st; cbn [tell_all fold_left];
    [reflexivity|].
  fold (tell_all evs (with_world (effect e (world st)) e st)).
  now rewrite IH.
Qed.

(** The loop of [print_user_string] over a run of bytes that ends at the
    terminator. *)
Lemma print_user_string_loop_prints (bs : list Z) :
  forall (fuel : nat) (str terminator i : Z) st,
    copy_from_user (memory st) str i (Z.of_nat (length bs)) = bs ->
    forallb (fun b => negb (as_char b =? terminator)) bs = true ->
    as_char (memory st (str + i + Z.of_nat (length bs))) = terminator ->
    print_user_string_loop (S (length bs) + fuel) str terminator i st =
    Ok tt (tell_all (map EvPutchar (map as_char bs)) st).
Proof.
  induction bs as [|b bs IH]; intros fuel str terminator i st Hbs Hnot Hend.
  - cbn [length Nat.add print_user_string_loop].
    erewrite bind_ok by (apply copy_to_local_fits; lia).
    change 1 with (Z.of_nat 1). rewrite copy_from_user_succ. cbn [nth].
    cbn [length Z.of_nat] in Hend. rewrite Z.add_0_r in Hend.
    rewrite Hend, Z.eqb_refl. reflexivity.
  - cbn [length] in Hbs, Hend. rewrite copy_from_user_succ in Hbs.
    injection Hbs as Hb Hbs.
    cbn [forallb] in Hnot. apply andb_true_iff in Hnot as [Hb' Hnot].
    apply negb_true_iff in Hb'.
    cbn [length Nat.add print_user_string_loop].
    erewrite bind_ok by (apply copy_to_local_fits; lia).
    change 1 with (Z.of_nat 1). rewrite copy_from_user_succ. cbn [nth].
    rewrite Hb, Hb'. unfold bind at 1, putchar, tell.
    cbn [map]. cbn [tell_all fold_left].
    fold (tell_all (map EvPutchar (map as_char bs))
            (with_world (effect (EvPutchar (as_char b)) (world st))
               (EvPutchar (as_char b)) st)).
    apply IH; cbn [memory with_world]; try assumption.
    rewrite <- Hend. do 2 f_equal. lia.
Qed.

(** X1: [print_user_string] passes to [putchar], in order, exactly the
    bytes that precede the first one equal to the terminator, each as the
    signed [char] it was read into (so a byte from 80h on arrives as a
    negative [int]), and returns; the terminator is not written, and memory
    and registers are untouched. *)
Theorem print_user_string_prints (fuel : nat) (segment offset terminator : Z)
    (bs : list Z) st :
  chars_at (memory st) (real_to_user segment offset) bs terminator ->
  (length bs < fuel)%nat ->
  let cs := map as_char bs in
  print_user_string fuel segment offset terminator st =
    Ok tt (tell_all (map EvPutchar cs) st)
  /\ trace (tell_all (map EvPutchar cs) st) = trace st ++ map EvPutchar cs
  /\ memory (tell_all (map EvPutchar cs) st) = memory st
  /\ ix86 (tell_all (map EvPutchar cs) st) = ix86 st.
Proof.
  intros (Hbs & Hnot & Hend) Hfuel cs. subst cs.
  split; [|split; [apply trace_tell_all|
           split; [apply memory_tell_all | apply ix86_tell_all]]].
  unfold print_user_string.
  replace fuel with (S (length bs) + (fuel - S (length bs)))%nat by lia.
  apply print_user_string_loop_prints; try assumption.
  now rewrite Z.add_0_r.
Qed.

Lemma print_user_string_loop_runs_on (fuel : nat) :
  forall (str terminator i : Z) st,
    (forall k, 0 <= k -> as_char (memory st (str + k)) <> terminator) ->
    0 <= i ->
    print_user_string_loop fuel str terminator i st = OutOfFuel.
Proof.
  induction fuel as [|fuel IH]; intros str terminator i st Hnone Hi;
    cbn [print_user_string_loop]; [reflexivity|].
  erewrite bind_ok by (apply copy_to_local_fits; lia).
  change 1 with (Z.of_nat 1). rewrite copy_from_user_succ. cbn [nth].
  destruct (Z.eqb_spec (as_char (memory st (str + i))) terminator) as [Heq|_];
    [now apply Hnone in Heq|].
  unfold bind at 1, putchar, tell.
  apply IH; [|lia]. cbn [memory with_world]. exact Hnone.
Qed.

(** X2: when no byte from the start of the string on equals the
    terminator - as the loop compares them, the byte read into a [char] -
    [print_user_string] does not return, whatever the fuel. *)
Theorem print_user_string_needs_terminator (fuel : nat)
    (segment offset terminator : Z) st :
  (forall k, 0 <= k ->
     as_char (memory st (real_to_user segment offset + k)) <> terminator) ->
  print_user_string fuel segment offset terminator st = OutOfFuel.
Proof.
  intros Hnone. unfold print_user_string.
  now apply print_user_string_loop_runs_on.
Qed.

(** ** More on the shuffle engine *)

Lemma trace_apply_in_order (ds : list comboot_shuffle_descriptor) :
  forall st,
    trace (apply_in_order ds st) = trace st ++ map descriptor_event ds.
Proof.
  induction ds as [|d ds IH]; intros st; cbn [apply_in_order fold_left map].
  - now rewrite app_nil_r.
  - fold (apply_in_order ds (apply_descriptor d st)). rewrite IH.
    unfold apply_descriptor, descriptor_event.
    destruct (src d =? 0xFFFFFFFF); cbn [trace with_world with_memory];
      now rewrite <- app_assoc.
Qed.

(** X3: run on a list of copy and zero-fill descriptors that fits the
    array, [shuffle] returns after carrying out one memory operation per
    descriptor, in list order: none is skipped, repeated or reordered. *)
Theorem shuffle_plain_list_in_order (fuel : nat)
    (list_segment list_offset count : Z) st :
  let shuf := load_descriptors (memory st)
                (real_to_user list_segment list_offset) count in
  0 <= count <= COMBOOT_MAX_SHUFFLE_DESCRIPTORS ->
  (forall d, In d shuf -> is_chain d = false) ->
  shuffle (length shuf + S fuel) list_segment list_offset count st =
    Ok tt (apply_in_order shuf st)
  /\ trace (apply_in_order shuf st) = trace st ++ map descriptor_event shuf.
Proof.
  intros shuf Hcount Hplain. split; [|apply trace_apply_in_order].
  pose proof sizeof_descriptor_pos as Hpos.
  unfold shuffle, bind, copy_descriptors.
  replace (u32 (count * sizeof_descriptor) <=?
           COMBOOT_MAX_SHUFFLE_DESCRIPTORS * sizeof_descriptor) with true.
  2:{ symmetry. apply Z.leb_le. etransitivity; [apply u32_le; nia | nia]. }
  apply shuffle_loop_plain_list; [lia | assumption].
Qed.

(** X4: a chain descriptor whose new list begins with that same descriptor
    keeps the loop of [shuffle] reloading the list for ever: the call does
    not return, whatever the fuel. *)
Theorem shuffle_self_chain_never_returns (fuel : nat) :
  forall shuf count i d st,
    i < count ->
    shuf_at shuf i = Some d ->
    is_chain d = true ->
    sizeof_descriptor <= len d
      <= COMBOOT_MAX_SHUFFLE_DESCRIPTORS * sizeof_descriptor ->
    decode_descriptor (memory st) (src d) = d ->
    shuffle_loop fuel shuf count i st = OutOfFuel.
Proof.
  pose proof sizeof_descriptor_pos as Hpos.
  induction fuel as [|fuel IH]; intros shuf count i d st Hi Hat Hchain Hlen Hself;
    [reflexivity|].
  rewrite (shuffle_loop_chain_step _ _ _ _ d) by (assumption || lia).
  assert (Hn : 1 <= len d / sizeof_descriptor).
  { apply Z.div_le_lower_bound; lia. }
  assert (Hmax : len d / sizeof_descriptor <= COMBOOT_MAX_SHUFFLE_DESCRIPTORS).
  { apply Z.div_le_upper_bound; lia. }
  apply (IH _ _ _ d); try assumption; [lia|].
  unfold shuf_at, load_descriptors.
  replace (0 <? COMBOOT_MAX_SHUFFLE_DESCRIPTORS) with true
    by (symmetry; apply Z.ltb_lt; lia).
  destruct (Z.to_nat (len d / sizeof_descriptor)) as [|n] eqn:Hnat; [lia|].
  cbn [seq map nth_error Z.to_nat Z.of_nat]. f_equal.
  rewrite Z.mul_0_l, Z.add_0_r. exact Hself.
Qed.

(** What the loop of [shuffle] adds to the trace, and how it can end. *)
Lemma shuffle_loop_effects (fuel : nat) :
  forall shuf count i st,
    match shuffle_loop fuel shuf count i st with
    | Ok _ st' | Fatal _ st' =>
        exists evs,
          trace st' = trace st ++ evs /\ forallb is_memory_op evs = true
    | OutOfFuel => True
    | Exit _ _ | Boot _ _ => False
    end.
Proof.
  induction fuel as [|fuel IH]; intros shuf count i st; [exact I|].
  rewrite shuffle_loop_unfold.
  assert (Hsame : exists evs,
             trace st = trace st ++ evs /\ forallb is_memory_op evs = true).
  { exists []. now rewrite app_nil_r. }
  destruct (i <? count); [|exact Hsame].
  destruct (shuf_at shuf i) as [d|]; [|exact Hsame].
  destruct (src d =? 0xFFFFFFFF).
  { match goal with
    | |- match shuffle_loop _ ?sh ?c ?j ?s with _ => _ end =>
        specialize (IH sh c j s); destruct (shuffle_loop fuel sh c j s)
    end; try exact IH;
      destruct IH as (evs & Htr & Hmem);
      (eexists (_ :: evs); split;
       [rewrite Htr; cbn [trace with_world with_memory];
        rewrite <- app_assoc; reflexivity
       |cbn [forallb is_memory_op andb]; exact Hmem]). }
  destruct (dest d =? 0xFFFFFFFF).
  - unfold bind, assert, copy_descriptors.
    destruct (len d / sizeof_descriptor <=? _); cbn [ret fatal];
      [|exact Hsame].
    destruct (len d <=? _); [|exact Hsame].
    apply IH.
  - match goal with
    | |- match shuffle_loop _ ?sh ?c ?j ?s with _ => _ end =>
        specialize (IH sh c j s); destruct (shuffle_loop fuel sh c j s)
    end; try exact IH;
      destruct IH as (evs & Htr & Hmem);
      (eexists (_ :: evs); split;
       [rewrite Htr; cbn [trace with_world with_memory];
        rewrite <- app_assoc; reflexivity
       |cbn [forallb is_memory_op andb]; exact Hmem]).
Qed.

Lemma shuffle_effects (fuel : nat) (list_segment list_offset count : Z) st :
  match shuffle fuel list_segment list_offset count st with
  | Ok _ st' | Fatal _ st' =>
      exists evs,
        trace st' = trace st ++ evs /\ forallb is_memory_op evs = true
  | OutOfFuel => True
  | Exit _ _ | Boot _ _ => False
  end.
Proof.
  unfold shuffle, bind, copy_descriptors.
  destruct (u32 (count * sizeof_descriptor) <=? _).
  - apply shuffle_loop_effects.
  - exists []. now rewrite app_nil_r.
Qed.

(** X5: [shuffle] calls no service and does not leave through [longjmp]
    or a jump: whatever the descriptors, chains included, every event it
    adds to the trace is one of its own memory operations, and it ends by
    returning or on a violation. *)
Theorem shuffle_calls_no_service (fuel : nat)
    (list_segment list_offset count : Z) st :
  match shuffle fuel list_segment list_offset count st with
  | Ok _ st' | Fatal _ st' =>
      exists evs,
        trace st' = trace st ++ evs /\ forallb is_memory_op evs = true
  | OutOfFuel => True
  | Exit _ _ | Boot _ _ => False
  end.
Proof. apply shuffle_effects. Qed.

Lemma cleanup_shuffle_boot_outcome (fuel : nat) st :
  ax (ix86 st) = 0x0012 ->
  cx (ix86 st) <= COMBOOT_MAX_SHUFFLE_DESCRIPTORS ->
  match int22 fuel st with
  | Boot e st' =>
      e = mkEntry (ds (segs (ix86 st'))) (ebp (regs (ix86 st')))
            (ebx (regs (ix86 st'))) (esi (regs (ix86 st')))
      /\ exists evs,
           trace st' = trace st ++ EvShutdown SHUTDOWN_BOOT :: evs
           /\ forallb is_memory_op evs = true
  | Fatal _ st' =>
      exists evs,
        trace st' = trace st ++ EvShutdown SHUTDOWN_BOOT :: evs
        /\ forallb is_memory_op evs = true
  | OutOfFuel => True
  | Ok _ _ | Exit _ _ => False
  end.
Proof.
  intros Hax Hcx. enter_handler st. rewrite Hax. cbn [Z.eqb Pos.eqb].
  change (cx (ix86 (carry_set st))) with (cx (ix86 st)).
  replace (cx (ix86 st) >? COMBOOT_MAX_SHUFFLE_DESCRIPTORS) with false
    by (symmetry; rewrite Z.gtb_ltb; apply Z.ltb_ge; lia).
  unfold bind at 1. unfold shutdown, tell. unfold bind at 1.
  match goal with
  | |- context [shuffle fuel ?sg ?off ?c ?s] =>
      pose proof (shuffle_effects fuel sg off c s) as Hsh;
      destruct (shuffle fuel sg off c s) as [u s'|c' s'|e' s'|v s'|]
  end; try exact Hsh; try contradiction.
  - destruct Hsh as (evs & Htr & Hmem).
    unfold bind, regs_now, lret. split; [reflexivity|].
    exists evs. rewrite Htr. cbn [trace with_world carry_set with_ix86].
    split; [now rewrite <- app_assoc | exact Hmem].
  - destruct Hsh as (evs & Htr & Hmem).
    exists evs. rewrite Htr. cbn [trace with_world carry_set with_ix86].
    split; [now rewrite <- app_assoc | exact Hmem].
Qed.

(** X6: a Cleanup, Shuffle and Boot request whose count is within the
    limit never returns to its caller and never leaves through [longjmp].
    It calls [shutdown ( SHUTDOWN_BOOT )] first; what follows up to the
    jump is memory operations only, no other service is called; and the
    jump, when reached, loads DS from [ds], takes its far pointer from
    [ebp] and passes [ebx] in EDX and [esi] in ESI, each as the register
    context holds it at that moment.  Otherwise the call stops on a
    violation inside [shuffle]. *)
Theorem cleanup_shuffle_boot_never_returns (fuel : nat) st :
  ax (ix86 st) = 0x0012 ->
  cx (ix86 st) <= COMBOOT_MAX_SHUFFLE_DESCRIPTORS ->
  match int22 fuel st with
  | Boot e st' =>
      e = mkEntry (ds (segs (ix86 st'))) (ebp (regs (ix86 st')))
            (ebx (regs (ix86 st'))) (esi (regs (ix86 st')))
      /\ exists evs,
           trace st' = trace st ++ EvShutdown SHUTDOWN_BOOT :: evs
           /\ forallb is_memory_op evs = true
  | Fatal _ st' =>
      exists evs,
        trace st' = trace st ++ EvShutdown SHUTDOWN_BOOT :: evs
        /\ forallb is_memory_op evs = true
  | OutOfFuel => True
  | Ok _ _ | Exit _ _ => False
  end.
Proof. apply cleanup_shuffle_boot_outcome. Qed.

(** ** Video mode *)

(** X7: [comboot_force_text_mode] issues at most one mode set - the VESA
    one when the VESA bit of the graphics mode is set, whether or not the
    VGA graphics bit is, otherwise the VGA one when that bit is set - and
    always leaves the graphics mode cleared; called again at once it does
    nothing at all. *)
Theorem force_text_mode_clears_mode st :
  let vesa := negb (Z.land (comboot_graphics_mode st) COMBOOT_VIDEO_VESA =? 0) in
  let vga :=
    negb (Z.land (comboot_graphics_mode st) COMBOOT_VIDEO_GRAPHICS =? 0) in
  exists st',
    comboot_force_text_mode st = Ok tt st'
    /\ comboot_graphics_mode st' = 0
    /\ trace st' = trace st ++
         (if vesa then [EvInt10 (Some 0x4F02) (Some 0x03)]
          else if vga then [EvInt10 (Some 0x03) None]
          else [])
    /\ ix86 st' = ix86 st
    /\ memory st' = memory st
    /\ comboot_force_text_mode st' = Ok tt st'.
Proof.
  cbv zeta. unfold comboot_force_text_mode, bind, get.
  destruct (negb (Z.land (comboot_graphics_mode st) COMBOOT_VIDEO_VESA =? 0)).
  - unfold int10, tell, modify. eexists. split; [reflexivity|].
    cbn [comboot_graphics_mode with_graphics_mode with_world trace ix86
         memory Z.land Z.eqb negb ret].
    repeat split.
  - destruct (negb (Z.land (comboot_graphics_mode st)
                      COMBOOT_VIDEO_GRAPHICS =? 0)).
    + unfold int10, tell, modify. eexists. split; [reflexivity|].
      cbn [comboot_graphics_mode with_graphics_mode with_world trace ix86
           memory Z.land Z.eqb negb ret].
      repeat split.
    + unfold ret, modify. eexists. split; [reflexivity|].
      cbn [comboot_graphics_mode with_graphics_mode with_world trace ix86
           memory Z.land Z.eqb negb ret].
      rewrite app_nil_r. repeat split.
Qed.

(** ** More on the kernel and initrd fetch *)

Lemma fetch_initrd_refs (cmdline : list Z) st :
  exists r st' evs,
    fetch_initrd cmdline st = Ok r st'
    /\ trace st' = trace st ++ evs
    /\ allocated evs =
       match (match r with inl (_, i, _) => i | inr (i, _) => i end) with
       | Some img => [img]
       | None => []
       end
    /\ released evs = []
    /\ acquired evs = [].
Proof.
  unfold fetch_initrd.
  destruct (strstr cmdline (bytes_of_string "initrd=")) as [p|].
  - unfold bind, alloc_image, ask.
    destruct (alloc_image_svc (world st)) as [[img|] w1].
    + unfold imgfetch. cbn [world memory with_world with_memory].
      match goal with
      | |- context [imgfetch_svc ?i ?n ?m ?w] =>
          set (name := n); destruct (imgfetch_svc i name m w) as [[rc m2] w2]
      end.
      destruct (rc =? 0); cbn [negb ret];
        do 2 eexists; exists [EvAllocImage (Some img); EvImgfetch img name rc];
        (split; [reflexivity|]); cbn [trace with_world with_memory];
        rewrite <- app_assoc; repeat split.
    + do 2 eexists. exists [EvAllocImage None].
      split; [reflexivity|]. repeat split.
  - do 2 eexists. exists []. split; [reflexivity|].
    rewrite app_nil_r. repeat split.
Qed.

Lemma fetch_kernel_refs (kernel_file cmdline : list Z) st :
  match fetch_kernel kernel_file cmdline st with
  | Ok (rc, k) st' =>
      exists evs,
        trace st' = trace st ++ evs
        /\ allocated evs = match k with Some img => [img] | None => [] end
        /\ released evs = []
        /\ ((acquired evs = []
             /\ comboot_replacement_image st' = comboot_replacement_image st)
            \/ (exists img, k = Some img /\ acquired evs = [img]
                /\ comboot_replacement_image st' = Some img))
  | Fatal _ _ => True
  | _ => False
  end.
Proof.
  unfold fetch_kernel. unfold bind at 1. unfold alloc_image, ask.
  destruct (alloc_image_svc (world st)) as [[img|] w1].
  2:{ exists [EvAllocImage None]. repeat split. now left. }
  unfold bind at 1. unfold imgfetch. cbn [world memory with_world with_memory].
  destruct (imgfetch_svc img (c_str kernel_file) _ w1) as [[rc m2] w2].
  destruct (rc =? 0); cbn [negb].
  2:{ exists [EvAllocImage (Some img); EvImgfetch img (c_str kernel_file) rc].
      cbn [trace with_world with_memory]. rewrite <- app_assoc. repeat split. now left. }
  unfold bind at 1. unfold image_set_cmdline, ask. cbn [world with_world with_memory].
  destruct (image_set_cmdline_svc img (c_str cmdline) w2) as [rc' w3].
  destruct (rc' =? 0); cbn [negb].
  2:{ exists [EvAllocImage (Some img); EvImgfetch img (c_str kernel_file) rc;
              EvImageSetCmdline img (c_str cmdline) rc'].
      cbn [trace with_world with_memory]. rewrite <- !app_assoc. repeat split. now left. }
  unfold bind at 1. unfold get. cbv beta iota.
  cbn [comboot_replacement_image with_world with_memory].
  destruct (comboot_replacement_image st) as [k|];
    unfold bind, assert, fatal, ret, image_get, tell, modify; [exact I|].
  exists [EvAllocImage (Some img); EvImgfetch img (c_str kernel_file) rc;
          EvImageSetCmdline img (c_str cmdline) rc'; EvImageGet img].
  cbn [trace with_world with_memory with_replacement_image comboot_replacement_image].
  rewrite <- !app_assoc. repeat split. right. now exists img.
Qed.

(** X8: whenever [comboot_fetch_kernel] returns, the images it allocated
    are exactly the images it released, in reverse order, so no local
    reference is left behind; the only further reference it takes is the
    one it stores as the replacement image. *)
Theorem comboot_fetch_kernel_balances_references
    (kernel_file cmdline : list Z) st (a : Z * list Z) st' :
  comboot_fetch_kernel kernel_file cmdline st = Ok a st' ->
  exists evs,
    trace st' = trace st ++ evs
    /\ released evs = rev (allocated evs)
    /\ ((acquired evs = []
         /\ comboot_replacement_image st' = comboot_replacement_image st)
        \/ (exists img,
              acquired evs = [img]
              /\ In img (allocated evs)
              /\ comboot_replacement_image st' = Some img)).
Proof.
  unfold comboot_fetch_kernel.
  destruct (fetch_initrd_refs cmdline st)
    as (r & s1 & evs1 & Hr & Htr1 & Hal1 & Hrel1 & Hacq1).
  destruct (fetch_initrd_spec cmdline st)
    as (r' & s1' & evs1' & Hr' & _ & Himg1 & _).
  rewrite Hr in Hr'. injection Hr' as <- <-.
  rewrite (bind_ok _ _ _ _ _ Hr).
  destruct r as [[[rc initrd] buf] | [initrd buf]].
  - destruct (fetch_out_spec None initrd rc buf s1)
      as (s2 & Hout & Htr2 & Himg2).
    rewrite Hout. intros [= _ <-].
    exists (evs1 ++ [EvImagePut None; EvImagePut initrd]).
    split; [now rewrite Htr2, Htr1, <- app_assoc|].
    unfold released, allocated, acquired in *.
    rewrite !flat_map_app, Hal1, Hrel1, Hacq1.
    split; [destruct initrd; reflexivity|].
    left. split; [reflexivity | congruence].
  - pose proof (fetch_kernel_refs kernel_file buf s1) as Hk.
    unfold bind at 1.
    destruct (fetch_kernel kernel_file buf s1) as [[rc k] s2| | | |];
      try discriminate; try contradiction.
    destruct Hk as (evs2 & Htr2 & Hal2 & Hrel2 & Hacq2).
    destruct (fetch_out_spec k initrd rc buf s2)
      as (s3 & Hout & Htr3 & Himg3).
    cbn [fst snd]. rewrite Hout. intros [= _ <-].
    exists (evs1 ++ evs2 ++ [EvImagePut k; EvImagePut initrd]).
    split; [now rewrite Htr3, Htr2, Htr1, <- !app_assoc|].
    unfold released, allocated, acquired in *.
    rewrite !flat_map_app, Hal1, Hrel1, Hacq1, Hal2, Hrel2.
    split; [destruct initrd, k; reflexivity|].
    destruct Hacq2 as [[Hacq2 Himg2] | (img & -> & Hacq2 & Himg2)];
      rewrite Hacq2.
    + left. split; [reflexivity | congruence].
    + right. exists img. split; [reflexivity|].
      split; [apply in_or_app; right; now left | congruence].
Qed.

Lemma c_str_poke_found (c : Z) (l : list Z) :
  c <> 0 ->
  forall p e : nat,
    strchr_from (c_str l) c p = Some e ->
    exists k : nat, e = (p + k)%nat /\ c_str (poke l k 0) = firstn k l.
Proof.
  intros Hc. induction l as [|b l IH]; intros p e Hfind; cbn in Hfind;
    [discriminate|].
  destruct (Z.eqb_spec b 0) as [->|Hb]; [discriminate|].
  cbn [strchr_from] in Hfind.
  destruct (Z.eqb_spec b c) as [->|Hbc].
  - injection Hfind as <-. exists 0%nat. split; [lia|]. reflexivity.
  - destruct (IH _ _ Hfind) as (k & -> & Hk). exists (S k). split; [lia|].
    cbn [poke c_str firstn].
    destruct (Z.eqb_spec b 0) as [|_]; [contradiction|]. now rewrite Hk.
Qed.

Lemma skipn_poke (x : Z) (q : nat) :
  forall (buf : list Z) (k : nat),
    skipn q (poke buf (q + k) x) = poke (skipn q buf) k x.
Proof.
  induction q as [|q IH]; intros buf k; [reflexivity|].
  destruct buf as [|b buf]; [now destruct k|].
  cbn [Nat.add poke skipn]. apply IH.
Qed.

(** The name the initrd block passes to [imgfetch]. *)
Lemma initrd_file_is_token (cmdline : list Z) (p : nat) :
  c_str_at
    match strchr cmdline (p + 7) 32 with
    | Some e => poke cmdline e 0
    | None => cmdline
    end (p + 7) = initrd_token cmdline p.
Proof.
  unfold initrd_token.
  destruct (strchr cmdline (p + 7) 32) as [e|] eqn:Hend; [|reflexivity].
  unfold strchr, c_str_at in Hend.
  destruct (c_str_poke_found 32 _ ltac:(discriminate) _ _ Hend)
    as (k & -> & Hk).
  unfold c_str_at. rewrite skipn_poke, Hk. f_equal. lia.
Qed.

Lemma fetch_initrd_fetched (cmdline : list Z) st :
  exists r st' evs,
    fetch_initrd cmdline st = Ok r st'
    /\ trace st' = trace st ++ evs
    /\ match strstr cmdline (bytes_of_string "initrd=") with
       | None => fetched evs = []
                 /\ exists i b, r = inr (i, b)
       | Some p =>
           (fetched evs = [] /\ exists x, r = inl x)
           \/ fetched evs = [initrd_token cmdline p]
       end.
Proof.
  unfold fetch_initrd.
  destruct (strstr cmdline (bytes_of_string "initrd=")) as [p|].
  - cbv zeta. rewrite initrd_file_is_token.
    unfold bind, alloc_image, ask.
    destruct (alloc_image_svc (world st)) as [[img|] w1].
    + unfold imgfetch. cbn [world memory with_world with_memory].
      destruct (imgfetch_svc img (initrd_token cmdline p) _ w1) as [[rc m2] w2].
      destruct (rc =? 0); cbn [negb ret];
        do 2 eexists;
        exists [EvAllocImage (Some img);
                EvImgfetch img (initrd_token cmdline p) rc];
        (split; [reflexivity|]); cbn [trace with_world with_memory];
        rewrite <- app_assoc; (split; [reflexivity|]); now right.
    + do 2 eexists. exists [EvAllocImage None].
      split; [reflexivity|]. split; [reflexivity|].
      left. split; [reflexivity|]. eexists. reflexivity.
  - do 2 eexists. exists []. split; [reflexivity|].
    rewrite app_nil_r. split; [reflexivity|]. split; [reflexivity|].
    do 2 eexists. reflexivity.
Qed.

Lemma fetch_kernel_fetched (kernel_file cmdline : list Z) st st' :
  final_state (fetch_kernel kernel_file cmdline st) = Some st' ->
  exists evs,
    trace st' = trace st ++ evs
    /\ (fetched evs = [] \/ fetched evs = [c_str kernel_file]).
Proof.
  unfold fetch_kernel. unfold bind at 1. unfold alloc_image, ask.
  destruct (alloc_image_svc (world st)) as [[img|] w1].
  2:{ intros [= <-]. exists [EvAllocImage None].
      split; [reflexivity | now left]. }
  unfold bind at 1. unfold imgfetch. cbn [world memory with_world with_memory].
  destruct (imgfetch_svc img (c_str kernel_file) _ w1) as [[rc m2] w2].
  destruct (rc =? 0); cbn [negb].
  2:{ intros [= <-].
      exists [EvAllocImage (Some img); EvImgfetch img (c_str kernel_file) rc].
      split; [cbn [trace with_world with_memory]; now rewrite <- app_assoc | now right]. }
  unfold bind at 1. unfold image_set_cmdline, ask. cbn [world with_world with_memory].
  destruct (image_set_cmdline_svc img (c_str cmdline) w2) as [rc' w3].
  destruct (rc' =? 0); cbn [negb].
  2:{ intros [= <-].
      exists [EvAllocImage (Some img); EvImgfetch img (c_str kernel_file) rc;
              EvImageSetCmdline img (c_str cmdline) rc'].
      split; [cbn [trace with_world with_memory]; now rewrite <- !app_assoc | now right]. }
  unfold bind at 1. unfold get. cbv beta iota.
  cbn [comboot_replacement_image with_world with_memory].
  destruct (comboot_replacement_image st) as [k|];
    unfold bind, assert, fatal, ret, image_get, tell, modify;
    intros [= <-].
  - exists [EvAllocImage (Some img); EvImgfetch img (c_str kernel_file) rc;
            EvImageSetCmdline img (c_str cmdline) rc'].
    split; [cbn [trace with_world with_memory]; now rewrite <- !app_assoc | now right].
  - exists [EvAllocImage (Some img); EvImgfetch img (c_str kernel_file) rc;
            EvImageSetCmdline img (c_str cmdline) rc'; EvImageGet img].
    split; [cbn [trace with_world with_memory with_replacement_image];
            now rewrite <- !app_assoc | now right].
Qed.

(** X9: what [comboot_fetch_kernel] fetches, for every command line and
    every answer of the services.  Without an [initrd=] parameter it
    fetches at most the kernel file.  With one, the first fetch is of the
    text between "initrd=" and the next space (or the end of the string),
    and the kernel file is fetched only after it, never alone and never
    first. *)
Theorem comboot_fetch_kernel_fetches (kernel_file cmdline : list Z) st st' :
  final_state (comboot_fetch_kernel kernel_file cmdline st) = Some st' ->
  exists evs,
    trace st' = trace st ++ evs
    /\ match strstr cmdline (bytes_of_string "initrd=") with
       | None => fetched evs = [] \/ fetched evs = [c_str kernel_file]
       | Some p =>
           fetched evs = []
           \/ fetched evs = [initrd_token cmdline p]
           \/ fetched evs = [initrd_token cmdline p; c_str kernel_file]
       end.
Proof.
  unfold comboot_fetch_kernel.
  destruct (fetch_initrd_fetched cmdline st)
    as (r & s1 & evs1 & Hr & Htr1 & Hf1).
  pose proof (fetch_initrd_restores cmdline st) as Hrestore.
  rewrite (bind_ok _ _ _ _ _ Hr).
  destruct r as [[[rc initrd] buf] | [initrd buf]].
  - destruct (fetch_out_spec None initrd rc buf s1)
      as (s2 & Hout & Htr2 & _).
    rewrite Hout. intros [= <-].
    exists (evs1 ++ [EvImagePut None; EvImagePut initrd]).
    split; [now rewrite Htr2, Htr1, <- app_assoc|].
    unfold fetched in *. rewrite flat_map_app. cbn [flat_map app].
    rewrite app_nil_r.
    destruct (strstr cmdline (bytes_of_string "initrd=")) as [p|].
    + destruct Hf1 as [[Hf1 _] | Hf1]; auto.
    + destruct Hf1 as (_ & i & b & Habs). discriminate.
  - rewrite (Hrestore _ _ _ Hr) in *. clear Hrestore.
    pose proof (fetch_kernel_fetched kernel_file cmdline s1) as Hk.
    unfold bind at 1.
    destruct (fetch_kernel kernel_file cmdline s1) as [k s2|c s2|e2 s2|v s2|];
      cbn [final_state] in Hk; try discriminate.
    + destruct (Hk s2 eq_refl) as (evs2 & Htr2 & Hf2).
      destruct (fetch_out_spec (snd k) initrd (fst k) cmdline s2)
        as (s3 & Hout & Htr3 & _).
      rewrite Hout. intros [= <-].
      exists (evs1 ++ evs2 ++ [EvImagePut (snd k); EvImagePut initrd]).
      split; [now rewrite Htr3, Htr2, Htr1, <- !app_assoc|].
      unfold fetched in *. rewrite !flat_map_app. cbn [flat_map app].
      rewrite app_nil_r.
      destruct (strstr cmdline (bytes_of_string "initrd=")) as [p|].
      * destruct Hf1 as [[_ [x Habs]] | Hf1]; [discriminate|].
        rewrite Hf1. destruct Hf2 as [-> | ->]; cbn [app]; auto.
      * destruct Hf1 as [Hf1 _]. rewrite Hf1. cbn [app]. exact Hf2.
    + intros [= <-]. destruct (Hk s2 eq_refl) as (evs2 & Htr2 & Hf2).
      exists (evs1 ++ evs2).
      split; [now rewrite Htr2, Htr1, <- !app_assoc|].
      unfold fetched in *. rewrite !flat_map_app.
      destruct (strstr cmdline (bytes_of_string "initrd=")) as [p|].
      * destruct Hf1 as [[_ [x Habs]] | Hf1]; [discriminate|].
        rewrite Hf1. destruct Hf2 as [-> | ->]; cbn [app]; auto.
      * destruct Hf1 as [Hf1 _]. rewrite Hf1. cbn [app]. exact Hf2.
    + intros [= <-]. destruct (Hk s2 eq_refl) as (evs2 & Htr2 & Hf2).
      exists (evs1 ++ evs2).
      split; [now rewrite Htr2, Htr1, <- !app_assoc|].
      unfold fetched in *. rewrite !flat_map_app.
      destruct (strstr cmdline (bytes_of_string "initrd=")) as [p|].
      * destruct Hf1 as [[_ [x Habs]] | Hf1]; [discriminate|].
        rewrite Hf1. destruct Hf2 as [-> | ->]; cbn [app]; auto.
      * destruct Hf1 as [Hf1 _]. rewrite Hf1. cbn [app]. exact Hf2.
    + intros [= <-]. destruct (Hk s2 eq_refl) as (evs2 & Htr2 & Hf2).
      exists (evs1 ++ evs2).
      split; [now rewrite Htr2, Htr1, <- !app_assoc|].
      unfold fetched in *. rewrite !flat_map_app.
      destruct (strstr cmdline (bytes_of_string "initrd=")) as [p|].
      * destruct Hf1 as [[_ [x Habs]] | Hf1]; [discriminate|].
        rewrite Hf1. destruct Hf2 as [-> | ->]; cbn [app]; auto.
      * destruct Hf1 as [Hf1 _]. rewrite Hf1. cbn [app]. exact Hf2.
Qed.

Lemma nth_error_poke (x : Z) (buf : list Z) :
  forall (e : nat) (c : Z),
    nth_error buf e = Some c -> nth_error (poke buf e x) e = Some x.
Proof.
  induction buf as [|b buf IH]; intros [|e] c Hnth; cbn in *;
    try discriminate; [reflexivity | eapply IH; eassumption].
Qed.

(** X10: when the fetch of the initrd fails, [comboot_fetch_kernel] gives
    up at once: it returns the initrd's error code, the kernel is neither
    allocated nor fetched, the replacement image is untouched and the one
    image allocated is released.  The caller's command line array is left
    cut: where the space after the initrd name was there is now a NUL.
    Memory is as the failed fetch left it. *)
Theorem comboot_fetch_kernel_initrd_failure (kernel_file cmdline : list Z)
    st (p : nat) (img : image) (w1 w2 : W) (rc : Z) (m2 : mem) :
  strstr cmdline (bytes_of_string "initrd=") = Some p ->
  alloc_image_svc (world st) = (Some img, w1) ->
  imgfetch_svc img (initrd_token cmdline p) (memory st) w1 = ((rc, m2), w2) ->
  rc <> 0 ->
  exists buf st',
    comboot_fetch_kernel kernel_file cmdline st = Ok (rc, buf) st'
    /\ trace st' = trace st ++
         [EvAllocImage (Some img); EvImgfetch img (initrd_token cmdline p) rc;
          EvImagePut None; EvImagePut (Some img)]
    /\ comboot_replacement_image st' = comboot_replacement_image st
    /\ (forall e, strchr cmdline (p + 7) 32 = Some e ->
          nth_error cmdline e = Some 32 /\ nth_error buf e = Some 0)
    /\ memory st' = m2.
Proof.
  intros Hstr Halloc Hfetch Hrc.
  assert (Hinit :
    fetch_initrd cmdline st =
    Ok (inl (rc, Some img,
             match strchr cmdline (p + 7) 32 with
             | Some e => poke cmdline e 0
             | None => cmdline
             end))
       (with_world w2 (EvImgfetch img (initrd_token cmdline p) rc)
          (with_memory m2 (with_world w1 (EvAllocImage (Some img)) st)))).
  { unfold fetch_initrd. rewrite Hstr. cbv zeta.
    rewrite initrd_file_is_token.
    unfold bind, alloc_image, ask. rewrite Halloc.
    unfold imgfetch. cbn [world memory with_world with_memory]. rewrite Hfetch.
    now replace (rc =? 0) with false by (symmetry; now apply Z.eqb_neq). }
  unfold comboot_fetch_kernel. rewrite (bind_ok _ _ _ _ _ Hinit).
  unfold fetch_out, bind, image_put, tell, ret.
  do 2 eexists. split; [reflexivity|].
  cbn [trace with_world with_memory comboot_replacement_image].
  rewrite <- !app_assoc. split; [reflexivity|]. split; [reflexivity|].
  split; [|reflexivity].
  intros e He. rewrite He.
  pose proof (strchr_nth _ _ _ _ He) as Hsp.
  split; [exact Hsp | eapply nth_error_poke; exact Hsp].
Qed.

Lemma fetch_kernel_code (kernel_file cmdline : list Z) st (rc : Z)
    (k : option image) st' :
  ENOMEM <> 0 ->
  fetch_kernel kernel_file cmdline st = Ok (rc, k) st' ->
  (rc = 0 /\ comboot_replacement_image st = None
   /\ exists img, comboot_replacement_image st' = Some img)
  \/ (rc <> 0
      /\ comboot_replacement_image st' = comboot_replacement_image st).
Proof.
  intros Henomem.
  unfold fetch_kernel. unfold bind at 1. unfold alloc_image, ask.
  destruct (alloc_image_svc (world st)) as [[img|] w1].
  2:{ unfold ret. intros [= <- _ <-]. right. split; [lia | reflexivity]. }
  unfold bind at 1. unfold imgfetch. cbn [world memory with_world with_memory].
  destruct (imgfetch_svc img (c_str kernel_file) _ w1) as [[rc1 m2] w2].
  destruct (Z.eqb_spec rc1 0) as [->|Hrc1]; cbn [negb].
  2:{ unfold ret. intros [= <- _ <-]. right. split; [assumption | reflexivity]. }
  unfold bind at 1. unfold image_set_cmdline, ask. cbn [world with_world with_memory].
  destruct (image_set_cmdline_svc img (c_str cmdline) w2) as [rc2 w3].
  destruct (Z.eqb_spec rc2 0) as [->|Hrc2]; cbn [negb].
  2:{ unfold ret. intros [= <- _ <-]. right. split; [assumption | reflexivity]. }
  unfold bind at 1. unfold get. cbv beta iota.
  cbn [comboot_replacement_image with_world with_memory].
  destruct (comboot_replacement_image st) as [k0|];
    unfold bind, assert, fatal, ret, image_get, tell, modify;
    [discriminate|].
  intros [= <- _ <-]. left. split; [reflexivity|]. split; [reflexivity|].
  now exists img.
Qed.

Lemma fetch_initrd_code (cmdline : list Z) st (rc : Z) (i : option image)
    (buf : list Z) st' :
  ENOMEM <> 0 ->
  fetch_initrd cmdline st = Ok (inl (rc, i, buf)) st' -> rc <> 0.
Proof.
  intros Henomem. unfold fetch_initrd.
  destruct (strstr cmdline (bytes_of_string "initrd=")) as [p|];
    [|unfold ret; discriminate].
  unfold bind, alloc_image, ask.
  destruct (alloc_image_svc (world st)) as [[img|] w1].
  - unfold imgfetch. cbn [world memory with_world with_memory].
    match goal with
    | |- context [imgfetch_svc ?i ?n ?m ?w] =>
        destruct (imgfetch_svc i n m w) as [[rc1 m2] w2]
    end.
    destruct (Z.eqb_spec rc1 0) as [->|Hrc1]; cbn [negb]; unfold ret;
      [discriminate|].
    now intros [= <- _ _ _].
  - unfold ret. intros [= <- _ _ _]. lia.
Qed.

(** X11: the return code of [comboot_fetch_kernel] tells whether the kernel
    was stored (given that [ENOMEM] is not zero): it is 0 exactly when the
    replacement image, empty before, now holds an image, and then the
    caller's command line array is as it was passed in; with any other code
    the replacement image is unchanged. *)
Theorem comboot_fetch_kernel_return_code (kernel_file cmdline : list Z) st
    (rc : Z) (buf : list Z) st' :
  ENOMEM <> 0 ->
  comboot_fetch_kernel kernel_file cmdline st = Ok (rc, buf) st' ->
  (rc = 0 ->
   comboot_replacement_image st = None
   /\ (exists img, comboot_replacement_image st' = Some img)
   /\ buf = cmdline)
  /\ (rc <> 0 ->
      comboot_replacement_image st' = comboot_replacement_image st).
Proof.
  intros Henomem. unfold comboot_fetch_kernel.
  destruct (fetch_initrd_spec cmdline st)
    as (r & s1 & evs1 & Hr & _ & Himg1 & _).
  rewrite (bind_ok _ _ _ _ _ Hr).
  destruct r as [[[rc1 initrd] buf1] | [initrd buf1]].
  - pose proof (fetch_initrd_code _ _ _ _ _ _ Henomem Hr) as Hrc1.
    destruct (fetch_out_spec None initrd rc1 buf1 s1)
      as (s2 & Hout & _ & Himg2).
    rewrite Hout. intros [= <- <- <-].
    split; [contradiction | congruence].
  - pose proof (fetch_initrd_restores _ _ _ _ _ Hr) as ->.
    unfold bind at 1.
    destruct (fetch_kernel kernel_file cmdline s1) as [[rc2 k] s2| | | |] eqn:Hk;
      try discriminate.
    destruct (fetch_out_spec k initrd rc2 cmdline s2)
      as (s3 & Hout & _ & Himg3).
    cbn [fst snd]. rewrite Hout. intros [= <- <- <-].
    destruct (fetch_kernel_code _ _ _ _ _ _ Henomem Hk)
      as [(-> & Hnone & img & Himg) | (Hrc2 & Himg)].
    + split; [|contradiction]. intros _.
      split; [congruence|]. split; [|reflexivity].
      exists img. congruence.
    + split; [contradiction | congruence].
Qed.

(** ** What the handlers leave alone *)

Lemma keeps_bind {A B C : Type} (proj : state (W := W) -> C)
    (m : M (W := W) A) (k : A -> M (W := W) B) :
  keeps proj m -> (forall a, keeps proj (k a)) -> keeps proj (bind m k).
Proof.
  intros Hm Hk s. specialize (Hm s). unfold bind.
  destruct (m s) as [a s'| | | |]; cbn in *; try assumption.
  specialize (Hk a s'). destruct (k a s'); cbn in *; congruence.
Qed.

(** A step of the model that is not a loop. *)
Ltac keeps_prim :=
  let s := fresh "s" in
  intros s;
  cbv beta delta [ret get regs_now update modify longjmp lret fatal
                  out_of_fuel assert ask tell copy_to_local do_strlen_user
                  copy_descriptors do_memset_user do_memmove_user
                  pxe_api_call];
  repeat (match goal with
          | |- context [final_state (match ?x with _ => _ end)] => destruct x
          | |- context [final_state ((match ?x with _ => _ end) _)] =>
              destruct x
          end; cbv beta iota);
  first [exact I | reflexivity].

Ltac keeps_step :=
  first
    [ solve [auto]
    | apply keeps_bind; [|intro]
    | match goal with
      | |- keeps _ (when ?b _) => unfold when; destruct b
      | |- keeps _ (if ?b then _ else _) => destruct b
      | |- keeps _ (match ?x with _ => _ end) => destruct x
      end
    | solve [keeps_prim] ].

Lemma keeps_print_user_string_loop {C : Type} (proj : state (W := W) -> C) :
  (forall w e s, proj (with_world w e s) = proj s) ->
  forall (fuel : nat) (str terminator i : Z),
    keeps proj (print_user_string_loop fuel str terminator i).
Proof.
  intros Hworld. induction fuel as [|fuel IH]; intros str terminator i;
    cbn [print_user_string_loop]; [keeps_prim|].
  apply keeps_bind; [keeps_prim|]. intros c.
  destruct (as_char (nth 0 c 0) =? terminator); [keeps_prim|].
  apply keeps_bind; [|intros _; apply IH].
  intros s. unfold putchar, tell. cbn [final_state]. apply Hworld.
Qed.

(** X12: [int21] never writes memory, the graphics mode or the replacement
    image, and of the register context it leaves the segment registers and
    [edi], [esi], [ebp] and [esp] as they were, whatever the selector and
    however the call ends. *)
Theorem int21_leaves_alone (fuel : nat) st :
  match final_state (int21 fuel st) with
  | Some st' => int21_frame st' = int21_frame st
  | None => True
  end.
Proof.
  revert st. change (keeps int21_frame (int21 fuel)).
  pose proof (keeps_print_user_string_loop int21_frame
                (fun _ _ _ => eq_refl)) as Hloop.
  unfold int21, set_carry, clear_carry, getchar, putchar, serial_putc, iskey,
    print_user_string.
  repeat keeps_step.
Qed.

(** A selector that is not in a list of selectors. *)
Ltac not_selector sel Hnot k :=
  let E := fresh "E" in
  destruct (Z.eqb_spec sel k) as [E|_];
  [exfalso; apply Hnot; rewrite E; cbn; tauto|].

(** From a run of [int22] to a statement about the body of its
    [switch]. *)
Ltac to_switch_body st proj :=
  change (proj st) with (proj (carry_set st));
  let r := fresh "r" in
  let Hr := fresh "Hr" in
  remember (ix86 (carry_set st)) as r eqn:Hr; clear Hr;
  let s := fresh "s" in
  generalize (carry_set st) as s; intros s;
  match goal with
  | |- match final_state (?m s) with _ => _ end =>
      revert s; change (keeps proj m)
  end.

(** X13: under every selector of [int22] other than the five under which
    memory is written (Run Command, Read File, Call PXE Stack, Cleanup
    Shuffle and Boot, Run Kernel Image), recognised or not, the handler
    leaves memory and the replacement image as they were, and the graphics
    mode too unless the selector is Force Text Mode or Report Video Mode
    Change, however the call ends. *)
Theorem int22_writers (fuel : nat) st :
  ~ In (ax (ix86 st)) int22_memory_writers ->
  match final_state (int22 fuel st) with
  | Some st' =>
      memory st' = memory st
      /\ comboot_replacement_image st' = comboot_replacement_image st
      /\ (~ In (ax (ix86 st)) int22_mode_writers ->
          comboot_graphics_mode st' = comboot_graphics_mode st)
  | None => True
  end.
Proof.
  intros Hnot.
  assert (Hframe : match final_state (int22 fuel st) with
                   | Some st' => int22_frame st' = int22_frame st
                   | None => True
                   end).
  { enter_handler st.
    not_selector (ax (ix86 st)) Hnot 0x0003.
    not_selector (ax (ix86 st)) Hnot 0x0007.
    not_selector (ax (ix86 st)) Hnot 0x0009.
    not_selector (ax (ix86 st)) Hnot 0x0012.
    not_selector (ax (ix86 st)) Hnot 0x0016.
    to_switch_body st (int22_frame (W := W)).
    pose proof (keeps_print_user_string_loop (int22_frame (W := W))
                  (fun _ _ _ => eq_refl)) as Hloop.
    unfold set_carry, clear_carry, print_user_string, open, fsize,
      select, close, shutdown, step, comboot_resolv,
      comboot_force_text_mode, int10.
    repeat keeps_step. }
  assert (Hmode : ~ In (ax (ix86 st)) int22_mode_writers ->
                  match final_state (int22 fuel st) with
                  | Some st' =>
                      comboot_graphics_mode st' = comboot_graphics_mode st
                  | None => True
                  end).
  { intros Hnot'. enter_handler st.
    not_selector (ax (ix86 st)) Hnot 0x0003.
    not_selector (ax (ix86 st)) Hnot 0x0007.
    not_selector (ax (ix86 st)) Hnot 0x0009.
    not_selector (ax (ix86 st)) Hnot 0x0012.
    not_selector (ax (ix86 st)) Hnot 0x0016.
    not_selector (ax (ix86 st)) Hnot' 0x0005.
    not_selector (ax (ix86 st)) Hnot' 0x0017.
    to_switch_body st (comboot_graphics_mode (W := W)).
    pose proof (keeps_print_user_string_loop (comboot_graphics_mode (W := W))
                  (fun _ _ _ => eq_refl)) as Hloop.
    unfold set_carry, clear_carry, print_user_string, open, fsize,
      select, close, shutdown, step, comboot_resolv.
    repeat keeps_step. }
  destruct (final_state (int22 fuel st)) as [st'|]; [|exact I].
  injection Hframe as Hmem Himg. auto.
Qed.

(** ** Strings handed to the handlers *)

Lemma strlen_user_counts (m : mem) (a : Z) (bs : list Z) :
  forall (off : Z) (fuel : nat),
    copy_from_user m a off (Z.of_nat (length bs)) = bs ->
    forallb (fun b => negb (b =? 0)) bs = true ->
    m (a + off + Z.of_nat (length bs)) = 0 ->
    (length bs < fuel)%nat ->
    strlen_user fuel m a off = Some (Z.of_nat (length bs)).
Proof.
  induction bs as [|b bs IH]; intros off fuel Hbs Hnz Hend Hfuel;
    (destruct fuel as [|fuel]; [cbn in Hfuel; lia|]); cbn [strlen_user].
  - cbn [length Z.of_nat] in Hend. rewrite Z.add_0_r in Hend.
    now rewrite Hend.
  - cbn [length] in Hbs, Hend, Hfuel. rewrite copy_from_user_succ in Hbs.
    injection Hbs as Hb Hbs.
    cbn [forallb] in Hnz. apply andb_true_iff in Hnz as [Hb' Hnz].
    apply negb_true_iff in Hb'. rewrite Hb, Hb'.
    rewrite (IH (off + 1) fuel); try assumption; try lia.
    + cbn [option_map length]. f_equal. lia.
    + rewrite <- Hend. f_equal. lia.
Qed.

Lemma copy_from_user_snoc (m : mem) (a off : Z) (n : nat) :
  copy_from_user m a off (Z.of_nat n + 1) =
  copy_from_user m a off (Z.of_nat n) ++ [m (a + off + Z.of_nat n)].
Proof.
  unfold copy_from_user.
  replace (Z.to_nat (Z.of_nat n + 1)) with (S n) by lia.
  rewrite Nat2Z.id, seq_S, map_app. reflexivity.
Qed.

Lemma c_str_terminated (bs rest : list Z) :
  forallb (fun b => negb (b =? 0)) bs = true ->
  c_str (bs ++ 0 :: rest) = bs.
Proof.
  induction bs as [|b bs IH]; intros Hnz; [reflexivity|].
  cbn [forallb] in Hnz. apply andb_true_iff in Hnz as [Hb Hnz].
  apply negb_true_iff in Hb. cbn [app c_str]. rewrite Hb. now rewrite IH.
Qed.

(** Measuring and copying a string that memory holds. *)
Lemma read_string (fuel : nat) (a : Z) (bs : list Z) st :
  string_at (memory st) a bs 0 ->
  (length bs < fuel)%nat ->
  do_strlen_user fuel a 0 st = Ok (Z.of_nat (length bs)) st
  /\ copy_from_user (memory st) a 0 (Z.of_nat (length bs) + 1) = bs ++ [0]
  /\ c_str (bs ++ [0]) = bs.
Proof.
  intros (Hbs & Hnz & Hend) Hfuel. split; [|split].
  - unfold do_strlen_user.
    rewrite (strlen_user_counts _ _ bs); try assumption; [reflexivity|].
    now rewrite Z.add_0_r.
  - rewrite copy_from_user_snoc, Hbs, Z.add_0_r, Hend. reflexivity.
  - now apply c_str_terminated.
Qed.

Lemma testbit_0xFFFF (n : Z) : 0 <= n -> Z.testbit 0xFFFF n = (n <? 16).
Proof.
  intros Hn. change 0xFFFF with (Z.ones 16).
  apply Z.testbit_ones_nonneg; lia.
Qed.

Lemma lo16_set_lo16 (x v : Z) : lo16 (set_lo16 x v) = lo16 v.
Proof.
  unfold lo16, set_lo16. apply Z.bits_inj'. intros n Hn.
  rewrite !Z.land_spec, Z.lor_spec, Z.ldiff_spec, Z.land_spec.
  rewrite testbit_0xFFFF by assumption.
  destruct (n <? 16), (Z.testbit x n), (Z.testbit v n); reflexivity.
Qed.

Lemma lo16_small (x : Z) : 0 <= x < 2 ^ 16 -> lo16 x = x.
Proof.
  intros Hx. unfold lo16. change 0xFFFF with (Z.ones 16).
  rewrite Z.land_ones by lia. now apply Z.mod_small.
Qed.

(** ** The file functions *)

(** X14: Open File on a non-empty name.  When [open] fails the handler
    returns with the carry flag set and the registers otherwise as on
    entry.  When it succeeds the handler returns the descriptor in [si],
    the block size in [cx] and the file size in [eax], with the carry flag
    clear; memory is not written. *)
Theorem int22_open_file (fuel : nat) st (name : list Z) (fd : Z) (w1 : W) :
  ax (ix86 st) = 0x0006 ->
  string_at (memory st)
    (real_to_user (es (segs (ix86 st))) (si (ix86 st))) name 0 ->
  name <> [] ->
  (length name < fuel)%nat ->
  open_svc name (world st) = (fd, w1) ->
  (fd < 0 ->
   int22 fuel st = Ok tt (with_world w1 (EvOpen name fd) (carry_set st)))
  /\ (0 <= fd ->
      forall (sz : Z) (w2 : W),
        fsize_svc fd w1 = (sz, w2) ->
        exists st',
          int22 fuel st = Ok tt st'
          /\ si (ix86 st') = lo16 fd
          /\ cx (ix86 st') = lo16 COMBOOT_FILE_BLOCKSZ
          /\ eax (regs (ix86 st')) = u32 sz
          /\ Z.land (flags (ix86 st')) CF = 0
          /\ trace st' = trace st ++ [EvOpen name fd; EvFsize fd sz]
          /\ memory st' = memory st).
Proof.
  intros Hax Hname Hne Hfuel Hopen.
  destruct (read_string fuel _ name (carry_set st) Hname Hfuel)
    as (Hlen & Hcopy & Hstr).
  assert (Hhead : (nth 0 (name ++ [0]) 0 =? 0) = false).
  { destruct name as [|b name]; [contradiction|].
    destruct Hname as (_ & Hnz & _). cbn [forallb] in Hnz.
    apply andb_true_iff in Hnz as [Hb _]. now apply negb_true_iff in Hb. }
  assert (Hrun : int22 fuel st =
    bind (open name)
      (fun fd =>
         if fd <? 0 then ret tt
         else bind (update (set_si fd))
                (fun _ => bind (update (set_cx COMBOOT_FILE_BLOCKSZ))
                   (fun _ => bind (fsize fd)
                      (fun sz => bind (update (set_eax sz))
                         (fun _ => clear_carry)))))
      (carry_set st)).
  { enter_handler st. rewrite Hax. cbn [Z.eqb Pos.eqb].
    change (si (ix86 (carry_set st))) with (si (ix86 st)).
    change (segs (ix86 (carry_set st))) with (segs (ix86 st)).
    rewrite (bind_ok _ _ _ _ _ Hlen).
    erewrite bind_ok by (apply copy_to_local_fits; lia).
    now rewrite Hcopy, Hhead, Hstr. }
  assert (Hopen' : open name (carry_set st) =
                   Ok fd (with_world w1 (EvOpen name fd) (carry_set st))).
  { unfold open, ask. change (world (carry_set st)) with (world st).
    now rewrite Hopen. }
  rewrite Hrun, (bind_ok _ _ _ _ _ Hopen').
  split.
  - intros Hneg. now replace (fd <? 0) with true
      by (symmetry; apply Z.ltb_lt; lia).
  - intros Hpos sz w2 Hsize.
    replace (fd <? 0) with false by (symmetry; apply Z.ltb_ge; lia).
    unfold bind, update, fsize, ask, clear_carry.
    cbn [world with_world with_ix86 ix86]. rewrite Hsize.
    eexists. split; [reflexivity|].
    cbn [ix86 with_ix86 with_world trace memory carry_set].
    split; [unfold si, set_eax, set_cx, set_si; cbn; apply lo16_set_lo16|].
    split; [unfold cx, set_eax, set_cx, set_si; cbn; apply lo16_set_lo16|].
    split; [reflexivity|]. split; [apply carry_cleared|].
    split; [now rewrite <- app_assoc | reflexivity].
Qed.

(** X15: Read File waits on the descriptor in [si], then asks for
    [cx * COMBOOT_FILE_BLOCKSZ] bytes at ES:BX.  A negative result gives
    failure: the carry flag stays set, [si] is zeroed and [ecx] is as on
    entry.  Any other result is returned in [ecx] with the carry flag
    clear and [esi] as on entry. *)
Theorem int22_read_file (fuel : nat) st (rc : Z) (data : list Z) (w' : W) :
  let fd := si (ix86 st) in
  let len := cx (ix86 st) * COMBOOT_FILE_BLOCKSZ in
  let buf := real_to_user (es (segs (ix86 st))) (bx (ix86 st)) in
  ax (ix86 st) = 0x0007 ->
  read_user_svc fd len (effect (EvSelect fd) (world st)) = ((rc, data), w') ->
  exists st',
    int22 fuel st = Ok tt st'
    /\ trace st' = trace st ++ [EvSelect fd; EvReadUser fd buf len rc]
    /\ memory st' = store_bytes (memory st) buf data
    /\ (rc < 0 ->
        si (ix86 st') = 0
        /\ Z.land (flags (ix86 st')) CF = CF
        /\ ecx (regs (ix86 st')) = ecx (regs (ix86 st)))
    /\ (0 <= rc ->
        ecx (regs (ix86 st')) = u32 rc
        /\ Z.land (flags (ix86 st')) CF = 0
        /\ esi (regs (ix86 st')) = esi (regs (ix86 st))).
Proof.
  intros fd len buf Hax Hread.
  assert (Hrun : int22 fuel st =
    bind (select fd)
      (fun _ => bind (read_user fd buf 0 len)
         (fun rc => if rc <? 0 then update (set_si 0)
                    else bind (update (set_ecx rc)) (fun _ => clear_carry)))
      (carry_set st)).
  { enter_handler st. rewrite Hax. cbn [Z.eqb Pos.eqb]. reflexivity. }
  rewrite Hrun. unfold bind at 1. unfold select, tell.
  unfold bind at 1. unfold read_user. unfold bind at 1. unfold ask.
  cbn [world with_world carry_set with_ix86]. rewrite Hread.
  unfold bind at 1. unfold modify, ret. cbn [fst snd].
  destruct (Z.ltb_spec rc 0) as [Hneg|Hpos].
  - unfold update. eexists. split; [reflexivity|].
    cbn [trace memory ix86 with_world with_memory with_ix86].
    rewrite <- app_assoc, Z.add_0_r.
    split; [reflexivity|]. split; [reflexivity|].
    split; [|intros; lia]. intros _.
    split; [unfold si, set_si; cbn; apply lo16_set_lo16|].
    split; [apply carry_stays_set | reflexivity].
  - unfold bind, update, clear_carry. eexists. split; [reflexivity|].
    cbn [trace memory ix86 with_world with_memory with_ix86].
    rewrite <- app_assoc, Z.add_0_r.
    split; [reflexivity|]. split; [reflexivity|].
    split; [intros; lia|]. intros _.
    split; [reflexivity|]. split; [apply carry_cleared | reflexivity].
Qed.

(** X16: Call PXE Stack always reports success: the PXE service is handed
    the register context with the carry flag set, and whatever it leaves in
    the registers - the carry flag included - and in memory, the handler
    returns with the carry flag clear and everything else as the service
    left it. *)
Theorem int22_pxe_always_succeeds (fuel : nat) st (r' : i386_all_regs)
    (m' : mem) (w' : W) :
  ax (ix86 st) = 0x0009 ->
  pxe_api_call_svc (ix86 (carry_set st)) (memory st) (world st)
    = ((r', m'), w') ->
  exists st',
    int22 fuel st = Ok tt st'
    /\ Z.land (flags (ix86 st')) CF = 0
    /\ regs (ix86 st') = regs r'
    /\ segs (ix86 st') = segs r'
    /\ flags (ix86 st') = Z.ldiff (flags r') CF
    /\ memory st' = m'
    /\ trace st' = trace st ++ [EvPxeApiCall].
Proof.
  intros Hax Hpxe.
  assert (Hrun : int22 fuel st =
                 bind pxe_api_call (fun _ => clear_carry) (carry_set st)).
  { enter_handler st. rewrite Hax. cbn [Z.eqb Pos.eqb]. reflexivity. }
  rewrite Hrun. unfold bind, pxe_api_call.
  change (memory (carry_set st)) with (memory st).
  change (world (carry_set st)) with (world st). rewrite Hpxe.
  unfold clear_carry, update. eexists. split; [reflexivity|].
  cbn [ix86 with_ix86 with_world with_memory flags regs segs set_flags
       memory trace carry_set].
  split; [apply carry_cleared|]. repeat split.
Qed.

(** ** Keyboard *)

(** X17: Get Key, with or without echo, for every character: [al] receives
    the low byte of what [getchar] returned, with line feed replaced by
    carriage return; the rest of [eax] and the other registers are as on
    entry; the carry flag is clear; with echo the byte written is the one
    returned in [al], without echo nothing is written. *)
Theorem get_key_returns_character (fuel : nat) st (c : Z) (w' : W) :
  ah (ix86 st) = 0x01 \/ ah (ix86 st) = 0x08 ->
  getchar_svc (world st) = (c, w') ->
  let key := if lo8 c =? 0x0A then 0x0D else lo8 c in
  exists st',
    int21 fuel st = Ok tt st'
    /\ al (ix86 st') = key
    /\ Z.shiftr (eax (regs (ix86 st'))) 8 = Z.shiftr (eax (regs (ix86 st))) 8
    /\ with_eax 0 (regs (ix86 st')) = with_eax 0 (regs (ix86 st))
    /\ Z.land (flags (ix86 st')) CF = 0
    /\ trace st' = trace st ++ EvGetchar c ::
         if ah (ix86 st) =? 0x01 then [EvPutchar key] else [].
Proof.
  intros Hah Hget key.
  assert (Hkey : lo8 key = key).
  { unfold key. destruct (lo8 c =? 0x0A); [reflexivity|].
    unfold lo8. now rewrite <- Z.land_assoc. }
  assert (Hhigh : forall x v,
             Z.shiftr (set_lo8 x v) 8 = Z.shiftr x 8).
  { intros x v. unfold set_lo8. apply Z.bits_inj'. intros n Hn.
    rewrite !Z.shiftr_spec, Z.lor_spec, Z.ldiff_spec, Z.land_spec by lia.
    rewrite (testbit_0xFF (n + 8)) by lia.
    replace (n + 8 <? 8) with false by (symmetry; apply Z.ltb_ge; lia).
    cbn [negb]. now rewrite andb_true_r, andb_false_r, orb_false_r. }
  enter_handler st.
  assert (Hsel : ((ah (ix86 st) =? 0) || (ah (ix86 st) =? 76) = false)
                 /\ ((ah (ix86 st) =? 1) || (ah (ix86 st) =? 8) = true)).
  { destruct Hah as [-> | ->]; split; reflexivity. }
  destruct Hsel as [-> ->].
  unfold bind at 1. unfold getchar at 1, ask.
  change (world (carry_set st)) with (world st). rewrite Hget.
  unfold bind at 1. unfold update at 1.
  unfold bind at 1. unfold regs_now at 1.
  cbn [ix86 with_ix86 with_world].
  rewrite al_set_al.
  assert (Hal : exists r2,
    forall (k : unit -> M (W := W) unit) s,
      ix86 s = set_al c (ix86 (carry_set st)) ->
      bind (when (lo8 c =? 0x0A) (update (set_al 0x0D))) k s =
      k tt (with_ix86 r2 s)
    /\ al r2 = key /\ ah r2 = ah (ix86 st)
    /\ Z.shiftr (eax (regs r2)) 8 = Z.shiftr (eax (regs (ix86 st))) 8
    /\ with_eax 0 (regs r2) = with_eax 0 (regs (ix86 st))
    /\ flags r2 = flags (ix86 (carry_set st))).
  { unfold key. destruct (lo8 c =? 0x0A) eqn:Hlf.
    - exists (set_al 0x0D (set_al c (ix86 (carry_set st)))).
      intros k s Hs. unfold bind, when, update. rewrite Hs.
      split; [reflexivity|]. split; [apply al_set_al|].
      split; [now rewrite !ah_set_al|].
      split; [unfold set_al; cbn [regs set_regs eax with_eax];
              now rewrite !Hhigh|].
      split; reflexivity.
    - exists (set_al c (ix86 (carry_set st))).
      intros k s Hs. unfold bind, when, ret.
      split; [f_equal; destruct s; cbn in *; now subst|].
      split; [apply al_set_al|]. split; [now rewrite ah_set_al|].
      split; [unfold set_al; cbn [regs set_regs eax with_eax];
              now rewrite Hhigh|].
      split; reflexivity. }
  destruct Hal as (r2 & Hal).
  match goal with
  | |- exists st', bind _ ?k ?s = _ /\ _ =>
      destruct (Hal k s eq_refl) as (Hstep & Hal2 & Hah2 & Hhi2 & Hrest2 & Hfl2);
      rewrite Hstep
  end.
  unfold bind at 1. unfold regs_now at 1. cbn [ix86 with_ix86].
  rewrite Hah2, Hal2.
  destruct Hah as [Hah | Hah]; rewrite Hah; cbn [Z.eqb Pos.eqb when].
  - unfold bind, putchar, tell, clear_carry, update.
    eexists. split; [reflexivity|].
    cbn [ix86 with_ix86 with_world flags regs set_flags trace carry_set].
    split; [exact Hal2|]. split; [exact Hhi2|]. split; [exact Hrest2|].
    split; [apply carry_cleared|]. now rewrite <- app_assoc.
  - unfold bind, ret, clear_carry, update.
    eexists. split; [reflexivity|].
    cbn [ix86 with_ix86 with_world flags regs set_flags trace carry_set].
    split; [exact Hal2|]. split; [exact Hhi2|]. split; [exact Hrest2|].
    split; [apply carry_cleared|]. reflexivity.
Qed.

(** ** Querying the limit and using it *)

(** X18: Maximum Number of Shuffle Descriptors returns the limit in [cx]
    with the carry flag clear, and - the limit fitting 16 bits - a Cleanup,
    Shuffle and Boot request for exactly that many descriptors is not
    turned away: it goes on to [shutdown] and does not return. *)
Theorem max_descriptors_is_accepted (fuel : nat) st :
  ax (ix86 st) = 0x0011 ->
  exists st1,
    int22 fuel st = Ok tt st1
    /\ cx (ix86 st1) = lo16 COMBOOT_MAX_SHUFFLE_DESCRIPTORS
    /\ Z.land (flags (ix86 st1)) CF = 0
    /\ (COMBOOT_MAX_SHUFFLE_DESCRIPTORS < 2 ^ 16 ->
        cx (ix86 st1) = COMBOOT_MAX_SHUFFLE_DESCRIPTORS
        /\ forall (fuel' : nat) st2,
             ax (ix86 st2) = 0x0012 ->
             cx (ix86 st2) = cx (ix86 st1) ->
             match int22 fuel' st2 with
             | Boot _ s | Fatal _ s =>
                 exists evs,
                   trace s = trace st2 ++ EvShutdown SHUTDOWN_BOOT :: evs
             | OutOfFuel => True
             | Ok _ _ | Exit _ _ => False
             end).
Proof.
  intros Hax.
  assert (Hrun : int22 fuel st =
    bind (update (set_cx COMBOOT_MAX_SHUFFLE_DESCRIPTORS))
      (fun _ => clear_carry) (carry_set st)).
  { enter_handler st. rewrite Hax. cbn [Z.eqb Pos.eqb]. reflexivity. }
  rewrite Hrun. unfold bind, update, clear_carry.
  eexists. split; [reflexivity|].
  cbn [ix86 with_ix86 flags set_flags].
  assert (Hcx : cx (set_flags
                      (Z.ldiff (flags (set_cx COMBOOT_MAX_SHUFFLE_DESCRIPTORS
                                         (ix86 (carry_set st)))) CF)
                      (set_cx COMBOOT_MAX_SHUFFLE_DESCRIPTORS
                         (ix86 (carry_set st))))
                = lo16 COMBOOT_MAX_SHUFFLE_DESCRIPTORS).
  { unfold cx, set_cx. cbn [regs set_flags set_regs ecx with_ecx].
    apply lo16_set_lo16. }
  split; [exact Hcx|]. split; [apply carry_cleared|].
  intros Hfit. pose proof max_descriptors_range as Hrange.
  rewrite Hcx, lo16_small by lia. split; [reflexivity|].
  intros fuel' st2 Hax2 Hcx2.
  pose proof (cleanup_shuffle_boot_outcome fuel' st2 Hax2) as Hboot.
  rewrite Hcx2 in Hboot. specialize (Hboot (Z.le_refl _)).
  destruct (int22 fuel' st2); try exact Hboot.
  - destruct Hboot as (_ & evs & Htr & _). now exists evs.
  - destruct Hboot as (evs & Htr & _). now exists evs.
Qed.

(** ** Running a command *)

(** X19: Run Command passes the string at ES:BX, up to its terminating NUL,
    to [system] and then leaves through [longjmp ( comboot_return,
    COMBOOT_EXIT_COMMAND )]: it never returns to its caller, the carry flag
    is still set, nothing else has been called, and memory and the world
    are as the command left them. *)
Theorem int22_run_command (fuel : nat) st (cmd : list Z) :
  ax (ix86 st) = 0x0003 ->
  string_at (memory st)
    (real_to_user (es (segs (ix86 st))) (bx (ix86 st))) cmd 0 ->
  (length cmd < fuel)%nat ->
  let r := system_svc cmd (memory st) (world st) in
  int22 fuel st =
  Exit COMBOOT_EXIT_COMMAND
    (with_world (snd r) (EvSystem cmd)
       (with_memory (fst r) (carry_set st))).
Proof.
  intros Hax Hcmd Hfuel.
  destruct (read_string fuel _ cmd (carry_set st) Hcmd Hfuel)
    as (Hlen & Hcopy & Hstr).
  enter_handler st. rewrite Hax. cbn [Z.eqb Pos.eqb].
  change (bx (ix86 (carry_set st))) with (bx (ix86 st)).
  change (segs (ix86 (carry_set st))) with (segs (ix86 st)).
  rewrite (bind_ok _ _ _ _ _ Hlen).
  erewrite bind_ok by (apply copy_to_local_fits; lia).
  rewrite Hcopy, Hstr. unfold bind, system.
  change (memory (carry_set st)) with (memory st).
  change (world (carry_set st)) with (world st).
  now destruct (system_svc cmd (memory st) (world st)) as [m w].
Qed.

(** ** Running a kernel *)

(** The calls the [initrd=] block makes: it sets no command line, and the
    one name it fetches is the text of the parameter. *)
Lemma fetch_initrd_events (cmdline : list Z) st :
  exists r st' evs,
    fetch_initrd cmdline st = Ok r st'
    /\ trace st' = trace st ++ evs
    /\ (forall img c rc, ~ In (EvImageSetCmdline img c rc) evs)
    /\ (forall img n rc,
          In (EvImgfetch img n rc) evs ->
          exists p,
            strstr cmdline (bytes_of_string "initrd=") = Some p
            /\ n = initrd_token cmdline p).
Proof.
  unfold fetch_initrd.
  destruct (strstr cmdline (bytes_of_string "initrd=")) as [p|].
  - cbv zeta. rewrite initrd_file_is_token.
    unfold bind, alloc_image, ask.
    destruct (alloc_image_svc (world st)) as [[img|] w1].
    + unfold imgfetch. cbn [world memory with_world with_memory].
      destruct (imgfetch_svc img (initrd_token cmdline p) _ w1)
        as [[rc m2] w2].
      destruct (rc =? 0); cbn [negb ret];
        do 2 eexists;
        exists [EvAllocImage (Some img);
                EvImgfetch img (initrd_token cmdline p) rc];
        (split; [reflexivity|]); cbn [trace with_world with_memory];
        rewrite <- app_assoc; (split; [reflexivity|]);
        (split; intros ? ? ? Hin; cbn [In] in Hin;
         [intuition congruence|]);
        exists p; intuition congruence.
    + do 2 eexists. exists [EvAllocImage None].
      split; [reflexivity|]. split; [reflexivity|].
      split; intros ? ? ? Hin; cbn [In] in Hin; intuition congruence.
  - do 2 eexists. exists []. split; [reflexivity|].
    rewrite app_nil_r. split; [reflexivity|].
    split; intros ? ? ? Hin; destruct Hin.
Qed.

(** What [comboot_fetch_kernel] passes to [image_set_cmdline] and to
    [imgfetch], however it ends. *)
Lemma comboot_fetch_kernel_events (kernel_file cmdline : list Z) st st' :
  final_state (comboot_fetch_kernel kernel_file cmdline st) = Some st' ->
  exists evs,
    trace st' = trace st ++ evs
    /\ (forall img c rc,
          In (EvImageSetCmdline img c rc) evs -> c = c_str cmdline)
    /\ (forall img n rc,
          In (EvImgfetch img n rc) evs ->
          n = c_str kernel_file
          \/ exists p,
               strstr cmdline (bytes_of_string "initrd=") = Some p
               /\ n = initrd_token cmdline p).
Proof.
  unfold comboot_fetch_kernel.
  destruct (fetch_initrd_events cmdline st)
    as (r & s1 & evs1 & Hr & Htr1 & Hcmd1 & Hfetch1).
  pose proof (fetch_initrd_restores cmdline st) as Hrestore.
  rewrite (bind_ok _ _ _ _ _ Hr).
  destruct r as [[[rc initrd] buf] | [initrd buf]].
  - destruct (fetch_out_spec None initrd rc buf s1)
      as (s2 & Hout & Htr2 & _).
    rewrite Hout. intros [= <-].
    exists (evs1 ++ [EvImagePut None; EvImagePut initrd]).
    split; [now rewrite Htr2, Htr1, <- app_assoc|].
    split; intros i x c Hin; apply in_app_or in Hin;
      destruct Hin as [Hin|Hin]; cbn [In] in Hin.
    + now apply Hcmd1 in Hin.
    + intuition congruence.
    + right. eapply Hfetch1; eassumption.
    + intuition congruence.
  - rewrite (Hrestore _ _ _ Hr) in *. clear Hrestore.
    pose proof (fetch_kernel_events kernel_file cmdline s1) as Hk.
    unfold bind at 1.
    destruct (fetch_kernel kernel_file cmdline s1) as [k s2|c s2|e2 s2|v s2|];
      cbn [final_state] in Hk; [| | | |discriminate].
    2-4: (intros [= <-];
          destruct (Hk s2 eq_refl) as (evs2 & Htr2 & Hcmd2 & Hfetch2);
          exists (evs1 ++ evs2);
          (split; [now rewrite Htr2, Htr1, <- !app_assoc|]);
          split; intros i x r Hin;
            apply in_app_or in Hin; destruct Hin as [Hin|Hin];
            [ now apply Hcmd1 in Hin
            | eapply Hcmd2; eassumption
            | right; eapply Hfetch1; eassumption
            | left; eapply Hfetch2; eassumption ]).
    destruct (Hk s2 eq_refl) as (evs2 & Htr2 & Hcmd2 & Hfetch2).
    destruct (fetch_out_spec (snd k) initrd (fst k) cmdline s2)
      as (s3 & Hout & Htr3 & _).
    rewrite Hout. intros [= <-].
    exists (evs1 ++ evs2 ++ [EvImagePut (snd k); EvImagePut initrd]).
    split; [now rewrite Htr3, Htr2, Htr1, <- !app_assoc|].
    split; intros i x r Hin;
      repeat (apply in_app_or in Hin; destruct Hin as [Hin|Hin]);
      cbn [In] in Hin.
    + now apply Hcmd1 in Hin.
    + eapply Hcmd2; eassumption.
    + intuition congruence.
    + right. eapply Hfetch1; eassumption.
    + left. eapply Hfetch2; eassumption.
    + intuition congruence.
Qed.

(** X20: Run Kernel Image works on the two strings as they are on entry.
    The kernel file name at DS:SI and the command line at ES:BX are copied
    before anything is fetched; so whatever the fetches write into memory,
    over the two strings included, every [imgfetch] is for the file name
    found on entry or for the text of the [initrd=] parameter of the
    command line found on entry, and every [image_set_cmdline] is passed
    that command line.  The handler then leaves through [longjmp (
    comboot_return, COMBOOT_EXIT_RUN_KERNEL )] or stops on the assertion of
    [comboot_fetch_kernel]; it does not return. *)
Theorem int22_run_kernel_strings (fuel : nat) st (file cmd : list Z) :
  ax (ix86 st) = 0x0016 ->
  string_at (memory st)
    (real_to_user (ds (segs (ix86 st))) (si (ix86 st))) file 0 ->
  string_at (memory st)
    (real_to_user (es (segs (ix86 st))) (bx (ix86 st))) cmd 0 ->
  (length file < fuel)%nat ->
  (length cmd < fuel)%nat ->
  exists st' evs,
    (int22 fuel st = Exit COMBOOT_EXIT_RUN_KERNEL st'
     \/ int22 fuel st = Fatal AssertionFailed st')
    /\ trace st' = trace st ++ evs
    /\ (forall img n rc,
          In (EvImgfetch img n rc) evs ->
          n = file
          \/ exists p,
               strstr (cmd ++ [0]) (bytes_of_string "initrd=") = Some p
               /\ n = initrd_token (cmd ++ [0]) p)
    /\ (forall img c rc, In (EvImageSetCmdline img c rc) evs -> c = cmd).
Proof.
  intros Hax Hfile Hcmd Hffuel Hcfuel.
  destruct (read_string fuel _ file (carry_set st) Hfile Hffuel)
    as (Hflen & Hfcopy & Hfstr).
  destruct (read_string fuel _ cmd (carry_set st) Hcmd Hcfuel)
    as (Hclen & Hccopy & Hcstr).
  assert (Hrun : int22 fuel st =
    bind (comboot_fetch_kernel (file ++ [0]) (cmd ++ [0]))
      (fun _ => longjmp COMBOOT_EXIT_RUN_KERNEL) (carry_set st)).
  { enter_handler st. rewrite Hax. cbn [Z.eqb Pos.eqb].
    change (bx (ix86 (carry_set st))) with (bx (ix86 st)).
    change (si (ix86 (carry_set st))) with (si (ix86 st)).
    change (segs (ix86 (carry_set st))) with (segs (ix86 st)).
    rewrite (bind_ok _ _ _ _ _ Hflen), (bind_ok _ _ _ _ _ Hclen).
    erewrite bind_ok by (apply copy_to_local_fits; lia).
    erewrite bind_ok by (apply copy_to_local_fits; lia).
    now rewrite Hfcopy, Hccopy. }
  pose proof (comboot_fetch_kernel_events (file ++ [0]) (cmd ++ [0])
                (carry_set st)) as Hev.
  rewrite Hfstr, Hcstr in Hev.
  assert (Hend : exists st',
    final_state (comboot_fetch_kernel (file ++ [0]) (cmd ++ [0])
                   (carry_set st)) = Some st'
    /\ (int22 fuel st = Exit COMBOOT_EXIT_RUN_KERNEL st'
        \/ int22 fuel st = Fatal AssertionFailed st')).
  { rewrite Hrun. unfold bind.
    destruct (comboot_fetch_kernel_spec (file ++ [0]) (cmd ++ [0])
                (carry_set st))
      as [a s' ? Hk | a s' ? ? Hk | s' ? Hk];
      rewrite Hk; exists s'; (split; [reflexivity|]);
      [left | left | right]; reflexivity. }
  destruct Hend as (st' & Hfin & Hout).
  destruct (Hev st' Hfin) as (evs & Htr & Hcmds & Hnames).
  exists st', evs. split; [exact Hout|].
  split; [exact Htr|]. split; assumption.
Qed.

End Further.

(** * The further properties on the sample configuration *)

Section FurtherRuns.

#[local] Existing Instance Sample.headers.
#[local] Existing Instance Sample.services.

Import Sample More.

Lemma print_user_string_prints_witness :
  let st := start 0 0 0 (store_bytes blank 0 [72; 0xE9; 36; 72]) quiet in
  print_user_string 5 0 0 36 st
    = Ok tt (tell_all (map EvPutchar [72; -23]) st)
  /\ trace (tell_all (map EvPutchar [72; -23]) st)
     = trace st ++ map EvPutchar [72; -23]
  /\ memory (tell_all (map EvPutchar [72; -23]) st) = memory st
  /\ ix86 (tell_all (map EvPutchar [72; -23]) st) = ix86 st.
Proof.
  apply (print_user_string_prints 5 0 0 36 [72; 0xE9]).
  - repeat split.
  - cbn. lia.
Defined.

Lemma print_user_string_needs_terminator_witness :
  print_user_string 100 0 0 36 (start 0 0 0 blank quiet) = OutOfFuel.
Proof.
  apply print_user_string_needs_terminator.
  intros k _. discriminate.
Defined.

Lemma shuffle_plain_list_in_order_witness :
  let st := start 0 0 0 plain_memory quiet in
  new_events st (shuffle 3 0x50 0 2 st)
  = Some [EvMemmove 0x3000 0x1000 4; EvMemset 0x4000 8].
Proof.
  cbv zeta.
  assert (Hcount : 0 <= 2 <= COMBOOT_MAX_SHUFFLE_DESCRIPTORS)
    by (vm_compute; split; discriminate).
  assert (Hplain : forall d,
    In d (load_descriptors (memory (start 0 0 0 plain_memory quiet))
            (real_to_user 0x50 0) 2) ->
    is_chain d = false).
  { intros d [<- | [<- | []]]; reflexivity. }
  destruct (shuffle_plain_list_in_order 0 0x50 0 2
              (start 0 0 0 plain_memory quiet) Hcount Hplain) as [Hrun Htr].
  change (shuffle 3 0x50 0 2 (start 0 0 0 plain_memory quiet))
    with (shuffle
            (length (load_descriptors
                       (memory (start 0 0 0 plain_memory quiet))
                       (real_to_user 0x50 0) 2) + 1)
            0x50 0 2 (start 0 0 0 plain_memory quiet)).
  rewrite Hrun. vm_compute. reflexivity.
Defined.

Lemma shuffle_self_chain_never_returns_witness :
  shuffle_loop 1000 [self_chain] 1 0 (start 0 0 0 self_chain_memory quiet)
  = OutOfFuel.
Proof.
  apply (shuffle_self_chain_never_returns 1000 [self_chain] 1 0 self_chain).
  - reflexivity.
  - reflexivity.
  - reflexivity.
  - vm_compute. split; discriminate.
  - vm_compute. reflexivity.
Defined.

Lemma cleanup_shuffle_boot_never_returns_witness :
  let st := mkState
              (mkAllRegs (mkSegs 0 0 0x1000 0x50 0 0)
                 (mkRegs 0 9 0x10000100 0 7 5 2 0x0012) 0)
              0 None plain_memory quiet [] in
  match int22 5 st with
  | Boot e st' =>
      e = mkEntry (ds (segs (ix86 st'))) (ebp (regs (ix86 st')))
            (ebx (regs (ix86 st'))) (esi (regs (ix86 st')))
      /\ exists evs,
           trace st' = trace st ++ EvShutdown SHUTDOWN_BOOT :: evs
           /\ forallb is_memory_op evs = true
  | Fatal _ st' =>
      exists evs,
        trace st' = trace st ++ EvShutdown SHUTDOWN_BOOT :: evs
        /\ forallb is_memory_op evs = true
  | OutOfFuel => True
  | Ok _ _ | Exit _ _ => False
  end.
Proof.
  apply cleanup_shuffle_boot_never_returns.
  - reflexivity.
  - vm_compute. discriminate.
Defined.

Lemma comboot_fetch_kernel_balances_references_witness :
  let st := start 0 0 0 blank quiet in
  let r := comboot_fetch_kernel (c_array "vmlinuz")
             (c_array example_cmdline) st in
  exists evs,
    trace (end_state st r) = trace st ++ evs
    /\ released evs = rev (allocated evs)
    /\ ((acquired evs = []
         /\ comboot_replacement_image (end_state st r)
            = comboot_replacement_image st)
        \/ (exists img,
              acquired evs = [img]
              /\ In img (allocated evs)
              /\ comboot_replacement_image (end_state st r) = Some img)).
Proof.
  cbv zeta.
  apply (comboot_fetch_kernel_balances_references (c_array "vmlinuz")
           (c_array example_cmdline) (start 0 0 0 blank quiet)
           (0, c_array example_cmdline)).
  vm_compute. reflexivity.
Defined.

Lemma comboot_fetch_kernel_fetches_witness :
  let st := start 0 0 0 blank quiet in
  let r := comboot_fetch_kernel (c_array "vmlinuz")
             (c_array plain_cmdline) st in
  exists evs,
    trace (end_state st r) = trace st ++ evs
    /\ (fetched evs = []
        \/ fetched evs = [c_str (c_array "vmlinuz")]).
Proof.
  cbv zeta.
  apply (comboot_fetch_kernel_fetches (c_array "vmlinuz")
           (c_array plain_cmdline) (start 0 0 0 blank quiet)).
  vm_compute. reflexivity.
Defined.

Lemma comboot_fetch_kernel_initrd_failure_witness :
  let st := start 0 0 0 blank (mkScript [] false) in
  exists buf st',
    comboot_fetch_kernel (c_array "vmlinuz") (c_array example_cmdline) st
    = Ok (-1, buf) st'
    /\ trace st' = trace st ++
         [EvAllocImage (Some 1);
          EvImgfetch 1 (initrd_token (c_array example_cmdline) 14) (-1);
          EvImagePut None; EvImagePut (Some 1)]
    /\ comboot_replacement_image st' = comboot_replacement_image st
    /\ (forall e, strchr (c_array example_cmdline) (14 + 7) 32 = Some e ->
          nth_error (c_array example_cmdline) e = Some 32
          /\ nth_error buf e = Some 0)
    /\ memory st' = blank.
Proof.
  cbv zeta.
  apply (comboot_fetch_kernel_initrd_failure (c_array "vmlinuz")
           (c_array example_cmdline)
           (start 0 0 0 blank (mkScript [] false)) 14 1
           (mkScript [] false) (mkScript [] false) (-1) blank).
  - vm_compute. reflexivity.
  - reflexivity.
  - reflexivity.
  - discriminate.
Defined.

Lemma comboot_fetch_kernel_return_code_witness :
  let st := start 0 0 0 blank quiet in
  let r := comboot_fetch_kernel (c_array "vmlinuz")
             (c_array example_cmdline) st in
  (0 = 0 ->
   comboot_replacement_image st = None
   /\ (exists img, comboot_replacement_image (end_state st r) = Some img)
   /\ c_array example_cmdline = c_array example_cmdline)
  /\ (0 <> 0 ->
      comboot_replacement_image (end_state st r)
      = comboot_replacement_image st).
Proof.
  cbv zeta.
  apply (comboot_fetch_kernel_return_code (c_array "vmlinuz")
           (c_array example_cmdline) (start 0 0 0 blank quiet)
           0 (c_array example_cmdline)).
  - discriminate.
  - vm_compute. reflexivity.
Defined.

Lemma int22_writers_witness :
  let st := start 0x0017 0x0005 0 blank quiet in
  match final_state (int22 5 st) with
  | Some st' =>
      memory st' = memory st
      /\ comboot_replacement_image st' = comboot_replacement_image st
      /\ (~ In (ax (ix86 st)) int22_mode_writers ->
          comboot_graphics_mode st' = comboot_graphics_mode st)
  | None => True
  end.
Proof.
  cbv zeta. apply int22_writers.
  vm_compute. intuition discriminate.
Defined.

Lemma int22_open_file_witness :
  let st := mkState (regs_of 0x0006 0 0 0x10 0) 0 None
              (store_bytes blank 0x10 (c_array "pxelinux.cfg")) quiet [] in
  exists st',
    int22 20 st = Ok tt st'
    /\ si (ix86 st') = lo16 3
    /\ cx (ix86 st') = lo16 COMBOOT_FILE_BLOCKSZ
    /\ eax (regs (ix86 st')) = u32 0
    /\ Z.land (flags (ix86 st')) CF = 0
    /\ trace st' = trace st ++
         [EvOpen (bytes_of_string "pxelinux.cfg") 3; EvFsize 3 0]
    /\ memory st' = memory st.
Proof.
  cbv zeta.
  refine (proj2 (int22_open_file 20
            (mkState (regs_of 0x0006 0 0 0x10 0) 0 None
               (store_bytes blank 0x10 (c_array "pxelinux.cfg")) quiet [])
            (bytes_of_string "pxelinux.cfg") 3 quiet
            eq_refl _ _ _ eq_refl) _ 0 quiet eq_refl).
  - repeat split.
  - discriminate.
  - vm_compute. lia.
  - discriminate.
Defined.

Lemma int22_read_file_witness :
  let st := mkState (regs_of 0x0007 0x200 2 3 0) 0 None blank quiet [] in
  exists st',
    int22 0 st = Ok tt st'
    /\ trace st' = trace st ++ [EvSelect 3; EvReadUser 3 0x200 1024 0]
    /\ memory st' = store_bytes (memory st) 0x200 []
    /\ (0 < 0 ->
        si (ix86 st') = 0
        /\ Z.land (flags (ix86 st')) CF = CF
        /\ ecx (regs (ix86 st')) = ecx (regs (ix86 st)))
    /\ (0 <= 0 ->
        ecx (regs (ix86 st')) = u32 0
        /\ Z.land (flags (ix86 st')) CF = 0
        /\ esi (regs (ix86 st')) = esi (regs (ix86 st))).
Proof.
  exact (int22_read_file 0
           (mkState (regs_of 0x0007 0x200 2 3 0) 0 None blank quiet [])
           0 [] quiet eq_refl eq_refl).
Defined.

Lemma int22_pxe_always_succeeds_witness :
  let st := mkState (regs_of 0x0009 0 0 0 0) 0 None blank quiet [] in
  exists st',
    int22 (Sv := no_files) 0 st = Ok tt st'
    /\ Z.land (flags (ix86 st')) CF = 0
    /\ regs (ix86 st') = regs (set_flags 0xFFFF (ix86 (carry_set st)))
    /\ segs (ix86 st') = segs (set_flags 0xFFFF (ix86 (carry_set st)))
    /\ flags (ix86 st')
       = Z.ldiff (flags (set_flags 0xFFFF (ix86 (carry_set st)))) CF
    /\ memory st' = blank
    /\ trace st' = trace st ++ [EvPxeApiCall].
Proof.
  exact (int22_pxe_always_succeeds (Sv := no_files) 0
           (mkState (regs_of 0x0009 0 0 0 0) 0 None blank quiet [])
           (set_flags 0xFFFF
              (ix86 (carry_set
                 (mkState (regs_of 0x0009 0 0 0 0) 0 None blank quiet []))))
           blank quiet eq_refl eq_refl).
Defined.

Lemma get_key_returns_character_witness :
  let st := start 0x12340800 0 0 blank (mkScript [0x141] true) in
  exists st',
    int21 0 st = Ok tt st'
    /\ al (ix86 st') = 0x41
    /\ Z.shiftr (eax (regs (ix86 st'))) 8
       = Z.shiftr (eax (regs (ix86 st))) 8
    /\ with_eax 0 (regs (ix86 st')) = with_eax 0 (regs (ix86 st))
    /\ Z.land (flags (ix86 st')) CF = 0
    /\ trace st' = trace st ++ [EvGetchar 0x141].
Proof.
  exact (get_key_returns_character 0
           (start 0x12340800 0 0 blank (mkScript [0x141] true))
           0x141 (mkScript [] true) (or_intror eq_refl) eq_refl).
Defined.

Lemma max_descriptors_is_accepted_witness :
  exists st1,
    int22 0 (start 0x0011 0 0 blank quiet) = Ok tt st1
    /\ cx (ix86 st1) = lo16 COMBOOT_MAX_SHUFFLE_DESCRIPTORS
    /\ Z.land (flags (ix86 st1)) CF = 0
    /\ (COMBOOT_MAX_SHUFFLE_DESCRIPTORS < 2 ^ 16 ->
        cx (ix86 st1) = COMBOOT_MAX_SHUFFLE_DESCRIPTORS
        /\ forall (fuel' : nat) st2,
             ax (ix86 st2) = 0x0012 ->
             cx (ix86 st2) = cx (ix86 st1) ->
             match int22 fuel' st2 with
             | Boot _ s | Fatal _ s =>
                 exists evs,
                   trace s = trace st2 ++ EvShutdown SHUTDOWN_BOOT :: evs
             | OutOfFuel => True
             | Ok _ _ | Exit _ _ => False
             end).
Proof.
  exact (max_descriptors_is_accepted 0 (start 0x0011 0 0 blank quiet)
           eq_refl).
Defined.

Lemma int22_run_command_witness :
  let st := start 0x0003 0x200 0
              (store_bytes blank 0x200 (c_array "boot")) quiet in
  let r := system_svc (bytes_of_string "boot") (memory st) (world st) in
  int22 10 st =
  Exit COMBOOT_EXIT_COMMAND
    (with_world (snd r) (EvSystem (bytes_of_string "boot"))
       (with_memory (fst r) (carry_set st))).
Proof.
  cbv zeta.
  apply (int22_run_command 10 _ (bytes_of_string "boot")).
  - reflexivity.
  - repeat split.
  - vm_compute. lia.
Defined.

Lemma int22_run_kernel_strings_witness :
  let st := start 0x0016 0x100 0 run_kernel_memory quiet in
  exists st' evs,
    (int22 (Sv := overwriting) 60 st = Exit COMBOOT_EXIT_RUN_KERNEL st'
     \/ int22 (Sv := overwriting) 60 st = Fatal AssertionFailed st')
    /\ trace st' = trace st ++ evs
    /\ (forall img n rc,
          In (EvImgfetch img n rc) evs ->
          n = bytes_of_string "vmlinuz"
          \/ exists p,
               strstr (bytes_of_string example_cmdline ++ [0])
                 (bytes_of_string "initrd=") = Some p
               /\ n = initrd_token (bytes_of_string example_cmdline ++ [0]) p)
    /\ (forall img c rc,
          In (EvImageSetCmdline img c rc) evs ->
          c = bytes_of_string example_cmdline).
Proof.
  cbv zeta. apply (int22_run_kernel_strings (Sv := overwriting)).
  - reflexivity.
  - repeat split.
  - repeat split.
  - vm_compute. lia.
  - vm_compute. lia.
Defined.

(** In that run the first fetch fills memory, the two strings included,
    and the kernel is still fetched as "vmlinuz" and given the command
    line of the entry. *)
Example run_kernel_strings_survive_overwrite :
  let st := start 0x0016 0x100 0 run_kernel_memory quiet in
  new_events st (int22 (Sv := overwriting) 60 st)
  = Some [EvAllocImage (Some 1);
          EvImgfetch 1 (bytes_of_string "boot/initrd.img") 0;
          EvAllocImage (Some 1);
          EvImgfetch 1 (bytes_of_string "vmlinuz") 0;
          EvImageSetCmdline 1 (bytes_of_string example_cmdline) 0;
          EvImageGet 1; EvImagePut (Some 1); EvImagePut (Some 1)]
  /\ option_map (fun s => copy_from_user (memory s) 0 0 4)
       (final_state (int22 (Sv := overwriting) 60 st))
     = Some [0x58; 0x58; 0x58; 0x58].
Proof. vm_compute. split; reflexivity. Qed.

End FurtherRuns.
